(** * WebCite MCP server: SSE ingestion and result reconstruction

    A shallow embedding of the streaming path of the server:

    - [verifyClaimStream] (src/src/api-client.ts, lines 173-259): the async
      generator that reads the body of the streaming endpoint chunk by chunk,
      decodes it with a [TextDecoder], splits it into lines and yields one
      [SSEEvent] per finalized frame;
    - [collectStreamEvents] (src/src/index.ts, lines 393-446): the aggregator
      that turns the yielded events into one [VerifyClaimResponse].

    JavaScript strings are modelled as lists of code points ([text]).  Every
    string operation the source uses ([split] on a line feed, [startsWith] with
    an ASCII prefix, [slice] past that prefix, [trim], the emptiness tests)
    acts the same way on code points as on UTF-16 code units, since line feed,
    the prefixes and all white space are single code units and never halves of
    a surrogate pair.

    The platform functions [JSON.parse], the [+] operator and the number type
    are parameters of the development (Section variables); [TextDecoder] is
    modelled after the WHATWG Encoding Standard because two of the properties
    below are about what it does with bytes. *)

From Stdlib Require Import ZArith List Bool Lia String Ascii.
From Stdlib Require DecimalString.
From Stdlib Require QArith.
From Stdlib.Strings Require Import Byte.
Import ListNotations.

Local Open Scope Z_scope.

(* ================================================================== *)
(** * JavaScript strings *)

Module Text.

(** A string: its code points, in order. *)
Definition text : Type := list Z.

(** The code points of an ASCII literal. *)
Definition txt (s : string) : text :=
  map (fun a => Z.of_N (N_of_ascii a)) (list_ascii_of_string s).

Definition LF : Z := 10.

(** [a === b] on strings. *)
Fixpoint eqb (a b : text) : bool :=
  match a, b with
  | [], [] => true
  | x :: a', y :: b' => (x =? y) && eqb a' b'
  | _, _ => false
  end.

(** [s.startsWith(prefix)]. *)
Fixpoint startsWith (s prefix : text) {struct prefix} : bool :=
  match prefix, s with
  | [], _ => true
  | p :: prefix', c :: s' => (c =? p) && startsWith s' prefix'
  | _ :: _, [] => false
  end.

(** [s.slice(n)] for [n >= 0]. *)
Definition slice (s : text) (n : nat) : text := skipn n s.

(** ECMAScript WhiteSpace and LineTerminator code points, the ones [trim]
    strips. *)
Definition is_space (c : Z) : bool :=
  ((9 <=? c) && (c <=? 13)) || (c =? 32) || (c =? 160) || (c =? 5760)
  || ((8192 <=? c) && (c <=? 8202)) || (c =? 8232) || (c =? 8233)
  || (c =? 8239) || (c =? 8287) || (c =? 12288) || (c =? 65279).

Fixpoint trimStart (s : text) : text :=
  match s with
  | [] => []
  | c :: s' => if is_space c then trimStart s' else s
  end.

Definition trimEnd (s : text) : text := rev (trimStart (rev s)).

(** [s.trim()]. *)
Definition trim (s : text) : text := trimEnd (trimStart s).

(** Truthiness of a string: [''] is the only falsy one. *)
Definition nonempty (s : text) : bool :=
  match s with [] => false | _ :: _ => true end.

(** [s.split('\n')]: never empty; its last element is what follows the last
    line feed. *)
Fixpoint split (s : text) : list text :=
  match s with
  | [] => [[]]
  | c :: s' =>
      if c =? LF then [] :: split s'
      else match split s' with
           | l :: ls => (c :: l) :: ls
           | [] => [[c]]
           end
  end.

(** The text holds no line feed. *)
Definition no_LF (s : text) : bool := forallb (fun c => negb (c =? LF)) s.

(** [String(n)] for a non-negative integer. *)
Definition of_N (n : N) : text := txt (DecimalString.NilZero.string_of_uint (N.to_uint n)).

(** [hay.includes(needle)], as a proposition. *)
Definition includes (hay needle : text) : Prop :=
  exists pre post, hay = pre ++ needle ++ post.

End Text.
Import Text.

(* ================================================================== *)
(** * The platform's [TextDecoder] for UTF-8 *)

Module Utf8.

(** The state of the UTF-8 decoder of the Encoding Standard, and the BOM flag
    of the [TextDecoder] object that owns it. *)
Record decoder : Type := mkDecoder {
  code_point : Z;
  bytes_seen : Z;
  bytes_needed : Z;
  lower_boundary : Z;
  upper_boundary : Z;
  BOM_seen : bool
}.

(** [new TextDecoder()]. *)
Definition fresh : decoder := mkDecoder 0 0 0 128 191 false.

Definition REPLACEMENT : Z := 65533.
Definition BOM : Z := 65279.

Definition with_bom (d : decoder) (b : bool) : decoder :=
  mkDecoder (code_point d) (bytes_seen d) (bytes_needed d)
            (lower_boundary d) (upper_boundary d) b.

Definition idle (bom : bool) : decoder := mkDecoder 0 0 0 128 191 bom.

Definition in_range (lo hi b : Z) : bool := (lo <=? b) && (b <=? hi).

(** The handler on a byte when no bytes are needed. *)
Definition lead (bom : bool) (b : Z) : decoder * list Z :=
  if in_range 0 127 b then (idle bom, [b])
  else if in_range 194 223 b then
    (mkDecoder (Z.land b 31) 0 1 128 191 bom, [])
  else if in_range 224 239 b then
    (mkDecoder (Z.land b 15) 0 2
               (if b =? 224 then 160 else 128)
               (if b =? 237 then 159 else 191) bom, [])
  else if in_range 240 244 b then
    (mkDecoder (Z.land b 7) 0 3
               (if b =? 240 then 144 else 128)
               (if b =? 244 then 143 else 191) bom, [])
  else (idle bom, [REPLACEMENT]).

(** The handler on one byte.  A byte outside the boundaries ends the pending
    sequence with an error and is then read again as a lead byte. *)
Definition handler (d : decoder) (b : Z) : decoder * list Z :=
  if bytes_needed d =? 0 then lead (BOM_seen d) b
  else if negb (in_range (lower_boundary d) (upper_boundary d) b) then
    let (d', out) := lead (BOM_seen d) b in (d', REPLACEMENT :: out)
  else
    let cp := Z.lor (Z.shiftl (code_point d) 6) (Z.land b 63) in
    let seen := bytes_seen d + 1 in
    if seen =? bytes_needed d then (idle (BOM_seen d), [cp])
    else (mkDecoder cp seen (bytes_needed d) 128 191 (BOM_seen d), []).

(** Serializing the decoded scalar values: the first one is dropped when it
    is a byte order mark. *)
Definition serialize (bom : bool) (out : list Z) : bool * text :=
  match out with
  | [] => (bom, [])
  | c :: out' =>
      if bom then (true, c :: out')
      else if c =? BOM then (true, out') else (true, c :: out')
  end.

Fixpoint run (d : decoder) (bytes : list byte) : decoder * list Z :=
  match bytes with
  | [] => (d, [])
  | b :: bytes' =>
      let (d1, o1) := handler d (Z.of_N (Byte.to_N b)) in
      let (d2, o2) := run d1 bytes' in
      (d2, o1 ++ o2)
  end.

(** [decoder.decode(value, { stream: true })]: the bytes go through the
    handler, the end of the chunk is not the end of the input, and the
    decoder keeps its state for the next call. *)
Definition decode_stream (d : decoder) (value : list byte) : decoder * text :=
  let (d', out) := run d value in
  let (bom, s) := serialize (BOM_seen d') out in
  (with_bom d' bom, s).

(** A partial character is pending. *)
Definition pending (d : decoder) : bool := negb (bytes_needed d =? 0).

(** [decoder.decode()], the call that ends the input: a pending partial
    character becomes U+FFFD.  The generator never makes this call. *)
Definition decode_end (d : decoder) : decoder * text :=
  let (bom, s) := serialize (BOM_seen d) (if pending d then [REPLACEMENT] else []) in
  (idle bom, s).

(** The UTF-8 encoding of a scalar value. *)
Definition byte_of (z : Z) : byte :=
  match Byte.of_N (Z.to_N z) with Some b => b | None => x00 end.

Definition cont (z : Z) : byte := byte_of (Z.lor 128 (Z.land z 63)).

Definition encode (c : Z) : list byte :=
  if c <? 128 then [byte_of c]
  else if c <? 2048 then [byte_of (Z.lor 192 (Z.shiftr c 6)); cont c]
  else if c <? 65536 then
    [byte_of (Z.lor 224 (Z.shiftr c 12)); cont (Z.shiftr c 6); cont c]
  else
    [byte_of (Z.lor 240 (Z.shiftr c 18)); cont (Z.shiftr c 12);
     cont (Z.shiftr c 6); cont c].

(** Unicode scalar values: code points that are not surrogates. *)
Definition scalar (c : Z) : bool :=
  in_range 0 55295 c || in_range 57344 1114111 c.

End Utf8.

(* ================================================================== *)
(** * JavaScript values *)

Module JS.

(** What [JSON.parse] can return, and [undefined].  Numbers are the
    platform's (IEEE doubles in the source); the type is a parameter.  An
    object is the list of its properties in insertion order, each key
    once. *)
#[warnings="-register-all"]
Inductive JSValue (number : Type) : Type :=
| JUndefined
| JNull
| JBool (b : bool)
| JNum (n : number)
| JStr (s : text)
| JArr (items : list (JSValue number))
| JObj (props : list (text * JSValue number)).

Arguments JUndefined {number}.
Arguments JNull {number}.
Arguments JBool {number} b.
Arguments JNum {number} n.
Arguments JStr {number} s.
Arguments JArr {number} items.
Arguments JObj {number} props.

Section Values.
Variable number : Type.
(** [Boolean(n)] on numbers: false on zero and NaN. *)
Variable num_truthy : number -> bool.

(** ToBoolean, as [if (v)], [!v] and [v && ...] apply it. *)
Definition truthy (v : JSValue number) : bool :=
  match v with
  | JUndefined | JNull => false
  | JBool b => b
  | JNum n => num_truthy n
  | JStr s => nonempty s
  | JArr _ | JObj _ => true
  end.

(** [typeof v === 'object']: objects, arrays and [null]. *)
Definition typeof_object (v : JSValue number) : bool :=
  match v with
  | JNull | JArr _ | JObj _ => true
  | _ => false
  end.

Fixpoint lookup (props : list (text * JSValue number)) (key : text)
  : JSValue number :=
  match props with
  | [] => JUndefined
  | (k, v) :: props' => if Text.eqb k key then v else lookup props' key
  end.

(** [v.key] for the property names the source reads ([thread_id],
    [claim_groups], [citation_count]), on a value that passed the object
    test: an array has no such property. *)
Definition get (v : JSValue number) (key : text) : JSValue number :=
  match v with
  | JObj props => lookup props key
  | _ => JUndefined
  end.
End Values.

Arguments truthy {number} num_truthy v.
Arguments typeof_object {number} v.
Arguments lookup {number} props key.
Arguments get {number} v key.

End JS.
Import JS.

(* ================================================================== *)
(** * src/src/api-client.ts *)

Module ApiClient.

(** [interface SSEEvent { event: string; data: unknown }]. *)
Record SSEEvent (number : Type) : Type := mkSSEEvent {
  event : text;
  data : JSValue number
}.
Arguments mkSSEEvent {number} event data.
Arguments event {number} s.
Arguments data {number} s.

(** What the generator reads of the [Response] of [fetch]: the status, the
    text [response.text()] resolves to, and the body as the chunks its
    reader returns before [done] ([None] for a null body). *)
Record Response : Type := mkResponse {
  status : N;
  text_ : text;
  body : option (list (list byte))
}.

(** [response.ok]: the status is in the range 200-299. *)
Definition ok (response : Response) : bool :=
  (200 <=? status response)%N && (status response <=? 299)%N.

(** A run of the generator to its end: the events it yielded, in order, and
    the error it threw, if any. *)
Record Outcome (number : Type) : Type := mkOutcome {
  yielded : list (SSEEvent number);
  thrown : option text
}.
Arguments mkOutcome {number} yielded thrown.
Arguments yielded {number} o.
Arguments thrown {number} o.

(** A frame, as the specification names it: the event kind and the raw
    payload at the point where the generator yields, before JSON decoding. *)
Definition Frame : Type := (text * text)%type.

Section ReadLoop.
(** What is yielded for a finalized frame: the generator yields
    [emit currentEvent currentData] (below); taking the pair itself gives
    the frames. *)
Variable Yield : Type.
Variable yield : text -> text -> Yield.

(** One turn of [for (const line of lines)] in the read loop (lines
    218-233), on the pair [(currentEvent, currentData)]. *)
Definition line_step (st : text * text) (line : text)
  : (text * text) * list Yield :=
  let (currentEvent, currentData) := st in
  if startsWith line (txt "event: ") then
    ((trim (slice line 7), currentData), [])
  else if startsWith line (txt "data: ") then
    ((currentEvent, slice line 6), [])
  else if Text.eqb line [] && nonempty currentData then
    ((txt "message", []), [yield currentEvent currentData])
  else (st, []).

Fixpoint for_lines (st : text * text) (lines : list text)
  : (text * text) * list Yield :=
  match lines with
  | [] => (st, [])
  | line :: lines' =>
      let (st1, out1) := line_step st line in
      let (st2, out2) := for_lines st1 lines' in
      (st2, out1 ++ out2)
  end.

(** One turn of [while (true)] after a read that was not [done] (lines
    209-233): [currentEvent] and [currentData] are declared here, in the
    body of the loop. *)
Definition read_pass (decoder : Utf8.decoder) (buffer : text)
           (value : list byte)
  : (Utf8.decoder * text) * list Yield :=
  let (decoder, s) := Utf8.decode_stream decoder value in
  let buffer := buffer ++ s in
  let lines := split buffer in
  let buffer := last lines [] in
  let lines := removelast lines in
  let currentEvent := txt "message" in
  let currentData := [] in
  ((decoder, buffer), snd (for_lines (currentEvent, currentData) lines)).

Fixpoint read_loop (decoder : Utf8.decoder) (buffer : text)
         (chunks : list (list byte))
  : (Utf8.decoder * text) * list Yield :=
  match chunks with
  | [] => ((decoder, buffer), [])
  | value :: chunks' =>
      let '((decoder, buffer), out1) := read_pass decoder buffer value in
      let '(final, out2) := read_loop decoder buffer chunks' in
      (final, out1 ++ out2)
  end.

(** One turn of the loop over the remaining buffer (lines 241-247). *)
Definition rest_step (st : text * text) (line : text) : text * text :=
  let (currentEvent, currentData) := st in
  if startsWith line (txt "event: ") then
    (trim (slice line 7), currentData)
  else if startsWith line (txt "data: ") then
    (currentEvent, slice line 6)
  else st.

(** [// Process any remaining data in buffer] (lines 236-255). *)
Definition remaining (buffer : text) : list Yield :=
  if nonempty (trim buffer) then
    let lines := split buffer in
    let (currentEvent, currentData) :=
      fold_left rest_step lines (txt "message", []) in
    if nonempty currentData then [yield currentEvent currentData] else []
  else [].

(** What a body yields: the read loop over its chunks, then the remaining
    buffer. *)
Definition stream (chunks : list (list byte)) : list Yield :=
  let '((_, buffer), out) := read_loop Utf8.fresh [] chunks in
  out ++ remaining buffer.
End ReadLoop.

Arguments line_step {Yield} yield st line.
Arguments for_lines {Yield} yield st lines.
Arguments read_pass {Yield} yield decoder buffer value.
Arguments read_loop {Yield} yield decoder buffer chunks.
Arguments remaining {Yield} yield buffer.
Arguments stream {Yield} yield chunks.

(** The frames of a body. *)
Definition stream_frames (chunks : list (list byte)) : list Frame :=
  stream pair chunks.

(** What is yielded for a frame. *)
Definition of_frame {Yield : Type} (yield : text -> text -> Yield)
           (f : Frame) : Yield :=
  yield (fst f) (snd f).

(** The frame carries a payload that is not empty. *)
Definition with_payload (f : Frame) : Prop := nonempty (snd f) = true.

(** The frame is one kind and one line: a kind with no white space around
    it and no line feed, a payload with no line feed. *)
Definition shaped (f : Frame) : Prop :=
  trim (fst f) = fst f /\ no_LF (fst f) = true /\ no_LF (snd f) = true.

(** Every read of the body ends between frames: each pass leaves the event
    kind and the payload as it found them, ['message'] and ['']. *)
Fixpoint settled (decoder : Utf8.decoder) (buffer : text)
         (chunks : list (list byte)) : bool :=
  match chunks with
  | [] => true
  | value :: chunks' =>
      let (decoder, s) := Utf8.decode_stream decoder value in
      let lines := split (buffer ++ s) in
      let (currentEvent, currentData) :=
        fst (for_lines pair (txt "message", []) (removelast lines)) in
      Text.eqb currentEvent (txt "message") && Text.eqb currentData []
      && settled decoder (last lines []) chunks'
  end.

(** The text the decoder returns over the reads of a body, call after
    call, and the decoder after the last read. *)
Fixpoint decoded (decoder : Utf8.decoder) (chunks : list (list byte))
  : Utf8.decoder * text :=
  match chunks with
  | [] => (decoder, [])
  | value :: chunks' =>
      let (decoder, s) := Utf8.decode_stream decoder value in
      let (final, s') := decoded decoder chunks' in
      (final, s ++ s')
  end.

Section Generator.
Variable number : Type.
(** [JSON.parse]: [None] when it throws. *)
Variable JSON_parse : text -> option (JSValue number).

(** The [try { yield { event, data: JSON.parse(currentData) } } catch
    { yield { event, data: currentData } }] of lines 225-229 and
    249-253. *)
Definition emit (currentEvent currentData : text) : SSEEvent number :=
  match JSON_parse currentData with
  | Some v => mkSSEEvent currentEvent v
  | None => mkSSEEvent currentEvent (JStr currentData)
  end.

(** The events of a body. *)
Definition stream_events (chunks : list (list byte))
  : list (SSEEvent number) :=
  stream emit chunks.

(** [async *verifyClaimStream], from the response of [fetch] on. *)
Definition verifyClaimStream (response : Response) : Outcome number :=
  if negb (ok response) then
    let errorBody := text_ response in
    mkOutcome []
      (Some (txt "WebCite API error (" ++ Text.of_N (status response)
             ++ txt "): " ++ errorBody))
  else
    match body response with
    | None =>
        mkOutcome []
          (Some (txt "No response body received from streaming endpoint"))
    | Some chunks => mkOutcome (stream_events chunks) None
    end.
End Generator.

Arguments emit {number} JSON_parse currentEvent currentData.
Arguments stream_events {number} JSON_parse chunks.
Arguments verifyClaimStream {number} JSON_parse response.

End ApiClient.
Import ApiClient.

(* ================================================================== *)
(** * src/src/index.ts *)

Module Index.

(** What [collectStreamEvents] resolves to: [result] is [null] ([None]) or
    the final result. *)
Record Collected (number : Type) : Type := mkCollected {
  result : option (JSValue number);
  events : list (SSEEvent number)
}.
Arguments mkCollected {number} result events.
Arguments result {number} c.
Arguments events {number} c.

(** The variables of the assembling pass (lines 412-414 and
    [finalResult]). *)
Record Assembly (number : Type) : Type := mkAssembly {
  claimGroups : list (JSValue number);
  creditUsage : JSValue number;
  threadId : JSValue number;
  finalResult : option (JSValue number)
}.
Arguments mkAssembly {number} claimGroups creditUsage threadId finalResult.
Arguments claimGroups {number} a.
Arguments creditUsage {number} a.
Arguments threadId {number} a.
Arguments finalResult {number} a.

Section Collect.
Variable number : Type.
Variable num_truthy : number -> bool.
(** The number [0] and the operator [+]. *)
Variable num_zero : number.
Variable num_add : number -> number -> number.
(** [a + b] when an operand is not a number (string concatenation, NaN).
    The source throws TypeError when an operand cannot be made primitive (an
    object with an own [toString] property); the parameter has no such
    outcome, so what is stated of the sum of line 438 is stated for operands
    that are numbers. *)
Variable add_coerced : JSValue number -> JSValue number -> JSValue number.

(** [a + b]. *)
Definition js_add (a b : JSValue number) : JSValue number :=
  match a, b with
  | JNum x, JNum y => JNum (num_add x y)
  | _, _ => add_coerced a b
  end.

(** [!finalResult]. *)
Definition not_result (finalResult : option (JSValue number)) : bool :=
  match finalResult with
  | None => true
  | Some v => negb (truthy num_truthy v)
  end.

(** The test of line 403 on the event kind. *)
Definition final_kind (e : SSEEvent number) : bool :=
  Text.eqb (event e) (txt "complete") || Text.eqb (event e) (txt "result")
  || Text.eqb (event e) (txt "done").

(** The test of line 404: [event.data && typeof event.data === 'object']. *)
Definition object_data (e : SSEEvent number) : bool :=
  truthy num_truthy (data e) && typeof_object (data e).

(** One turn of [for await (const event of stream)] on [finalResult]
    (lines 402-407); [events.push(event)] is the list itself. *)
Definition final_step (finalResult : option (JSValue number))
           (e : SSEEvent number) : option (JSValue number) :=
  if final_kind e then
    if object_data e then Some (data e) else finalResult
  else finalResult.

(** One turn of [for (const event of events)] (lines 416-434). *)
Definition assemble_step (a : Assembly number) (e : SSEEvent number)
  : Assembly number :=
  let data := data e in
  if negb (truthy num_truthy data) || negb (typeof_object data) then a
  else
    let claimGroups :=
      if Text.eqb (event e) (txt "claim_group") && truthy num_truthy data
      then claimGroups a ++ [data] else claimGroups a in
    let creditUsage :=
      if Text.eqb (event e) (txt "credit_usage") && truthy num_truthy data
      then data else creditUsage a in
    let threadId :=
      if truthy num_truthy (get data (txt "thread_id"))
      then get data (txt "thread_id") else threadId a in
    let finalResult :=
      if truthy num_truthy (get data (txt "claim_groups"))
      then Some data else finalResult a in
    mkAssembly claimGroups creditUsage threadId finalResult.

(** [claimGroups.reduce((sum, g) => sum + g.citation_count, 0)]. *)
Definition total (claimGroups : list (JSValue number)) : JSValue number :=
  fold_left (fun sum g => js_add sum (get g (txt "citation_count")))
            claimGroups (JNum num_zero).

(** The object literal of lines 437-442. *)
Definition synthesized (a : Assembly number) : JSValue number :=
  JObj [ (txt "claim_groups", JArr (claimGroups a));
         (txt "totalResults", total (claimGroups a));
         (txt "thread_id", threadId a);
         (txt "credit_usage", creditUsage a) ].

(** [if (!finalResult) { ... }] (lines 411-444). *)
Definition assemble (evs : list (SSEEvent number))
  : option (JSValue number) :=
  let a := fold_left assemble_step evs
             (mkAssembly [] JUndefined (JStr []) None) in
  if not_result (finalResult a) && (0 <? List.length (claimGroups a))%nat
  then Some (synthesized a)
  else finalResult a.

(** [collectStreamEvents] on a stream that yields [stream] and ends. *)
Definition collectStreamEvents (stream : list (SSEEvent number))
  : Collected number :=
  let events := stream in
  let finalResult := fold_left final_step stream None in
  let finalResult :=
    if not_result finalResult then assemble events else finalResult in
  mkCollected finalResult events.

(** ** The reconstruction as the specification words it *)

(** The data of the [claim_group] events with an object payload, in
    arrival order. *)
Definition accumulated_groups (evs : list (SSEEvent number))
  : list (JSValue number) :=
  map data
      (filter (fun e => object_data e
                        && Text.eqb (event e) (txt "claim_group")) evs).

(** The last [thread_id] observed on an object payload ([''] if none);
    a payload shows one when the field is there and not falsy. *)
Definition last_thread_id (evs : list (SSEEvent number)) : JSValue number :=
  last (map (fun e => get (data e) (txt "thread_id"))
            (filter (fun e => object_data e
                              && truthy num_truthy
                                   (get (data e) (txt "thread_id"))) evs))
       (JStr []).

(** The payload of the last [credit_usage] event with an object payload
    ([undefined] if none). *)
Definition last_credit_usage (evs : list (SSEEvent number))
  : JSValue number :=
  last (map data
            (filter (fun e => object_data e
                              && Text.eqb (event e) (txt "credit_usage"))
                    evs))
       JUndefined.

(** An event whose payload is an object with a [claim_groups] field that
    is not falsy: a full snapshot. *)
Definition snapshot (e : SSEEvent number) : bool :=
  object_data e && truthy num_truthy (get (data e) (txt "claim_groups")).

(** An event that qualifies as terminal: one of the three kinds, with an
    object payload. *)
Definition terminal (e : SSEEvent number) : bool :=
  final_kind e && object_data e.

(** The sum of numbers, from [0], left to right. *)
Definition sum (counts : list number) : number :=
  fold_left num_add counts num_zero.

(** The last element that passes a test, if any. *)
Definition last_event (p : SSEEvent number -> bool)
           (evs : list (SSEEvent number)) : option (SSEEvent number) :=
  last (map Some (filter p evs)) None.

(** The result in three tiers: the last terminal event, else the last
    snapshot, else the object synthesized from the accumulated groups. *)
Definition tiers (evs : list (SSEEvent number)) : option (JSValue number) :=
  match last_event terminal evs with
  | Some e => Some (data e)
  | None =>
      match last_event snapshot evs with
      | Some e => Some (data e)
      | None =>
          match accumulated_groups evs with
          | [] => None
          | groups =>
              Some (JObj [ (txt "claim_groups", JArr groups);
                           (txt "totalResults", total groups);
                           (txt "thread_id", last_thread_id evs);
                           (txt "credit_usage", last_credit_usage evs) ])
          end
      end
  end.
End Collect.

Arguments not_result {number} num_truthy finalResult.
Arguments js_add {number} num_add add_coerced a b.
Arguments final_kind {number} e.
Arguments object_data {number} num_truthy e.
Arguments final_step {number} num_truthy finalResult e.
Arguments assemble_step {number} num_truthy a e.
Arguments total {number} num_zero num_add add_coerced claimGroups.
Arguments synthesized {number} num_zero num_add add_coerced a.
Arguments assemble {number} num_truthy num_zero num_add add_coerced evs.
Arguments collectStreamEvents {number} num_truthy num_zero num_add
          add_coerced stream.
Arguments accumulated_groups {number} num_truthy evs.
Arguments last_thread_id {number} num_truthy evs.
Arguments last_credit_usage {number} num_truthy evs.
Arguments snapshot {number} num_truthy e.
Arguments terminal {number} num_truthy e.
Arguments sum {number} num_zero num_add counts.
Arguments last_event {number} p evs.
Arguments tiers {number} num_truthy num_zero num_add add_coerced evs.

End Index.
Import Index.

(* ================================================================== *)
(** * A reference platform

    An instance of the parameters, to run the model on concrete inputs: exact
    decimal numbers and a reader of the JSON grammar (RFC 8259, as
    [JSON.parse] accepts it).  It agrees with the source's platform on the
    integers and the texts of the examples below. *)

Module Ref.

(** [Fin m e] is [m * 10^e]. *)
Inductive num : Type :=
| Fin (m e : Z)
| NaN.

Definition num_zero : num := Fin 0 0.

Definition num_truthy (n : num) : bool :=
  match n with
  | Fin m _ => negb (m =? 0)
  | NaN => false
  end.

Definition num_add (a b : num) : num :=
  match a, b with
  | Fin m1 e1, Fin m2 e2 =>
      let e := Z.min e1 e2 in
      Fin (m1 * 10 ^ (e1 - e) + m2 * 10 ^ (e2 - e)) e
  | _, _ => NaN
  end.

Definition value : Type := JSValue num.

(** The digits after the leading zeros. *)
Fixpoint drop_zeros (digits : text) : text :=
  match digits with
  | 48 :: digits' => drop_zeros digits'
  | _ => digits
  end.

(** [Number::toString], exact on the integers below [10^21] (all the examples
    use); a fraction is written in positional notation. *)
Definition num_text (n : num) : text :=
  match n with
  | NaN => txt "NaN"
  | Fin m e =>
      let sign := if m <? 0 then txt "-" else [] in
      if 0 <=? e then sign ++ Text.of_N (Z.to_N (Z.abs m * 10 ^ e))
      else
        let k := - e in
        let ip := Z.abs m / 10 ^ k in
        let fp := Z.abs m mod 10 ^ k in
        if fp =? 0 then sign ++ Text.of_N (Z.to_N ip)
        else
          let digits := Text.of_N (Z.to_N fp) in
          let padded :=
            repeat 48 (Z.to_nat k - List.length digits) ++ digits in
          sign ++ Text.of_N (Z.to_N ip) ++ txt "."
          ++ rev (drop_zeros (rev padded))
  end.

(** ToString on what [JSON.parse] returns: an array is the join of its
    elements, an object is [[object Object]]; [None] where the source throws
    TypeError, on an object with an own [toString] property (no JSON value is
    callable, and the inherited [valueOf] returns the object). *)
Fixpoint to_string (v : value) : option text :=
  match v with
  | JUndefined => Some (txt "undefined")
  | JNull => Some (txt "null")
  | JBool true => Some (txt "true")
  | JBool false => Some (txt "false")
  | JNum n => Some (num_text n)
  | JStr s => Some s
  | JArr items =>
      (fix join (l : list value) : option text :=
         let element (x : value) : option text :=
           match x with
           | JUndefined | JNull => Some []
           | _ => to_string x
           end in
         match l with
         | [] => Some []
         | [x] => element x
         | x :: l' =>
             match element x, join l' with
             | Some a, Some b => Some (a ++ txt "," ++ b)
             | _, _ => None
             end
         end) items
  | JObj props =>
      if existsb (fun p => Text.eqb (fst p) (txt "toString")) props then None
      else Some (txt "[object Object]")
  end.

(** ToPrimitive: an array or an object becomes its string. *)
Definition to_primitive (v : value) : option value :=
  match v with
  | JArr _ | JObj _ => option_map JStr (to_string v)
  | _ => Some v
  end.

(** ToNumber on a primitive that is not a string. *)
Definition to_number (p : value) : num :=
  match p with
  | JNull | JBool false => Fin 0 0
  | JBool true => Fin 1 0
  | JNum n => n
  | _ => NaN
  end.

(** [a + b] when an operand is not a number: both operands are made
    primitive; if one is then a string, the strings of both are concatenated,
    otherwise their numbers are added.  Where the source throws TypeError (an
    operand that cannot be made primitive) the value here is [undefined]: the
    parameter this instantiates has no such outcome. *)
Definition add_coerced (a b : value) : value :=
  match to_primitive a, to_primitive b with
  | Some pa, Some pb =>
      match pa, pb with
      | JStr _, _ | _, JStr _ =>
          match to_string pa, to_string pb with
          | Some x, Some y => JStr (x ++ y)
          | _, _ => JUndefined
          end
      | _, _ => JNum (num_add (to_number pa) (to_number pb))
      end
  | _, _ => JUndefined
  end.

Definition is_ws (c : Z) : bool :=
  (c =? 32) || (c =? 9) || (c =? 10) || (c =? 13).

Fixpoint skip_ws (s : text) : text :=
  match s with
  | c :: s' => if is_ws c then skip_ws s' else s
  | [] => []
  end.

Definition is_digit (c : Z) : bool := (48 <=? c) && (c <=? 57).

Fixpoint take_digits (s : text) : text * text :=
  match s with
  | c :: s' =>
      if is_digit c then let (ds, r) := take_digits s' in (c :: ds, r)
      else ([], s)
  | [] => ([], [])
  end.

Definition digits_value (ds : text) : Z :=
  fold_left (fun acc c => acc * 10 + (c - 48)) ds 0.

(** [-? int frac? exp?]. *)
Definition parse_number (s : text) : option (num * text) :=
  let (neg, s1) :=
    match s with 45 :: r => (true, r) | _ => (false, s) end in
  let (ip, s2) :=
    match s1 with
    | 48 :: r => ([48], r)
    | _ => take_digits s1
    end in
  match ip with
  | [] => None
  | _ :: _ =>
      let frac :=
        match s2 with
        | 46 :: r =>
            let (fp, r') := take_digits r in
            match fp with [] => None | _ :: _ => Some (fp, r') end
        | _ => Some ([], s2)
        end in
      match frac with
      | None => None
      | Some (fp, s3) =>
          let ex :=
            match s3 with
            | c :: r =>
                if (c =? 101) || (c =? 69) then
                  let (eneg, r1) :=
                    match r with
                    | 45 :: r' => (true, r')
                    | 43 :: r' => (false, r')
                    | _ => (false, r)
                    end in
                  let (ep, r2) := take_digits r1 in
                  match ep with
                  | [] => None
                  | _ :: _ =>
                      Some ((if eneg then - digits_value ep
                             else digits_value ep), r2)
                  end
                else Some (0, s3)
            | [] => Some (0, s3)
            end in
          match ex with
          | None => None
          | Some (e, s4) =>
              let m := digits_value (ip ++ fp) in
              Some (Fin (if neg then - m else m)
                        (e - Z.of_nat (List.length fp)), s4)
          end
      end
  end.

Definition hex_value (c : Z) : option Z :=
  if is_digit c then Some (c - 48)
  else if (97 <=? c) && (c <=? 102) then Some (c - 87)
  else if (65 <=? c) && (c <=? 70) then Some (c - 55)
  else None.

Definition hex4 (a b c d : Z) : option Z :=
  match hex_value a, hex_value b, hex_value c, hex_value d with
  | Some x, Some y, Some z, Some w => Some (((x * 16 + y) * 16 + z) * 16 + w)
  | _, _, _, _ => None
  end.

Definition simple_escape (c : Z) : option Z :=
  if c =? 34 then Some 34 else if c =? 92 then Some 92
  else if c =? 47 then Some 47 else if c =? 98 then Some 8
  else if c =? 102 then Some 12 else if c =? 110 then Some 10
  else if c =? 114 then Some 13 else if c =? 116 then Some 9
  else None.

(** The characters after the opening quote, up to the closing one; escapes
    give UTF-16 code units. *)
Fixpoint string_body (s : text) : option (text * text) :=
  match s with
  | [] => None
  | c :: s' =>
      if c =? 34 then Some ([], s')
      else if c =? 92 then
        match s' with
        | 117 :: h1 :: h2 :: h3 :: h4 :: r =>
            match hex4 h1 h2 h3 h4, string_body r with
            | Some u, Some (str, r') => Some (u :: str, r')
            | _, _ => None
            end
        | e :: r =>
            match simple_escape e, string_body r with
            | Some u, Some (str, r') => Some (u :: str, r')
            | _, _ => None
            end
        | [] => None
        end
      else if c <? 32 then None
      else match string_body s' with
           | Some (str, r') => Some (c :: str, r')
           | None => None
           end
  end.

(** A high surrogate followed by a low one is one code point. *)
Fixpoint pair_surrogates (s : text) : text :=
  match s with
  | hi :: s' =>
      match s' with
      | lo :: s'' =>
          if (55296 <=? hi) && (hi <=? 56319) && (56320 <=? lo) && (lo <=? 57343)
          then (65536 + (hi - 55296) * 1024 + (lo - 56320)) :: pair_surrogates s''
          else hi :: pair_surrogates s'
      | [] => [hi]
      end
  | [] => []
  end.

Definition parse_string (s : text) : option (text * text) :=
  match string_body s with
  | Some (str, r) => Some (pair_surrogates str, r)
  | None => None
  end.

(** Defining a property: a repeated key keeps its place and takes the new
    value. *)
Fixpoint set_prop (props : list (text * value)) (k : text) (v : value)
  : list (text * value) :=
  match props with
  | [] => [(k, v)]
  | (k', v') :: props' =>
      if Text.eqb k' k then (k', v) :: props'
      else (k', v') :: set_prop props' k v
  end.

Definition literal (lit : text) (v : value) (s : text)
  : option (value * text) :=
  if startsWith s lit then Some (v, skipn (List.length lit) s) else None.

Fixpoint parse_value (fuel : nat) (s : text) : option (value * text) :=
  match fuel with
  | O => None
  | S fuel' =>
      match skip_ws s with
      | [] => None
      | c :: r =>
          if c =? 123 then
            match skip_ws r with
            | 125 :: r' => Some (JObj [], r')
            | _ => parse_members fuel' [] r
            end
          else if c =? 91 then
            match skip_ws r with
            | 93 :: r' => Some (JArr [], r')
            | _ => parse_elements fuel' [] r
            end
          else if c =? 34 then
            match parse_string r with
            | Some (str, r') => Some (JStr str, r')
            | None => None
            end
          else if c =? 116 then literal (txt "true") (JBool true) (c :: r)
          else if c =? 102 then literal (txt "false") (JBool false) (c :: r)
          else if c =? 110 then literal (txt "null") JNull (c :: r)
          else
            match parse_number (c :: r) with
            | Some (n, r') => Some (JNum n, r')
            | None => None
            end
      end
  end
with parse_elements (fuel : nat) (acc : list value) (s : text)
  : option (value * text) :=
  match fuel with
  | O => None
  | S fuel' =>
      match parse_value fuel' s with
      | Some (v, r) =>
          match skip_ws r with
          | 44 :: r' => parse_elements fuel' (acc ++ [v]) r'
          | 93 :: r' => Some (JArr (acc ++ [v]), r')
          | _ => None
          end
      | None => None
      end
  end
with parse_members (fuel : nat) (acc : list (text * value)) (s : text)
  : option (value * text) :=
  match fuel with
  | O => None
  | S fuel' =>
      match skip_ws s with
      | 34 :: r =>
          match parse_string r with
          | Some (k, r1) =>
              match skip_ws r1 with
              | 58 :: r2 =>
                  match parse_value fuel' r2 with
                  | Some (v, r3) =>
                      match skip_ws r3 with
                      | 44 :: r4 => parse_members fuel' (set_prop acc k v) r4
                      | 125 :: r4 => Some (JObj (set_prop acc k v), r4)
                      | _ => None
                      end
                  | None => None
                  end
              | _ => None
              end
          | None => None
          end
      | _ => None
      end
  end.

(** [JSON.parse(s)]: one value, white space around it, nothing else. *)
Definition JSON_parse (s : text) : option value :=
  match parse_value (2 * List.length s + 2) s with
  | Some (v, r) => match skip_ws r with [] => Some v | _ :: _ => None end
  | None => None
  end.

Definition emit := ApiClient.emit JSON_parse.
Definition stream_events := ApiClient.stream_events JSON_parse.
Definition verifyClaimStream := ApiClient.verifyClaimStream JSON_parse.
Definition collectStreamEvents :=
  Index.collectStreamEvents num_truthy num_zero num_add add_coerced.

(** The bytes of an ASCII literal, and a successful response with the given
    chunks. *)
Definition bytes (s : string) : list byte := list_byte_of_string s.

Definition ok_response (chunks : list (list byte)) : Response :=
  mkResponse 200 [] (Some chunks).

(** A double quote, and a name between double quotes, for JSON texts. *)
Definition Q : string := String (ascii_of_nat 34) EmptyString.

Definition quoted (s : string) : string := (Q ++ s ++ Q)%string.

End Ref.

(* ================================================================== *)
(** * JavaScript numbers with their order

    The tool handlers clamp numbers with [Math.max] and [Math.min] and cut
    arrays with them.  A number is NaN, an infinity or a rational (every
    finite double is one); the two zeros are not told apart, which no
    operation below does either. *)

Module JSNumber.

Inductive Num : Type :=
| NaN
| Inf (negative : bool)
| Real (q : QArith_base.Q).

Definition of_Z (z : Z) : Num := Real (QArith_base.inject_Z z).

(** [Boolean(n)]: false on zero and NaN. *)
Definition num_truthy (n : Num) : bool :=
  match n with
  | NaN => false
  | Inf _ => true
  | Real q => negb (QArith_base.Qnum q =? 0)
  end.

(** [a <= b] on numbers that are not NaN. *)
Definition leb (a b : Num) : bool :=
  match a, b with
  | NaN, _ | _, NaN => false
  | Inf true, _ => true
  | _, Inf false => true
  | Inf false, _ => false
  | _, Inf true => false
  | Real x, Real y => QArith_base.Qle_bool x y
  end.

(** [Math.max(a, b)] and [Math.min(a, b)]: NaN when an argument is NaN. *)
Definition max (a b : Num) : Num :=
  match a, b with
  | NaN, _ | _, NaN => NaN
  | _, _ => if leb a b then b else a
  end.

Definition min (a b : Num) : Num :=
  match a, b with
  | NaN, _ | _, NaN => NaN
  | _, _ => if leb a b then a else b
  end.

(** ToIntegerOrInfinity on a number that is finite: the integer part, towards
    zero. *)
Definition trunc (q : QArith_base.Q) : Z :=
  Z.quot (QArith_base.Qnum q) (Z.pos (QArith_base.Qden q)).

(** [array.slice(0, end)]: a negative [end] counts from the end of the
    array, NaN is 0. *)
Definition slice0 {A : Type} (l : list A) (end_ : Num) : list A :=
  match end_ with
  | NaN => []
  | Inf true => []
  | Inf false => l
  | Real q =>
      let n := trunc q in
      if n <? 0 then firstn (Z.to_nat (Z.of_nat (List.length l) + n)) l
      else firstn (Z.to_nat n) l
  end.

End JSNumber.

(* ================================================================== *)
(** * Percent-encoding *)

Module Uri.

Definition alphanumeric (c : Z) : bool :=
  ((48 <=? c) && (c <=? 57)) || ((65 <=? c) && (c <=? 90))
  || ((97 <=? c) && (c <=? 122)).

(** An upper-case hexadecimal digit. *)
Definition hex_digit (n : Z) : Z := if n <? 10 then 48 + n else 55 + n.

(** [%XX] for a byte. *)
Definition percent (b : byte) : text :=
  let n := Z.of_N (Byte.to_N b) in [37; hex_digit (n / 16); hex_digit (n mod 16)].

(** The characters [encodeURIComponent] leaves as they are: letters, digits
    and [- _ . ! ~ * ' ( )]. *)
Definition unreserved (c : Z) : bool :=
  alphanumeric c || (c =? 45) || (c =? 95) || (c =? 46) || (c =? 33)
  || (c =? 126) || (c =? 42) || (c =? 39) || (c =? 40) || (c =? 41).

(** [encodeURIComponent(s)]: [None] when it throws [URIError], on a
    surrogate that is not part of a pair. *)
Fixpoint encodeURIComponent (s : text) : option text :=
  match s with
  | [] => Some []
  | c :: s' =>
      if unreserved c then option_map (cons c) (encodeURIComponent s')
      else if Utf8.scalar c then
        option_map (app (flat_map percent (Utf8.encode c)))
                   (encodeURIComponent s')
      else None
  end.

(** The characters a result of [encodeURIComponent] is made of. *)
Definition escaped_char (c : Z) : bool := unreserved c || (c =? 37).

(** The bytes the [application/x-www-form-urlencoded] serializer leaves as
    they are: letters, digits and [* - . _]. *)
Definition form_safe (c : Z) : bool :=
  alphanumeric c || (c =? 42) || (c =? 45) || (c =? 46) || (c =? 95).

Definition form_byte (b : byte) : text :=
  let n := Z.of_N (Byte.to_N b) in
  if n =? 32 then [43] else if form_safe n then [n] else percent b.

(** A name or a value of [URLSearchParams] serialized: a surrogate that is
    not part of a pair was replaced by U+FFFD when the string came in. *)
Definition form_encode (s : text) : text :=
  flat_map (fun c =>
              flat_map form_byte
                       (Utf8.encode (if Utf8.scalar c then c
                                     else Utf8.REPLACEMENT)))
           s.

(** The characters that delimit a query string and its pairs: [&], [=],
    [?] and [#]. *)
Definition delimiter (c : Z) : bool :=
  (c =? 38) || (c =? 61) || (c =? 63) || (c =? 35).

(** The bytes behind a percent-encoded text: [%XX] is the byte XX, any
    other character is its own byte. *)
Definition hex_value (c : Z) : Z := if c <? 58 then c - 48 else c - 55.

Fixpoint unescape (e : text) : list byte :=
  match e with
  | [] => []
  | c :: e' =>
      match e' with
      | h :: l :: r =>
          if c =? 37 then Utf8.byte_of (hex_value h * 16 + hex_value l)
                          :: unescape r
          else Utf8.byte_of c :: unescape e'
      | _ => Utf8.byte_of c :: unescape e'
      end
  end.

(** [array.join(sep)] on strings. *)
Fixpoint join (sep : text) (parts : list text) : text :=
  match parts with
  | [] => []
  | [part] => part
  | part :: parts' => part ++ sep ++ join sep parts'
  end.

(** [params.toString()] for the list of appended pairs. *)
Definition URLSearchParams_toString (params : list (text * text)) : text :=
  join (txt "&")
       (map (fun p => form_encode (fst p) ++ txt "=" ++ form_encode (snd p))
            params).

End Uri.

(* ================================================================== *)
(** * src/src/api-client.ts: the client and its plain calls *)

Module Client.

(** ToString on the values of the model, as a template literal, [String(v)]
    and string parameters apply it; [Number::toString] is the platform's.
    On an object with an own [toString] property (in an array or not) the
    source throws TypeError, where this function gives [[object Object]]:
    what is stated of a text made from an argument is stated for arguments
    that are not objects, as the schemas of the tools have them. *)
Fixpoint to_text {number : Type} (num_text : number -> text)
         (v : JSValue number) : text :=
  match v with
  | JUndefined => txt "undefined"
  | JNull => txt "null"
  | JBool true => txt "true"
  | JBool false => txt "false"
  | JNum n => num_text n
  | JStr s => s
  | JArr items =>
      Uri.join (txt ",")
               (map (fun x => match x with
                              | JUndefined | JNull => []
                              | _ => to_text num_text x
                              end) items)
  | JObj _ => txt "[object Object]"
  end.

(** [v !== false] and [v === true]. *)
Definition not_false {number : Type} (v : JSValue number) : bool :=
  match v with JBool false => false | _ => true end.

Definition is_true {number : Type} (v : JSValue number) : bool :=
  match v with JBool true => true | _ => false end.

(** [a ?? b]. *)
Definition nullish {number : Type} (a b : JSValue number) : JSValue number :=
  match a with JUndefined | JNull => b | _ => a end.

(** The fields of the instance. *)
Record WebCiteApiClient : Type := mkClient {
  baseUrl : text;
  apiKey : text
}.

(** [s.replace(/\/$/, '')]: the pattern matches a slash that is the last
    character, and nothing else. *)
Definition replace_trailing_slash (s : text) : text :=
  if last s 0 =? 47 then removelast s else s.

(** What a call of the client throws once [fetch] has settled, if it
    throws: the error [fetch] rejected with, or the error made of the status
    and the text of a response that is not ok (lines 152-155 and 191-194). *)
Definition failure (reply : text + Response) : option text :=
  match reply with
  | inl error => Some error
  | inr response =>
      if negb (ok response) then
        Some (txt "WebCite API error (" ++ Text.of_N (status response)
              ++ txt "): " ++ text_ response)
      else None
  end.

(** [constructor(apiKey, baseUrl = 'https://api.webcite.co')]. *)
Definition constructor (apiKey : text) (baseUrl : option text)
  : WebCiteApiClient :=
  let baseUrl :=
    match baseUrl with
    | Some url => url
    | None => txt "https://api.webcite.co"
    end in
  mkClient (replace_trailing_slash baseUrl) apiKey.

(** What [fetch] is called with: the URL, the method, the headers, and the
    value given to [JSON.stringify] for the body, if there is a body. *)
Record Request (number : Type) : Type := mkRequest {
  url : text;
  method : text;
  headers : list (text * text);
  json_body : option (JSValue number)
}.
Arguments mkRequest {number} url method headers json_body.
Arguments url {number} r.
Arguments method {number} r.
Arguments headers {number} r.
Arguments json_body {number} r.

(** [interface VerifyClaimOptions]; a field left out is [undefined]. *)
Module VerifyClaimOptions.
Record t (number : Type) : Type := make {
  claim : JSValue number;
  thread_id : JSValue number;
  include_stance : JSValue number;
  include_verdict : JSValue number;
  decompose_claim : JSValue number;
  use_claim_decomposition : JSValue number
}.
Arguments make {number} claim thread_id include_stance include_verdict
          decompose_claim use_claim_decomposition.
Arguments claim {number} t.
Arguments thread_id {number} t.
Arguments include_stance {number} t.
Arguments include_verdict {number} t.
Arguments decompose_claim {number} t.
Arguments use_claim_decomposition {number} t.
End VerifyClaimOptions.

(** [interface SearchSourcesOptions]. *)
Module SearchSourcesOptions.
Record t (number : Type) : Type := make {
  query : JSValue number;
  limit : JSValue number
}.
Arguments make {number} query limit.
Arguments query {number} t.
Arguments limit {number} t.
End SearchSourcesOptions.

(** [interface ListCitationsOptions]. *)
Module ListCitationsOptions.
Record t (number : Type) : Type := make {
  page : JSValue number;
  limit : JSValue number;
  thread_id : JSValue number
}.
Arguments make {number} page limit thread_id.
Arguments page {number} t.
Arguments limit {number} t.
Arguments thread_id {number} t.
End ListCitationsOptions.

Section Calls.
Variable number : Type.
Variable num_truthy : number -> bool.
(** [Number::toString], the number [10], and the message of the [URIError]
    of [encodeURIComponent]. *)
Variable num_text : number -> text.
Variable ten : number.
Variable URIError_message : text.
(** [JSON.parse]; [fetch], which resolves to a response or rejects with an
    error ([inl], its message); [response.json()], likewise. *)
Variable JSON_parse : text -> option (JSValue number).
Variable fetch : Request number -> text + Response.
Variable response_json : Response -> text + JSValue number.

(** The object given to [JSON.stringify] in [verifyClaim] and in
    [verifyClaimStream] (lines 163-169 and 182-188). *)
Definition verify_body (options : VerifyClaimOptions.t number)
  : JSValue number :=
  JObj [ (txt "claim", VerifyClaimOptions.claim options);
         (txt "thread_id", VerifyClaimOptions.thread_id options);
         (txt "include_stance",
          JBool (not_false (VerifyClaimOptions.include_stance options)));
         (txt "include_verdict",
          JBool (not_false (VerifyClaimOptions.include_verdict options)));
         (txt "decompose_claim",
          nullish (VerifyClaimOptions.decompose_claim options)
                  (nullish (VerifyClaimOptions.use_claim_decomposition options)
                           (JBool false))) ].

(** [private async request<T>(endpoint, options)]: the value of
    [response.json()], or the error thrown. *)
Definition request (this : WebCiteApiClient) (endpoint : text)
           (method : text) (body : option (JSValue number))
  : text + JSValue number :=
  let url := baseUrl this ++ endpoint in
  match fetch (mkRequest url method
                 [ (txt "Content-Type", txt "application/json");
                   (txt "x-api-key", apiKey this) ]
                 body) with
  | inl error => inl error
  | inr response =>
      if negb (ok response) then
        let errorBody := text_ response in
        inl (txt "WebCite API error (" ++ Text.of_N (status response)
             ++ txt "): " ++ errorBody)
      else response_json response
  end.

Definition verifyClaim (this : WebCiteApiClient)
           (options : VerifyClaimOptions.t number) : text + JSValue number :=
  request this (txt "/api/v1/verify") (txt "POST") (Some (verify_body options)).

(** [async *verifyClaimStream(options)], the [fetch] included. *)
Definition verifyClaimStream (this : WebCiteApiClient)
           (options : VerifyClaimOptions.t number) : Outcome number :=
  let url := baseUrl this ++ txt "/api/v1/verify/stream" in
  match fetch (mkRequest url (txt "POST")
                 [ (txt "Content-Type", txt "application/json");
                   (txt "x-api-key", apiKey this);
                   (txt "Accept", txt "text/event-stream") ]
                 (Some (verify_body options))) with
  | inl error => mkOutcome [] (Some error)
  | inr response => ApiClient.verifyClaimStream JSON_parse response
  end.

Definition searchSources (this : WebCiteApiClient)
           (options : SearchSourcesOptions.t number) : text + JSValue number :=
  request this (txt "/api/v1/sources/search") (txt "POST")
          (Some (JObj [ (txt "query", SearchSourcesOptions.query options);
                        (txt "limit",
                         nullish (SearchSourcesOptions.limit options)
                                 (JNum ten)) ])).

(** The pairs appended to [params] in [listCitations] (lines 272-275). *)
Definition listCitations_params (options : ListCitationsOptions.t number)
  : list (text * text) :=
  (if truthy num_truthy (ListCitationsOptions.page options)
   then [(txt "page", to_text num_text (ListCitationsOptions.page options))]
   else [])
  ++ (if truthy num_truthy (ListCitationsOptions.limit options)
      then [(txt "limit", to_text num_text (ListCitationsOptions.limit options))]
      else [])
  ++ (if truthy num_truthy (ListCitationsOptions.thread_id options)
      then [(txt "thread_id",
             to_text num_text (ListCitationsOptions.thread_id options))]
      else []).

Definition listCitations_endpoint (options : ListCitationsOptions.t number)
  : text :=
  let qs := Uri.URLSearchParams_toString (listCitations_params options) in
  txt "/api/v1/citations" ++ (if nonempty qs then txt "?" ++ qs else []).

Definition listCitations (this : WebCiteApiClient)
           (options : ListCitationsOptions.t number) : text + JSValue number :=
  request this (listCitations_endpoint options) (txt "GET") None.

Definition getCitation (this : WebCiteApiClient) (citationId : JSValue number)
  : text + JSValue number :=
  match Uri.encodeURIComponent (to_text num_text citationId) with
  | None => inl URIError_message
  | Some encoded =>
      request this (txt "/api/v1/citations/" ++ encoded) (txt "GET") None
  end.

End Calls.

Arguments verify_body {number} options.
Arguments request {number} fetch response_json this endpoint method body.
Arguments verifyClaim {number} fetch response_json this options.
Arguments verifyClaimStream {number} JSON_parse fetch this options.
Arguments searchSources {number} ten fetch response_json this options.
Arguments listCitations_params {number} num_truthy num_text options.
Arguments listCitations_endpoint {number} num_truthy num_text options.
Arguments listCitations {number} num_truthy num_text fetch response_json
          this options.
Arguments getCitation {number} num_text URIError_message fetch response_json
          this citationId.

End Client.

(* ================================================================== *)
(** * src/src/index.ts: the formatters

    The formatters read their arguments at the types of the interfaces of
    api-client.ts; the records below have the fields they read.  An optional
    field ([?]) is an [option]; so is a field the code tests before use.
    Strings are measured here ([length], [substring]), so a [text] is read as
    its UTF-16 code units; the literals are ASCII or single code units. *)

Module Format.

(** A double quote, and [array.join('\n')]. *)
Definition quote : text := [34].

Definition lines (parts : list text) : text := Uri.join [LF] parts.

(** [array.forEach((x, i) => ...)] collecting what each turn pushes, from
    index [i]. *)
Fixpoint forEach {A B : Type} (f : A -> nat -> list B) (i : nat) (l : list A)
  : list B :=
  match l with
  | [] => []
  | x :: l' => f x i ++ forEach f (S i) l'
  end.

(** [`${i + 1}`] for an index. *)
Definition ordinal (i : nat) : text := Text.of_N (N.of_nat i + 1).

(** An optional string that is there and not empty. *)
Definition present (s : option text) : bool :=
  match s with Some s => nonempty s | None => false end.

Definition or_empty (s : option text) : text :=
  match s with Some s => s | None => [] end.

(** [s.toUpperCase()] on ASCII text. *)
Definition toUpperCase (s : text) : text :=
  map (fun c => if (97 <=? c) && (c <=? 122) then c - 32 else c) s.

Inductive Stance : Type :=
| supports | contradicts | partially_supports | neutral | irrelevant.

Definition stance_name (s : Stance) : text :=
  match s with
  | supports => txt "supports"
  | contradicts => txt "contradicts"
  | partially_supports => txt "partially_supports"
  | neutral => txt "neutral"
  | irrelevant => txt "irrelevant"
  end.

(** [stanceEmoji[citation.stance]]. *)
Definition stanceEmoji (s : Stance) : text :=
  match s with
  | supports => [10003]
  | partially_supports => txt "~"
  | contradicts => [10007]
  | neutral => [9675]
  | irrelevant => [8212]
  end.

Inductive VerdictResult : Type :=
| supported | partially_supported | contradicted | mixed | unverifiable.

Definition result_name (r : VerdictResult) : text :=
  match r with
  | supported => txt "supported"
  | partially_supported => txt "partially_supported"
  | contradicted => txt "contradicted"
  | mixed => txt "mixed"
  | unverifiable => txt "unverifiable"
  end.

(** [resultEmoji[verdict.result]]. *)
Definition resultEmoji (r : VerdictResult) : text :=
  match r with
  | supported => [10003]
  | partially_supported => txt "~"
  | contradicted => [10007]
  | mixed => [9889]
  | unverifiable => txt "?"
  end.

Module Citation.
Record t (number : Type) : Type := make {
  title : text;
  url : text;
  snippet : text;
  stance : option Stance;
  stance_confidence : option number;
  credibility_score : option number;
  stance_explanation : option text
}.
Arguments make {number} title url snippet stance stance_confidence
          credibility_score stance_explanation.
Arguments title {number} t.
Arguments url {number} t.
Arguments snippet {number} t.
Arguments stance {number} t.
Arguments stance_confidence {number} t.
Arguments credibility_score {number} t.
Arguments stance_explanation {number} t.
End Citation.

Module StanceBreakdown.
Record t (number : Type) : Type := make {
  supports : number;
  partially_supports : number;
  contradicts : number;
  neutral : number
}.
Arguments make {number} supports partially_supports contradicts neutral.
Arguments supports {number} t.
Arguments partially_supports {number} t.
Arguments contradicts {number} t.
Arguments neutral {number} t.
End StanceBreakdown.

Module KeyFinding.
Record t (number : Type) : Type := make {
  finding : text;
  confidence : number
}.
Arguments make {number} finding confidence.
Arguments finding {number} t.
Arguments confidence {number} t.
End KeyFinding.

Module Correction.
Record t : Type := make {
  claimed : text;
  actual : text
}.
End Correction.

Module Verdict.
Record t (number : Type) : Type := make {
  result : VerdictResult;
  confidence : number;
  summary : text;
  stance_breakdown : option (StanceBreakdown.t number);
  key_findings : option (list (KeyFinding.t number));
  corrections : option (list Correction.t);
  unverified_claims : option (list text)
}.
Arguments make {number} result confidence summary stance_breakdown
          key_findings corrections unverified_claims.
Arguments result {number} t.
Arguments confidence {number} t.
Arguments summary {number} t.
Arguments stance_breakdown {number} t.
Arguments key_findings {number} t.
Arguments corrections {number} t.
Arguments unverified_claims {number} t.
End Verdict.

Module ClaimGroup.
Record t (number : Type) : Type := make {
  claim_index : number;
  claim : text;
  stance_summary : text;
  citation_count : number;
  citations : option (list (Citation.t number));
  verdict : option (Verdict.t number)
}.
Arguments make {number} claim_index claim stance_summary citation_count
          citations verdict.
Arguments claim_index {number} t.
Arguments claim {number} t.
Arguments stance_summary {number} t.
Arguments citation_count {number} t.
Arguments citations {number} t.
Arguments verdict {number} t.
End ClaimGroup.

Module CreditUsage.
Record t (number : Type) : Type := make {
  credits_used : number;
  credits_remaining : number
}.
Arguments make {number} credits_used credits_remaining.
Arguments credits_used {number} t.
Arguments credits_remaining {number} t.
End CreditUsage.

Module VerifyClaimResponse.
Record t (number : Type) : Type := make {
  claim_groups : option (list (ClaimGroup.t number));
  citations : option (list (Citation.t number));
  verdict : option (Verdict.t number);
  credit_usage : option (CreditUsage.t number)
}.
Arguments make {number} claim_groups citations verdict credit_usage.
Arguments claim_groups {number} t.
Arguments citations {number} t.
Arguments verdict {number} t.
Arguments credit_usage {number} t.
End VerifyClaimResponse.

Section Formatters.
Variable number : Type.
Variable num_truthy : number -> bool.
Variable num_text : number -> text.

(** An optional number that is there and truthy. *)
Definition some_truthy (n : option number) : bool :=
  match n with Some n => num_truthy n | None => false end.

Definition text_of (n : option number) : text :=
  match n with Some n => num_text n | None => txt "undefined" end.

(** The snippet as shown (lines 220-221). *)
Definition truncatedSnippet (snippet : text) : text :=
  if (200 <? List.length snippet)%nat
  then firstn 200 snippet ++ txt "..."
  else snippet.

(** [formatCitation(citation, index)]: the parts pushed, then joined. *)
Definition formatCitation_parts (citation : Citation.t number) (index : nat)
  : list text :=
  [ ordinal index ++ txt ". **"
    ++ (if nonempty (Citation.title citation) then Citation.title citation
        else txt "Untitled")
    ++ txt "**";
    txt "   URL: " ++ Citation.url citation ]
  ++ match Citation.stance citation with
     | Some stance =>
         [ txt "   Stance: " ++ stanceEmoji stance ++ txt " "
           ++ stance_name stance
           ++ (if some_truthy (Citation.stance_confidence citation)
               then txt " (" ++ text_of (Citation.stance_confidence citation)
                    ++ txt "% confidence)"
               else []) ]
     | None => []
     end
  ++ (if some_truthy (Citation.credibility_score citation)
      then [ txt "   Credibility: "
             ++ text_of (Citation.credibility_score citation) ++ txt "/100" ]
      else [])
  ++ (if nonempty (Citation.snippet citation)
      then [ txt "   Snippet: " ++ quote
             ++ truncatedSnippet (Citation.snippet citation) ++ quote ]
      else [])
  ++ (if present (Citation.stance_explanation citation)
      then [ txt "   Analysis: "
             ++ or_empty (Citation.stance_explanation citation) ]
      else []).

Definition formatCitation (citation : Citation.t number) (index : nat) : text :=
  lines (formatCitation_parts citation index).

(** A list that is there and not empty. *)
Definition filled {A : Type} (l : option (list A)) : list A :=
  match l with Some l => l | None => [] end.

Definition formatVerdict_parts (verdict : Verdict.t number) : list text :=
  [ txt "## Verdict: " ++ resultEmoji (Verdict.result verdict) ++ txt " "
    ++ toUpperCase (result_name (Verdict.result verdict));
    txt "**Confidence:** " ++ num_text (Verdict.confidence verdict) ++ txt "%";
    txt "**Summary:** " ++ Verdict.summary verdict ]
  ++ match Verdict.stance_breakdown verdict with
     | Some sb =>
         [ LF :: txt "**Source Breakdown:**";
           txt "- Supporting: " ++ num_text (StanceBreakdown.supports sb);
           txt "- Partially supporting: "
           ++ num_text (StanceBreakdown.partially_supports sb);
           txt "- Contradicting: " ++ num_text (StanceBreakdown.contradicts sb);
           txt "- Neutral: " ++ num_text (StanceBreakdown.neutral sb) ]
     | None => []
     end
  ++ match filled (Verdict.key_findings verdict) with
     | [] => []
     | findings =>
         (LF :: txt "**Key Findings:**")
         :: forEach (fun finding i =>
                       [ ordinal i ++ txt ". " ++ KeyFinding.finding finding
                         ++ txt " ("
                         ++ num_text (KeyFinding.confidence finding)
                         ++ txt "% confidence)" ])
                    0 findings
     end
  ++ match filled (Verdict.corrections verdict) with
     | [] => []
     | corrections =>
         (LF :: txt "**Corrections:**")
         :: forEach (fun correction i =>
                       [ ordinal i ++ txt ". Claimed: " ++ quote
                         ++ Correction.claimed correction ++ quote
                         ++ txt " " ++ [8594] ++ txt " Actual: " ++ quote
                         ++ Correction.actual correction ++ quote ])
                    0 corrections
     end
  ++ match filled (Verdict.unverified_claims verdict) with
     | [] => []
     | claims =>
         (LF :: txt "**Unverified Parts:**")
         :: forEach (fun claim i => [ordinal i ++ txt ". " ++ claim]) 0 claims
     end.

Definition formatVerdict (verdict : Verdict.t number) : text :=
  lines (formatVerdict_parts verdict).

Definition formatClaimGroup_parts (group : ClaimGroup.t number) : list text :=
  [ txt "### Claim " ++ num_text (ClaimGroup.claim_index group) ++ txt ": "
    ++ quote ++ ClaimGroup.claim group ++ quote;
    txt "Status: " ++ ClaimGroup.stance_summary group ++ txt " | Sources: "
    ++ num_text (ClaimGroup.citation_count group) ]
  ++ match filled (ClaimGroup.citations group) with
     | [] => []
     | citations =>
         (LF :: txt "**Sources:**")
         :: forEach (fun citation i => [formatCitation citation i]) 0
                    (firstn 5 citations)
         ++ (if (5 <? List.length citations)%nat
             then [ LF :: txt "... and "
                    ++ Text.of_N (N.of_nat (List.length citations - 5))
                    ++ txt " more sources" ]
             else [])
     end
  ++ match ClaimGroup.verdict group with
     | Some verdict => [LF :: formatVerdict verdict]
     | None => []
     end.

Definition formatClaimGroup (group : ClaimGroup.t number) : text :=
  lines (formatClaimGroup_parts group).

(** The verdict and the sources of one group or of the legacy format. *)
Definition sources_parts (citations : list (Citation.t number)) : list text :=
  (txt "## Sources" ++ [LF])
  :: forEach (fun citation i => [formatCitation citation i; []]) 0 citations.

Definition formatVerifyResult_parts (claim : text)
           (result : VerifyClaimResponse.t number) : list text :=
  [ txt "# Fact Check: " ++ quote ++ claim ++ quote ++ [LF] ]
  ++ match filled (VerifyClaimResponse.claim_groups result) with
     | [group] =>
         match ClaimGroup.verdict group with
         | Some verdict => [formatVerdict verdict; []]
         | None => []
         end
         ++ match filled (ClaimGroup.citations group) with
            | [] => []
            | citations => sources_parts citations
            end
     | _ :: _ :: _ as groups =>
         (txt "Found " ++ Text.of_N (N.of_nat (List.length groups))
          ++ txt " sub-claims:" ++ [LF])
         :: forEach (fun group _ =>
                       [ formatClaimGroup group;
                         [LF] ++ txt "---" ++ [LF] ])
                    0 groups
     | [] =>
         match filled (VerifyClaimResponse.citations result) with
         | [] => [txt "No sources found for this claim."]
         | citations =>
             match VerifyClaimResponse.verdict result with
             | Some verdict => [formatVerdict verdict; []]
             | None => []
             end
             ++ sources_parts citations
         end
     end
  ++ match VerifyClaimResponse.credit_usage result with
     | Some usage =>
         [ [LF] ++ txt "---" ++ [LF] ++ txt "Credits used: "
           ++ num_text (CreditUsage.credits_used usage)
           ++ txt " | Remaining: "
           ++ num_text (CreditUsage.credits_remaining usage) ]
     | None => []
     end.

Definition formatVerifyResult (claim : text)
           (result : VerifyClaimResponse.t number) : text :=
  lines (formatVerifyResult_parts claim result).

End Formatters.

Arguments formatCitation_parts {number} num_truthy num_text citation index.
Arguments formatCitation {number} num_truthy num_text citation index.
Arguments formatVerdict_parts {number} num_text verdict.
Arguments formatVerdict {number} num_text verdict.
Arguments formatClaimGroup_parts {number} num_truthy num_text group.
Arguments formatClaimGroup {number} num_truthy num_text group.
Arguments sources_parts {number} num_truthy num_text citations.
Arguments formatVerifyResult_parts {number} num_truthy num_text claim result.
Arguments formatVerifyResult {number} num_truthy num_text claim result.

End Format.

(* ================================================================== *)
(** * src/src/index.ts: the tool handler

    The handler of [CallToolRequestSchema] (lines 466-686) for the tools that
    go through [fetch]; [upload_file] reads the file system and is left to a
    parameter.  Numbers are [JSNumber.Num].  What the platform and the
    network do are parameters; so are the readings of a JSON value at the
    type the source casts it to. *)

Module Server.

Definition value : Type := JSValue JSNumber.Num.

(** The object a handler returns: the text of its one content item, and
    [isError] ([false] when the field is left out). *)
Record ToolResult : Type := mkToolResult {
  content_text : text;
  isError : bool
}.

(** [interface ListCitationsResponse], as far as it is read. *)
Module CitationRecord.
Record t : Type := make {
  id : text;
  prompt : text;
  created_at : option text
}.
End CitationRecord.

Module Pagination.
Record t : Type := make {
  total : JSNumber.Num;
  page : JSNumber.Num;
  totalPages : JSNumber.Num
}.
End Pagination.

Module ListCitationsResponse.
Record t : Type := make {
  data : list CitationRecord.t;
  pagination : Pagination.t
}.
End ListCitationsResponse.

(** The result of [getCitation]: the prompt, and the citation as a string or
    as an array. *)
Module CitationDetails.
Record t : Type := make {
  prompt : text;
  citation : text + list (Format.Citation.t JSNumber.Num)
}.
End CitationDetails.

Section Handler.
(** [Number::toString], the coercion to a number of a value that is not a
    number, [null], [undefined] or a boolean, [+] on numbers and on other
    operands, [JSON.parse], [JSON.stringify], the message of [URIError],
    [new Date(s).toLocaleString()]. *)
Variable num_text : JSNumber.Num -> text.
Variable coerce_number : value -> JSNumber.Num.
Variable num_add : JSNumber.Num -> JSNumber.Num -> JSNumber.Num.
Variable add_coerced : value -> value -> value.
Variable JSON_parse : text -> option value.
Variable JSON_stringify : value -> text.
Variable URIError_message : text.
Variable toLocaleString : text -> text.
(** The network. *)
Variable fetch : Client.Request JSNumber.Num -> text + Response.
Variable response_json : Response -> text + value.
(** The casts: a value read as [VerifyClaimResponse], as
    [ListCitationsResponse], as the result of [getCitation], as
    [Citation[]]. *)
Variable as_VerifyClaimResponse
  : value -> Format.VerifyClaimResponse.t JSNumber.Num.
Variable as_ListCitationsResponse : value -> ListCitationsResponse.t.
Variable as_CitationDetails : value -> CitationDetails.t.
Variable as_Citations : value -> list (Format.Citation.t JSNumber.Num).
(** The [upload_file] case. *)
Variable upload_file : value -> text + ToolResult.
(** [const client = new WebCiteApiClient(API_KEY, BASE_URL)]. *)
Variable client : Client.WebCiteApiClient.

Definition truthy (v : value) : bool := JS.truthy JSNumber.num_truthy v.

Definition to_text (v : value) : text := Client.to_text num_text v.

(** ToNumber.  On a string the parameter is StringToNumber; on an array or
    an object the source first makes the value primitive and can throw
    TypeError there, an outcome the parameter does not have: what is stated
    of a clamped number is stated for arguments that are not objects. *)
Definition ToNumber (v : value) : JSNumber.Num :=
  match v with
  | JNum n => n
  | JUndefined => JSNumber.NaN
  | JNull => JSNumber.of_Z 0
  | JBool b => JSNumber.of_Z (if b then 1 else 0)
  | _ => coerce_number v
  end.

(** [Math.max(a, b)] and [Math.min(a, b)] on values. *)
Definition Math_max (a b : value) : value :=
  JNum (JSNumber.max (ToNumber a) (ToNumber b)).

Definition Math_min (a b : value) : value :=
  JNum (JSNumber.min (ToNumber a) (ToNumber b)).

(** [a || b]. *)
Definition or_else (a b : value) : value := if truthy a then a else b.

Definition number (z : Z) : value := JNum (JSNumber.of_Z z).

Definition error_result (message : text) : ToolResult :=
  mkToolResult message true.

Definition text_result (t : text) : ToolResult := mkToolResult t false.

(** The options both verify tools build (lines 473-493 and 501-519). *)
Definition verify_options (args : value)
  : Client.VerifyClaimOptions.t JSNumber.Num :=
  let claim := get args (txt "claim") in
  let threadId := get args (txt "thread_id") in
  let includeStance := Client.not_false (get args (txt "include_stance")) in
  let includeVerdict := Client.not_false (get args (txt "include_verdict")) in
  let decomposeClaim := Client.is_true (get args (txt "decompose_claim")) in
  Client.VerifyClaimOptions.make
    claim threadId (JBool includeStance) (JBool includeVerdict)
    JUndefined (JBool decomposeClaim).

(** [formatVerifyResult(claim, result)] through the cast of the source.  On
    a payload that has not the shape of [VerifyClaimResponse] (a [null] claim
    group, say) the source formatter can throw TypeError, which the reading
    at the type of the interface does not show: the statements below that
    involve a formatted result compare two runs of the handler on the same
    payload, which throw alike. *)
Definition formatVerifyResult (claim : value) (result : value) : text :=
  Format.formatVerifyResult JSNumber.num_truthy num_text (to_text claim)
                            (as_VerifyClaimResponse result).

(** [case 'verify_claim'] (lines 472-496). *)
Definition verify_claim (args : value) : text + ToolResult :=
  let claim := get args (txt "claim") in
  if negb (truthy claim) then
    inr (error_result (txt "Error: claim is required"))
  else
    match Client.verifyClaim fetch response_json client (verify_options args)
    with
    | inl error => inl error
    | inr result => inr (text_result (formatVerifyResult claim result))
    end.

(** The fallback text of the streaming tool (lines 530-541). *)
Definition raw_events (claim : value)
           (events : list (SSEEvent JSNumber.Num)) : text :=
  let eventSummary :=
    Format.lines
      (map (fun e =>
              txt "[" ++ event e ++ txt "] "
              ++ match data e with
                 | JStr s => s
                 | d => JSON_stringify d
                 end)
           events) in
  txt "# Streaming Verification: " ++ Format.quote ++ to_text claim
  ++ Format.quote ++ [LF; LF] ++ txt "Received "
  ++ Text.of_N (N.of_nat (List.length events))
  ++ txt " events but could not assemble a structured result."
  ++ [LF; LF] ++ txt "## Raw Events:" ++ [LF] ++ eventSummary.

(** [case 'verify_claim_stream'] (lines 499-542); an error thrown by the
    generator comes out of [for await] in [collectStreamEvents]. *)
Definition verify_claim_stream (args : value) : text + ToolResult :=
  let claim := get args (txt "claim") in
  if negb (truthy claim) then
    inr (error_result (txt "Error: claim is required"))
  else
    let stream :=
      Client.verifyClaimStream JSON_parse fetch client (verify_options args) in
    match thrown stream with
    | Some error => inl error
    | None =>
        let collected :=
          collectStreamEvents JSNumber.num_truthy (JSNumber.of_Z 0) num_add
                              add_coerced (yielded stream) in
        match result collected with
        | Some r =>
            if truthy r
            then inr (text_result (formatVerifyResult claim r))
            else inr (text_result (raw_events claim (events collected)))
        | None => inr (text_result (raw_events claim (events collected)))
        end
    end.

(** [Math.min(Math.max((args?.limit as number) || 10, 1), 20)]. *)
Definition search_limit (args : value) : value :=
  Math_min (Math_max (or_else (get args (txt "limit")) (number 10))
                     (number 1))
           (number 20).

(** [result.claim_groups?.[0]?.citations || result.citations || []]. *)
Definition search_citations (result : Format.VerifyClaimResponse.t JSNumber.Num)
  : list (Format.Citation.t JSNumber.Num) :=
  let legacy :=
    match Format.VerifyClaimResponse.citations result with
    | Some citations => citations
    | None => []
    end in
  match Format.VerifyClaimResponse.claim_groups result with
  | Some (group :: _) =>
      match Format.ClaimGroup.citations group with
      | Some citations => citations
      | None => legacy
      end
  | _ => legacy
  end.

(** [case 'search_sources'] (lines 545-576). *)
Definition search_sources (args : value) : text + ToolResult :=
  let query := get args (txt "query") in
  let limit := search_limit args in
  if negb (truthy query) then
    inr (error_result (txt "Error: query is required"))
  else
    match Client.searchSources (JSNumber.of_Z 10) fetch response_json client
            (Client.SearchSourcesOptions.make query limit) with
    | inl error => inl error
    | inr result =>
        let citations := search_citations (as_VerifyClaimResponse result) in
        let parts :=
          [ txt "# Search Results: " ++ Format.quote ++ to_text query
            ++ Format.quote ++ [LF] ]
          ++ match citations with
             | [] => [txt "No sources found for this query."]
             | _ :: _ =>
                 (txt "Found " ++ Text.of_N (N.of_nat (List.length citations))
                  ++ txt " sources:" ++ [LF])
                 :: Format.forEach
                      (fun citation i =>
                         [ Format.formatCitation JSNumber.num_truthy num_text
                                                 citation i; [] ])
                      0 (JSNumber.slice0 citations (ToNumber limit))
             end in
        inr (text_result (Format.lines parts))
    end.

(** The options of [case 'list_citations'] (lines 579-583). *)
Definition list_options (args : value)
  : Client.ListCitationsOptions.t JSNumber.Num :=
  let page := Math_max (or_else (get args (txt "page")) (number 1)) (number 1) in
  let limit :=
    Math_min (Math_max (or_else (get args (txt "limit")) (number 10))
                       (number 1))
             (number 50) in
  let threadId := get args (txt "thread_id") in
  Client.ListCitationsOptions.make page limit threadId.

(** [case 'list_citations'] (lines 578-609). *)
Definition list_citations (args : value) : text + ToolResult :=
  match Client.listCitations JSNumber.num_truthy num_text fetch response_json
          client (list_options args) with
  | inl error => inl error
  | inr result =>
      let result := as_ListCitationsResponse result in
      let pagination := ListCitationsResponse.pagination result in
      let parts :=
        [ txt "# Your Verification History" ++ [LF];
          txt "Page " ++ num_text (Pagination.page pagination) ++ txt " of "
          ++ num_text (Pagination.totalPages pagination) ++ txt " ("
          ++ num_text (Pagination.total pagination) ++ txt " total)" ++ [LF] ]
        ++ match ListCitationsResponse.data result with
           | [] => [txt "No verification history found."]
           | records =>
               Format.forEach
                 (fun record i =>
                    [ Format.ordinal i ++ txt ". **"
                      ++ CitationRecord.prompt record ++ txt "**";
                      txt "   ID: " ++ CitationRecord.id record ]
                    ++ (if Format.present (CitationRecord.created_at record)
                        then [ txt "   Date: "
                               ++ toLocaleString
                                    (Format.or_empty
                                       (CitationRecord.created_at record)) ]
                        else [])
                    ++ [ [] ])
                 0 records
           end in
      inr (text_result (Format.lines parts))
  end.

(** [case 'get_citation'] (lines 612-652). *)
Definition get_citation (args : value) : text + ToolResult :=
  let citationId := get args (txt "citation_id") in
  if negb (truthy citationId) then
    inr (error_result (txt "Error: citation_id is required"))
  else
    match Client.getCitation num_text URIError_message fetch response_json
            client citationId with
    | inl error => inl error
    | inr result =>
        let result := as_CitationDetails result in
        let citations :=
          match CitationDetails.citation result with
          | inl s =>
              match JSON_parse s with
              | Some parsed => as_Citations parsed
              | None => []
              end
          | inr citations => citations
          end in
        let parts :=
          [ txt "# Verification Details" ++ [LF];
            txt "**Prompt:** " ++ CitationDetails.prompt result ++ [LF] ]
          ++ match citations with
             | [] => []
             | _ :: _ =>
                 Format.sources_parts JSNumber.num_truthy num_text citations
             end in
        inr (text_result (Format.lines parts))
    end.

(** The [switch] on the name of the tool. *)
Definition dispatch (name : text) (args : value) : text + ToolResult :=
  if Text.eqb name (txt "verify_claim") then verify_claim args
  else if Text.eqb name (txt "verify_claim_stream") then
    verify_claim_stream args
  else if Text.eqb name (txt "search_sources") then search_sources args
  else if Text.eqb name (txt "list_citations") then list_citations args
  else if Text.eqb name (txt "get_citation") then get_citation args
  else if Text.eqb name (txt "upload_file") then upload_file args
  else inr (error_result (txt "Unknown tool: " ++ name)).

(** The handler: the [switch] inside [try], errors caught into a result. *)
Definition CallTool (name : text) (args : value) : ToolResult :=
  match dispatch name args with
  | inl message => error_result (txt "Error: " ++ message)
  | inr toolResult => toolResult
  end.

End Handler.

(** What the [catch] of the handler makes of the outcome of a [case]. *)
Definition caught (outcome : text + ToolResult) : ToolResult :=
  match outcome with
  | inl message => mkToolResult (txt "Error: " ++ message) true
  | inr toolResult => toolResult
  end.

(** The names of [TOOLS] (lines 41-218). *)
Definition tool_names : list text :=
  [ txt "verify_claim"; txt "verify_claim_stream"; txt "search_sources";
    txt "list_citations"; txt "get_citation"; txt "upload_file" ].

(** What the input schemas of the tools (lines 41-218) allow for [limit] and
    [page], neither of them required: a number, or nothing. *)
Definition number_or_absent (v : value) : bool :=
  match v with
  | JUndefined | JNum _ => true
  | _ => false
  end.

(** What they allow for [thread_id]: a string, or nothing. *)
Definition string_or_absent (v : value) : bool :=
  match v with
  | JUndefined | JStr _ => true
  | _ => false
  end.

(** A value that is not an array or an object: ToString and ToNumber do not
    throw on it. *)
Definition primitive (v : value) : bool :=
  match v with
  | JArr _ | JObj _ => false
  | _ => true
  end.

(** What the handler stands on, the network and the client apart, in one
    record. *)
Module Platform.
Record t : Type := make {
  num_text : JSNumber.Num -> text;
  coerce_number : value -> JSNumber.Num;
  num_add : JSNumber.Num -> JSNumber.Num -> JSNumber.Num;
  add_coerced : value -> value -> value;
  JSON_parse : text -> option value;
  JSON_stringify : value -> text;
  URIError_message : text;
  toLocaleString : text -> text;
  response_json : Response -> text + value;
  as_VerifyClaimResponse : value -> Format.VerifyClaimResponse.t JSNumber.Num;
  as_ListCitationsResponse : value -> ListCitationsResponse.t;
  as_CitationDetails : value -> CitationDetails.t;
  as_Citations : value -> list (Format.Citation.t JSNumber.Num);
  upload_file : value -> text + ToolResult
}.
End Platform.

(** The handler on a platform, with [fetch] and the client it was started
    with. *)
Definition handle (P : Platform.t)
           (fetch : Client.Request JSNumber.Num -> text + Response)
           (client : Client.WebCiteApiClient) (name : text) (args : value)
  : ToolResult :=
  CallTool (Platform.num_text P) (Platform.coerce_number P)
           (Platform.num_add P) (Platform.add_coerced P)
           (Platform.JSON_parse P) (Platform.JSON_stringify P)
           (Platform.URIError_message P) (Platform.toLocaleString P)
           fetch (Platform.response_json P)
           (Platform.as_VerifyClaimResponse P)
           (Platform.as_ListCitationsResponse P)
           (Platform.as_CitationDetails P) (Platform.as_Citations P)
           (Platform.upload_file P) client name args.

(** The texts both verify tools can return for a claim: the formatted
    result, and the fallback of the streaming tool. *)
Definition formatted (P : Platform.t) (claim result : value) : text :=
  formatVerifyResult (Platform.num_text P) (Platform.as_VerifyClaimResponse P)
                     claim result.


End Server.

(* ================================================================== *)
(** * Reading lists *)

Module Lists.

(** The last element that passes a test, if any. *)
Definition last_where {A : Type} (p : A -> bool) (l : list A) : option A :=
  last (map Some (filter p l)) None.

End Lists.
Import Lists.

(* ================================================================== *)
(** * Sample inputs *)

Module Samples.

(** A carriage return, for bodies with CR LF line endings. *)
Definition CR : string := String (ascii_of_nat 13) EmptyString.

(** The line feed as a string. *)
Definition NL : string := String (ascii_of_nat 10) EmptyString.

(** A platform for the tool handler, to run it on concrete inputs: numbers
    print as their integer part (the samples use integers), a value that is
    not a number coerces to NaN (the samples coerce no string), [JSON.parse]
    is the reader of [Ref], a constant stands for [JSON.stringify] (the
    samples list string payloads only), and the casts give the same record
    whatever the value. *)
Definition num_text (n : JSNumber.Num) : text :=
  match n with
  | JSNumber.NaN => txt "NaN"
  | JSNumber.Inf false => txt "Infinity"
  | JSNumber.Inf true => txt "-Infinity"
  | JSNumber.Real q =>
      let z := JSNumber.trunc q in
      (if z <? 0 then txt "-" else []) ++ Text.of_N (Z.to_N (Z.abs z))
  end.

Definition to_num (n : Ref.num) : JSNumber.Num :=
  match n with
  | Ref.NaN => JSNumber.NaN
  | Ref.Fin m e =>
      if 0 <=? e then JSNumber.of_Z (m * 10 ^ e)
      else JSNumber.Real (QArith_base.Qmake m (Z.to_pos (10 ^ (- e))))
  end.

Fixpoint convert (v : Ref.value) : Server.value :=
  match v with
  | JUndefined => JUndefined
  | JNull => JNull
  | JBool b => JBool b
  | JNum n => JNum (to_num n)
  | JStr s => JStr s
  | JArr items => JArr (map convert items)
  | JObj props => JObj (map (fun p => (fst p, convert (snd p))) props)
  end.

Definition JSON_parse (s : text) : option Server.value :=
  option_map convert (Ref.JSON_parse s).

Definition no_result : Format.VerifyClaimResponse.t JSNumber.Num :=
  Format.VerifyClaimResponse.make None None None None.

(** The platform on which [response.json()] resolves to [json]. *)
Definition replying (json : Server.value) : Server.Platform.t :=
  Server.Platform.make
    num_text
    (fun _ => JSNumber.NaN)
    (fun _ _ => JSNumber.NaN)
    (fun _ _ => JNum JSNumber.NaN)
    JSON_parse
    (fun _ => txt "{}")
    (txt "URI malformed")
    (fun s => s)
    (fun _ => inr json)
    (fun _ => no_result)
    (fun _ =>
       Server.ListCitationsResponse.make
         [] (Server.Pagination.make (JSNumber.of_Z 0) (JSNumber.of_Z 1)
                                    (JSNumber.of_Z 0)))
    (fun _ => Server.CitationDetails.make [] (inr []))
    (fun _ => [])
    (fun _ => inl (txt "ENOENT")).

Definition platform : Server.Platform.t := replying JNull.

(** The client of the samples, a network that answers every request with
    the same response, and one that is down. *)
Definition client : Client.WebCiteApiClient :=
  Client.constructor (txt "key") None.

Definition answers (response : Response)
  : Client.Request JSNumber.Num -> text + Response :=
  fun _ => inr response.

Definition down : Client.Request JSNumber.Num -> text + Response :=
  fun _ => inl (txt "fetch failed").

(** Arguments with one field. *)
Definition arg (key : string) (v : Server.value) : Server.value :=
  JObj [(txt key, v)].

End Samples.

(* ================================================================== *)
(** * Facts about strings *)

Module TextFacts.

Lemma eqb_refl (a : text) : Text.eqb a a = true.
Proof.
  induction a as [|x a IH]; simpl; [reflexivity|].
  now rewrite Z.eqb_refl.
Qed.

Lemma eqb_eq (a b : text) : Text.eqb a b = true <-> a = b.
Proof.
  split.
  - revert b; induction a as [|x a IH]; intros [|y b]; simpl;
      try discriminate; [reflexivity|].
    intros H; apply andb_prop in H as [Hx Hab].
    apply Z.eqb_eq in Hx; subst y. now rewrite (IH b Hab).
  - intros ->; apply eqb_refl.
Qed.

Lemma eqb_nil (a : text) : Text.eqb a [] = negb (nonempty a).
Proof. now destruct a. Qed.

Lemma startsWith_app (p s : text) : startsWith (p ++ s) p = true.
Proof.
  induction p as [|c p IH]; simpl; [reflexivity|].
  now rewrite Z.eqb_refl.
Qed.

Lemma slice_app (p s : text) : slice (p ++ s) (List.length p) = s.
Proof. unfold slice. induction p; simpl; auto. Qed.

Lemma startsWith_nil (p : text) : startsWith [] p = negb (nonempty p).
Proof. now destruct p. Qed.

(** [split] never returns the empty array. *)
Lemma split_cons (s : text) : exists l ls, split s = l :: ls.
Proof.
  induction s as [|c s (l & ls & IH)]; simpl; [now eexists _, _|].
  destruct (c =? LF); [now eexists _, _|].
  rewrite IH. now eexists _, _.
Qed.

(** A text with no line feed is a single line. *)
Lemma split_one_line (s : text) :
  no_LF s = true -> split s = [s].
Proof.
  induction s as [|c s IH]; simpl; [reflexivity|].
  intros H; apply andb_prop in H as [Hc Hs].
  apply negb_true_iff in Hc; rewrite Hc, (IH Hs). reflexivity.
Qed.

(** The last element of [split] holds no line feed. *)
Lemma last_split_no_LF (s : text) :
  no_LF (last (split s) []) = true.
Proof.
  induction s as [|c s IH]; simpl; [reflexivity|].
  destruct (split_cons s) as (l & ls & E).
  destruct (c =? LF) eqn:Hc.
  - rewrite E in *. exact IH.
  - rewrite E in *. destruct ls as [|l' ls]; simpl in *.
    + now rewrite Hc.
    + exact IH.
Qed.

(** Splitting a concatenation: the complete lines of the first part, then
    the split of its unfinished line followed by the second part. *)
Lemma split_app (a b : text) :
  split (a ++ b) = removelast (split a) ++ split (last (split a) [] ++ b).
Proof.
  induction a as [|c a IH]; [reflexivity|].
  cbn [app split]. destruct (split_cons a) as (l & ls & E).
  destruct (c =? LF) eqn:Hc.
  - rewrite IH, E. cbn [removelast last]. reflexivity.
  - rewrite IH, E. destruct ls as [|l' ls].
    + cbn [removelast last app split]. rewrite Hc. reflexivity.
    + cbn [removelast last app]. reflexivity.
Qed.

End TextFacts.
Import TextFacts.

(* ================================================================== *)
(** * The line loop *)

Module LoopFacts.

Section Loop.
Variable Yield : Type.
Variable yield : text -> text -> Yield.

Lemma for_lines_app (st : text * text) (l1 l2 : list text) :
  for_lines yield st (l1 ++ l2) =
  let (st1, out1) := for_lines yield st l1 in
  let (st2, out2) := for_lines yield st1 l2 in
  (st2, out1 ++ out2).
Proof.
  revert st; induction l1 as [|line l1 IH]; intros st; cbn [app for_lines].
  - now destruct (for_lines yield st l2).
  - destruct (line_step yield st line) as [st1 out1].
    rewrite IH. destruct (for_lines yield st1 l1) as [st2 out2].
    destruct (for_lines yield st2 l2) as [st3 out3].
    now rewrite app_assoc.
Qed.

(** An [event: ] line sets the event kind and yields nothing. *)
Lemma line_step_event (currentEvent currentData E : text) :
  line_step yield (currentEvent, currentData) (txt "event: " ++ E)
  = ((trim E, currentData), []).
Proof.
  unfold line_step. rewrite startsWith_app.
  change 7%nat with (List.length (txt "event: ")).
  now rewrite slice_app.
Qed.

(** A [data: ] line sets the payload and yields nothing. *)
Lemma line_step_data (currentEvent currentData P : text) :
  line_step yield (currentEvent, currentData) (txt "data: " ++ P)
  = ((currentEvent, P), []).
Proof. reflexivity. Qed.

(** An empty line finalizes the frame when a payload is there. *)
Lemma line_step_blank (currentEvent currentData : text) :
  line_step yield (currentEvent, currentData) []
  = if nonempty currentData
    then ((txt "message", []), [yield currentEvent currentData])
    else ((currentEvent, currentData), []).
Proof. unfold line_step; simpl. now destruct (nonempty currentData). Qed.

(** Any other line changes nothing. *)
Lemma line_step_other (st : text * text) (line : text) :
  nonempty line = true ->
  startsWith line (txt "event: ") = false ->
  startsWith line (txt "data: ") = false ->
  line_step yield st line = (st, []).
Proof.
  intros Hne He Hd. unfold line_step. destruct st as [e d].
  rewrite He, Hd, eqb_nil, Hne. reflexivity.
Qed.

(** Lines that act alike on every state can replace each other anywhere
    in a pass. *)
Lemma for_lines_congr (l1 l2 : list text) :
  (forall st, for_lines yield st l1 = for_lines yield st l2) ->
  forall st pre post,
    for_lines yield st (pre ++ l1 ++ post)
    = for_lines yield st (pre ++ l2 ++ post).
Proof.
  intros H st pre post.
  rewrite (for_lines_app st pre (l1 ++ post)),
          (for_lines_app st pre (l2 ++ post)).
  destruct (for_lines yield st pre) as [st1 out1].
  rewrite (for_lines_app st1 l1 post), (for_lines_app st1 l2 post), H.
  reflexivity.
Qed.
End Loop.

(** What is yielded is the image of the frames: the loop never looks at
    it. *)
Section Natural.
Variable Yield : Type.
Variable yield : text -> text -> Yield.

Lemma line_step_frames (st : text * text) (line : text) :
  line_step yield st line =
  (fst (line_step pair st line), map (of_frame yield) (snd (line_step pair st line))).
Proof.
  unfold line_step. destruct st as [e d].
  destruct (startsWith line (txt "event: ")); [reflexivity|].
  destruct (startsWith line (txt "data: ")); [reflexivity|].
  destruct (Text.eqb line [] && nonempty d); reflexivity.
Qed.

Lemma for_lines_frames (st : text * text) (lines : list text) :
  for_lines yield st lines =
  (fst (for_lines pair st lines),
   map (of_frame yield) (snd (for_lines pair st lines))).
Proof.
  revert st; induction lines as [|line lines IH]; intros st;
    cbn [for_lines]; [reflexivity|].
  rewrite (line_step_frames st line).
  destruct (line_step pair st line) as [st1 out1]; cbn [fst snd].
  rewrite (IH st1).
  destruct (for_lines pair st1 lines) as [st2 out2]; cbn [fst snd].
  now rewrite map_app.
Qed.

Lemma read_pass_frames (d : Utf8.decoder) (buffer : text) (value : list byte) :
  read_pass yield d buffer value =
  (fst (read_pass pair d buffer value),
   map (of_frame yield) (snd (read_pass pair d buffer value))).
Proof.
  unfold read_pass. destruct (Utf8.decode_stream d value) as [d' s].
  cbn [fst snd]. rewrite for_lines_frames. reflexivity.
Qed.

Lemma read_loop_frames (d : Utf8.decoder) (buffer : text)
      (chunks : list (list byte)) :
  read_loop yield d buffer chunks =
  (fst (read_loop pair d buffer chunks),
   map (of_frame yield) (snd (read_loop pair d buffer chunks))).
Proof.
  revert d buffer; induction chunks as [|value chunks IH]; intros d buffer;
    cbn [read_loop]; [reflexivity|].
  rewrite (read_pass_frames d buffer value).
  destruct (read_pass pair d buffer value) as [[d1 b1] out1]; cbn [fst snd].
  rewrite (IH d1 b1).
  destruct (read_loop pair d1 b1 chunks) as [final out2]; cbn [fst snd].
  now rewrite map_app.
Qed.

Lemma remaining_frames (buffer : text) :
  remaining yield buffer = map (of_frame yield) (remaining pair buffer).
Proof.
  unfold remaining. destruct (nonempty (trim buffer)); [|reflexivity].
  destruct (fold_left rest_step (split buffer) (txt "message", []))
    as [e d].
  destruct (nonempty d); reflexivity.
Qed.

Lemma stream_frames_map (chunks : list (list byte)) :
  stream yield chunks = map (of_frame yield) (stream_frames chunks).
Proof.
  unfold stream_frames, stream. rewrite read_loop_frames.
  destruct (read_loop pair Utf8.fresh [] chunks) as [[d b] out];
    cbn [fst snd].
  now rewrite map_app, remaining_frames.
Qed.
End Natural.

Lemma line_step_payload (st : text * text) (line : text) :
  Forall with_payload (snd (line_step pair st line)).
Proof.
  unfold line_step. destruct st as [e d].
  destruct (startsWith line (txt "event: ")); [constructor|].
  destruct (startsWith line (txt "data: ")); [constructor|].
  destruct (nonempty d) eqn:Hd; rewrite ?andb_false_r, ?andb_true_r.
  - destruct (Text.eqb line []); repeat constructor. exact Hd.
  - constructor.
Qed.

Lemma for_lines_payload (st : text * text) (lines : list text) :
  Forall with_payload (snd (for_lines pair st lines)).
Proof.
  revert st; induction lines as [|line lines IH]; intros st;
    cbn [for_lines]; [constructor|].
  pose proof (line_step_payload st line) as H1.
  destruct (line_step pair st line) as [st1 out1].
  specialize (IH st1). destruct (for_lines pair st1 lines) as [st2 out2].
  cbn [snd] in *. apply Forall_app; split; assumption.
Qed.

Lemma read_loop_payload (d : Utf8.decoder) (buffer : text)
      (chunks : list (list byte)) :
  Forall with_payload (snd (read_loop pair d buffer chunks)).
Proof.
  revert d buffer; induction chunks as [|value chunks IH]; intros d buffer;
    cbn [read_loop]; [constructor|].
  assert (H1 : Forall with_payload (snd (read_pass pair d buffer value))).
  { unfold read_pass. destruct (Utf8.decode_stream d value) as [d' s].
    apply for_lines_payload. }
  destruct (read_pass pair d buffer value) as [[d1 b1] out1].
  specialize (IH d1 b1).
  destruct (read_loop pair d1 b1 chunks) as [final out2].
  cbn [snd] in *. apply Forall_app; split; assumption.
Qed.

Lemma remaining_payload (buffer : text) :
  Forall with_payload (remaining pair buffer).
Proof.
  unfold remaining. destruct (nonempty (trim buffer)); [|constructor].
  destruct (fold_left rest_step (split buffer) (txt "message", []))
    as [e d].
  destruct (nonempty d) eqn:Hd; repeat constructor. exact Hd.
Qed.

End LoopFacts.
Import LoopFacts.

(* ================================================================== *)
(** * Properties of the frame parser *)

(** C10: a complete line that is not empty and starts neither with [event: ]
    (seven characters, the trailing space included: the source slices at 7)
    nor with [data: ] (six characters) is ignored by the read loop: it yields
    nothing and leaves the event kind and the payload in progress as they
    were, so a pass over lines with it is a pass over the lines without it. *)
Theorem unrecognized_line_is_ignored :
  forall (Yield : Type) (yield : text -> text -> Yield) (line : text),
    nonempty line = true ->
    startsWith line (txt "event: ") = false ->
    startsWith line (txt "data: ") = false ->
    (forall st, line_step yield st line = (st, [])) /\
    (forall st pre post,
        for_lines yield st (pre ++ line :: post)
        = for_lines yield st (pre ++ post)).
Proof.
  intros Yield yield line Hne He Hd. split.
  - intros st. now apply line_step_other.
  - intros st pre post.
    apply (for_lines_congr Yield yield [line] [] ) with (post := post).
    intros st'. cbn [for_lines]. rewrite line_step_other by assumption.
    reflexivity.
Qed.

(** A comment line, an [id:] field, a [retry:] field and [data:x] without
    the space are ignored between the two lines of a frame. *)
Lemma unrecognized_line_is_ignored_witness :
  line_step pair (txt "update", txt "{}") (txt "data:x")
  = ((txt "update", txt "{}"), [])
  /\ for_lines pair (txt "message", [])
       [txt "event: update"; txt ": keep-alive"; txt "id: 7"; txt "retry: 10";
        txt "data:x"; txt "data: {}"; []]
     = ((txt "message", []), [(txt "update", txt "{}")]).
Proof.
  split.
  - exact (proj1 (unrecognized_line_is_ignored _ pair (txt "data:x")
                    eq_refl eq_refl eq_refl) (txt "update", txt "{}")).
  - reflexivity.
Defined.

(** X20: within one pass of the line loop (the lines of one read), a
    [data: ] line followed by an [event: ] line and the empty line yields the
    frame that the canonical order yields, whatever comes before and after
    and whatever was in progress: the frame carries the event kind seen last
    (trimmed) and the payload seen last.  Of two [data: ] lines before the
    empty line, the second one gives the payload.  Across reads this is lost
    ([out_of_order_frame_across_reads] below). *)
Theorem out_of_order_lines_same_frame :
  forall (Yield : Type) (yield : text -> text -> Yield) (E P : text),
    let event_line := txt "event: " ++ E in
    let data_line := txt "data: " ++ P in
    (forall st pre post,
        for_lines yield st (pre ++ [data_line; event_line; []] ++ post)
        = for_lines yield st (pre ++ [event_line; data_line; []] ++ post))
    /\ (nonempty P = true ->
        forall st,
          for_lines yield st [data_line; event_line; []]
          = ((txt "message", []), [yield (trim E) P])
          /\ for_lines yield st [event_line; data_line; []]
             = ((txt "message", []), [yield (trim E) P]))
    /\ (nonempty P = true ->
        forall currentEvent currentData P0,
          for_lines yield (currentEvent, currentData)
                    [txt "data: " ++ P0; data_line; []]
          = ((txt "message", []), [yield currentEvent P])).
Proof.
  intros Yield yield E P event_line data_line.
  assert (Hboth : forall st,
             for_lines yield st [data_line; event_line]
             = ((trim E, P), [])
             /\ for_lines yield st [event_line; data_line]
                = ((trim E, P), [])).
  { intros [e d]. subst event_line data_line. cbn [for_lines].
    rewrite !line_step_data, !line_step_event, !line_step_data.
    split; reflexivity. }
  split; [|split].
  - intros st pre post. apply for_lines_congr. intros st'.
    change [data_line; event_line; []] with ([data_line; event_line] ++ [[]]).
    change [event_line; data_line; []] with ([event_line; data_line] ++ [[]]).
    rewrite !for_lines_app.
    destruct (Hboth st') as [-> ->]. reflexivity.
  - intros HP st.
    change [data_line; event_line; []] with ([data_line; event_line] ++ [[]]).
    change [event_line; data_line; []] with ([event_line; data_line] ++ [[]]).
    rewrite !for_lines_app.
    destruct (Hboth st) as [-> ->]. cbn [for_lines].
    rewrite line_step_blank, HP. split; reflexivity.
  - intros HP e d P0. subst data_line. cbn [for_lines].
    rewrite !line_step_data, line_step_blank, HP. reflexivity.
Qed.

Lemma out_of_order_lines_same_frame_witness :
  for_lines pair (txt "message", [])
            [txt "data: {}"; txt "event:  claim_group "; []]
  = ((txt "message", []), [(txt "claim_group", txt "{}")])
  /\ for_lines pair (txt "message", [])
               [txt "data: 1"; txt "data: {}"; []]
     = ((txt "message", []), [(txt "message", txt "{}")]).
Proof.
  pose proof (out_of_order_lines_same_frame _ pair
                (txt " claim_group ") (txt "{}")) as H.
  cbv zeta in H. destruct H as (_ & Hframe & Htwice). split.
  - exact (proj1 (Hframe eq_refl (txt "message", []))).
  - exact (Htwice eq_refl (txt "message") [] (txt "1")).
Defined.

(** C9: a frame with the empty payload is never yielded.  Everything the
    generator yields is the image of a frame whose payload is not empty; a
    [data: ] line with nothing after the prefix leaves the empty payload in
    progress, the empty line that follows changes nothing (a keep-alive), and
    the remaining buffer [data: ] at the end of the stream yields nothing. *)
Theorem empty_payload_never_yielded :
  (forall chunks, Forall with_payload (stream_frames chunks))
  /\ (forall (number : Type) (JSON_parse : text -> option (JSValue number))
             chunks,
         stream_events JSON_parse chunks
         = map (of_frame (emit JSON_parse)) (stream_frames chunks))
  /\ (forall (Yield : Type) (yield : text -> text -> Yield)
             currentEvent currentData,
         for_lines yield (currentEvent, currentData) [txt "data: "; []]
         = ((currentEvent, []), []))
  /\ (forall (Yield : Type) (yield : text -> text -> Yield),
         remaining yield (txt "data: ") = []).
Proof.
  split; [|split; [|split]].
  - intros chunks. unfold stream_frames, stream.
    pose proof (read_loop_payload Utf8.fresh [] chunks) as H.
    destruct (read_loop pair Utf8.fresh [] chunks) as [[d b] out].
    apply Forall_app; split; [exact H|apply remaining_payload].
  - intros number JSON_parse chunks. apply stream_frames_map.
  - reflexivity.
  - reflexivity.
Qed.

(* ================================================================== *)
(** * Properties of the generator *)

(** C6: a frame whose payload [JSON.parse] rejects is yielded as an event
    whose data is the payload string itself; no error comes out of it.  The
    events of a body are the frames in order, each through [emit]; the
    generator run on a successful response with a body throws nothing. *)
Theorem malformed_payload_is_kept_as_string :
  forall (number : Type) (JSON_parse : text -> option (JSValue number)),
    (forall currentEvent currentData,
        JSON_parse currentData = None ->
        emit JSON_parse currentEvent currentData
        = mkSSEEvent currentEvent (JStr currentData))
    /\ (forall response chunks,
           ok response = true ->
           body response = Some chunks ->
           verifyClaimStream JSON_parse response
           = mkOutcome
               (map (of_frame (emit JSON_parse)) (stream_frames chunks))
               None).
Proof.
  intros number JSON_parse. split.
  - intros e d H. unfold emit. now rewrite H.
  - intros response chunks Hok Hbody. unfold verifyClaimStream.
    rewrite Hok, Hbody. cbn [negb]. unfold stream_events.
    now rewrite stream_frames_map.
Qed.

(** The payload of the specification's example, alone and in a stream with a
    frame after it. *)
Lemma malformed_payload_is_kept_as_string_witness :
  Ref.emit (txt "message") (txt "{invalid json")
  = mkSSEEvent (txt "message") (JStr (txt "{invalid json"))
  /\ Ref.verifyClaimStream
       (Ref.ok_response
          [Ref.bytes "data: {invalid json

event: done
data: 1

"])
     = mkOutcome
         [ mkSSEEvent (txt "message") (JStr (txt "{invalid json"));
           mkSSEEvent (txt "done") (JNum (Ref.Fin 1 0)) ]
         None.
Proof.
  split.
  - exact (proj1 (malformed_payload_is_kept_as_string Ref.num Ref.JSON_parse)
                 (txt "message") (txt "{invalid json") eq_refl).
  - vm_compute. reflexivity.
Defined.

(** C4: on a response whose status is not in 200-299 the generator throws
    one error before it reads anything of the body: the message holds the
    status code and the text of the response, nothing is yielded, and the
    body plays no part.  On a response in 200-299 with no body it throws the
    error of line 197 and yields nothing. *)
Theorem failed_response_throws_before_streaming :
  forall (number : Type) (JSON_parse : text -> option (JSValue number))
         (response : Response),
    ((status response < 200)%N \/ (299 < status response)%N ->
     yielded (verifyClaimStream JSON_parse response) = []
     /\ (exists message,
            thrown (verifyClaimStream JSON_parse response) = Some message
            /\ includes message (Text.of_N (status response))
            /\ includes message (text_ response))
     /\ (forall body',
            verifyClaimStream JSON_parse
              (mkResponse (status response) (text_ response) body')
            = verifyClaimStream JSON_parse response))
    /\ ((200 <= status response <= 299)%N ->
        body response = None ->
        verifyClaimStream JSON_parse response
        = mkOutcome []
            (Some (txt "No response body received from streaming endpoint"))).
Proof.
  intros number JSON_parse response. split.
  - intros Hstatus.
    assert (Hok : forall b,
               ok (mkResponse (status response) (text_ response) b) = false).
    { intros b. unfold ok; cbn [status].
      apply andb_false_iff.
      destruct Hstatus as [H|H]; [left|right]; apply N.leb_gt; exact H. }
    assert (Hr : ok response = false).
    { destruct response as [s t b]. apply Hok. }
    unfold verifyClaimStream. rewrite Hr. cbn [negb yielded thrown].
    split; [reflexivity|]. split.
    + eexists. split; [reflexivity|]. split.
      * exists (txt "WebCite API error ("), (txt "): " ++ text_ response).
        reflexivity.
      * exists (txt "WebCite API error (" ++ Text.of_N (status response)
                ++ txt "): "), [].
        rewrite app_nil_r, <- !app_assoc. reflexivity.
    + intros b. rewrite Hok. reflexivity.
  - intros [Hlo Hhi] Hbody.
    unfold verifyClaimStream, ok.
    apply N.leb_le in Hlo, Hhi. rewrite Hlo, Hhi, Hbody. reflexivity.
Qed.

(** The scenario of the specification: status 429, body [rate limited]. *)
Lemma failed_response_throws_before_streaming_witness :
  Ref.verifyClaimStream
    (mkResponse 429 (txt "rate limited") (Some [Ref.bytes "data: 1

"]))
  = mkOutcome [] (Some (txt "WebCite API error (429): rate limited"))
  /\ Ref.verifyClaimStream (mkResponse 204 [] None)
     = mkOutcome []
         (Some (txt "No response body received from streaming endpoint")).
Proof.
  pose proof (failed_response_throws_before_streaming Ref.num Ref.JSON_parse
                (mkResponse 429 (txt "rate limited") None)) as [H429 _].
  pose proof (failed_response_throws_before_streaming Ref.num Ref.JSON_parse
                (mkResponse 204 [] None)) as [_ H204].
  split.
  - destruct (H429 (or_intror eq_refl)) as (_ & _ & Hbody).
    cbn [status text_] in Hbody.
    unfold Ref.verifyClaimStream. rewrite Hbody. reflexivity.
  - apply H204; [split; discriminate|reflexivity].
Defined.

(* ================================================================== *)
(** * The aggregator *)

Module CollectFacts.

Lemma last_cons {A : Type} (x : A) (l : list A) (d : A) :
  last (x :: l) d = last l x.
Proof.
  revert x d; induction l as [|y l IH]; intros x d; [reflexivity|].
  change (last (x :: y :: l) d) with (last (y :: l) d).
  rewrite (IH y d), (IH y x). reflexivity.
Qed.

Lemma last_app_default {A : Type} (l1 l2 : list A) (d : A) :
  last (l1 ++ l2) d = last l2 (last l1 d).
Proof.
  revert d; induction l1 as [|x l1 IH]; intros d; [reflexivity|].
  cbn [app]. rewrite !last_cons. apply IH.
Qed.

(** The last element that passes a test, when one does. *)
Lemma last_such {A : Type} (p : A -> bool) (l : list A) :
  (exists x, In x l /\ p x = true) ->
  exists pre x post,
    l = pre ++ x :: post /\ p x = true
    /\ (forall y, In y post -> p y = false).
Proof.
  induction l as [|a l IH]; intros (x & Hin & Hx); [destruct Hin|].
  destruct (existsb p l) eqn:Hex.
  - apply existsb_exists in Hex. destruct (IH Hex) as (pre & z & post & -> & Hz & Hpost).
    exists (a :: pre), z, post. repeat split; assumption.
  - exists [], a, l. split; [reflexivity|].
    assert (Hall : forall y, In y l -> p y = false).
    { intros y Hy. destruct (p y) eqn:Hp; [|reflexivity].
      rewrite <- Hex. symmetry. apply existsb_exists. now exists y. }
    split; [|exact Hall].
    destruct Hin as [->|Hin]; [exact Hx|].
    rewrite (Hall x Hin) in Hx. discriminate.
Qed.

Section Collect.
Variable number : Type.
Variable num_truthy : number -> bool.
Variable num_zero : number.
Variable num_add : number -> number -> number.
Variable add_coerced : JSValue number -> JSValue number -> JSValue number.

Lemma final_step_terminal (r : option (JSValue number)) (e : SSEEvent number) :
  terminal num_truthy e = true -> final_step num_truthy r e = Some (data e).
Proof.
  unfold Index.terminal, Index.final_step. intros H.
  apply andb_prop in H as [-> ->]. reflexivity.
Qed.

Lemma final_step_other (r : option (JSValue number)) (e : SSEEvent number) :
  terminal num_truthy e = false -> final_step num_truthy r e = r.
Proof.
  unfold Index.terminal, Index.final_step. intros H.
  destruct (final_kind e); [|reflexivity].
  cbn [andb] in H. now rewrite H.
Qed.

Lemma final_fold_others (evs : list (SSEEvent number))
      (r : option (JSValue number)) :
  (forall e, In e evs -> terminal num_truthy e = false) ->
  fold_left (final_step num_truthy) evs r = r.
Proof.
  revert r; induction evs as [|e evs IH]; intros r H; [reflexivity|].
  cbn [fold_left]. rewrite final_step_other by (apply H; now left).
  apply IH. intros e' He'. apply H. now right.
Qed.

(** A qualifying payload is never falsy, so [!finalResult] fails on it. *)
Lemma terminal_result (e : SSEEvent number) :
  terminal num_truthy e = true ->
  not_result num_truthy (Some (data e)) = false.
Proof.
  unfold Index.terminal, Index.object_data, Index.not_result. intros H.
  apply andb_prop in H as [_ H]. apply andb_prop in H as [-> _].
  reflexivity.
Qed.


End Collect.

End CollectFacts.
Import CollectFacts.

(** C2: when some event has one of the kinds [complete], [result], [done]
    and an object payload, the result is the payload of the last such event,
    and the events are returned as they came.  Nothing else counts: the
    events before it and after it (claim groups, credit usage, snapshots)
    can be replaced by any others, as long as none after it qualifies. *)
Theorem terminal_event_is_the_result :
  forall (number : Type) (num_truthy : number -> bool) (num_zero : number)
         (num_add : number -> number -> number)
         (add_coerced : JSValue number -> JSValue number -> JSValue number),
    (forall evs : list (SSEEvent number),
        (exists e, In e evs /\ terminal num_truthy e = true) ->
        exists pre e post,
          evs = pre ++ e :: post
          /\ terminal num_truthy e = true
          /\ (forall e', In e' post -> terminal num_truthy e' = false))
    /\ (forall (pre : list (SSEEvent number)) e post,
           terminal num_truthy e = true ->
           (forall e', In e' post -> terminal num_truthy e' = false) ->
           collectStreamEvents num_truthy num_zero num_add add_coerced
             (pre ++ e :: post)
           = mkCollected (Some (data e)) (pre ++ e :: post)).
Proof.
  intros number num_truthy num_zero num_add add_coerced. split.
  - intros evs Hex. exact (last_such (terminal num_truthy) evs Hex).
  - intros pre e post He Hpost. unfold collectStreamEvents.
    rewrite fold_left_app. cbn [fold_left].
    rewrite final_step_terminal by exact He.
    rewrite final_fold_others by exact Hpost.
    rewrite terminal_result by exact He. reflexivity.
Qed.

(** The scenario of the specification: a claim group, then [complete] with a
    structured payload, then a [complete] with a string and credit usage. *)
Lemma terminal_event_is_the_result_witness :
  let group := JObj [(txt "citation_count", JNum (Ref.Fin 2 0))] in
  let final :=
    JObj [ (txt "claim_groups", JArr []);
           (txt "totalResults", JNum (Ref.Fin 0 0));
           (txt "thread_id", JStr (txt "t1")) ] in
  result
    (Ref.collectStreamEvents
       [ mkSSEEvent (txt "claim_group") group;
         mkSSEEvent (txt "complete") final;
         mkSSEEvent (txt "complete") (JStr (txt "bye"));
         mkSSEEvent (txt "credit_usage") group ])
  = Some final.
Proof.
  intros group final.
  pose proof (proj2 (terminal_event_is_the_result
                       Ref.num Ref.num_truthy Ref.num_zero Ref.num_add
                       Ref.add_coerced)
                [mkSSEEvent (txt "claim_group") group]
                (mkSSEEvent (txt "complete") final)
                [ mkSSEEvent (txt "complete") (JStr (txt "bye"));
                  mkSSEEvent (txt "credit_usage") group ]
                eq_refl) as H.
  unfold Ref.collectStreamEvents. cbn [app] in H. rewrite H; [reflexivity|].
  intros e' [<-|[<-|[]]]; reflexivity.
Defined.




(* ================================================================== *)
(** * The decoder across reads *)

Module DecoderFacts.
Import Utf8.

Lemma with_bom_same (d : decoder) : with_bom d (BOM_seen d) = d.
Proof. now destruct d. Qed.

Lemma with_bom_twice (d : decoder) (f g : bool) :
  with_bom (with_bom d f) g = with_bom d g.
Proof. reflexivity. Qed.

(** The handler passes the BOM flag along and never reads it. *)
Lemma lead_with_bom (f g : bool) (b : Z) :
  lead g b = (with_bom (fst (lead f b)) g, snd (lead f b)).
Proof.
  unfold lead.
  repeat match goal with
         | |- context [if ?c then _ else _] => destruct c
         end; reflexivity.
Qed.

Lemma handler_with_bom (d : decoder) (g : bool) (b : Z) :
  handler (with_bom d g) b
  = (with_bom (fst (handler d b)) g, snd (handler d b)).
Proof.
  unfold handler. cbn [with_bom bytes_needed lower_boundary upper_boundary
                                code_point bytes_seen BOM_seen].
  destruct (bytes_needed d =? 0).
  - apply lead_with_bom.
  - destruct (negb (in_range (lower_boundary d) (upper_boundary d) b)).
    + rewrite (lead_with_bom (BOM_seen d) g b).
      destruct (lead (BOM_seen d) b) as [d' out]. reflexivity.
    + destruct (bytes_seen d + 1 =? bytes_needed d); reflexivity.
Qed.

Lemma run_with_bom (d : decoder) (g : bool) (bytes : list byte) :
  run (with_bom d g) bytes = (with_bom (fst (run d bytes)) g, snd (run d bytes)).
Proof.
  revert d; induction bytes as [|b bytes IH]; intros d; [reflexivity|].
  cbn [run]. rewrite handler_with_bom.
  destruct (handler d (Z.of_N (to_N b))) as [d1 o1]. cbn [fst snd].
  rewrite IH. destruct (run d1 bytes) as [d2 o2]. reflexivity.
Qed.

Lemma run_BOM_seen (d : decoder) (bytes : list byte) :
  BOM_seen (fst (run d bytes)) = BOM_seen d.
Proof.
  rewrite <- (with_bom_same d) at 1. rewrite run_with_bom. reflexivity.
Qed.

Lemma run_app (d : decoder) (a b : list byte) :
  run d (a ++ b) =
  (fst (run (fst (run d a)) b), snd (run d a) ++ snd (run (fst (run d a)) b)).
Proof.
  revert d; induction a as [|x a IH]; intros d; cbn [app run].
  - cbn [fst snd app]. now destruct (run d b).
  - destruct (handler d (Z.of_N (to_N x))) as [d1 o1]. rewrite IH.
    destruct (run d1 a) as [d2 o2]. cbn [fst snd].
    destruct (run d2 b) as [d3 o3]. cbn [fst snd]. now rewrite app_assoc.
Qed.

Lemma serialize_seen (out : list Z) : serialize true out = (true, out).
Proof. now destruct out. Qed.

Lemma serialize_app (bom : bool) (o1 o2 : list Z) :
  serialize bom (o1 ++ o2) =
  (fst (serialize (fst (serialize bom o1)) o2),
   snd (serialize bom o1) ++ snd (serialize (fst (serialize bom o1)) o2)).
Proof.
  destruct o1 as [|c o1]; cbn [app].
  - cbn [serialize fst snd]. now destruct (serialize bom o2).
  - cbn [serialize]. destruct bom; [|destruct (c =? BOM)]; cbn [fst snd];
      rewrite serialize_seen; reflexivity.
Qed.

Lemma decode_stream_eq (d : decoder) (value : list byte) :
  decode_stream d value =
  (with_bom (fst (run d value)) (fst (serialize (BOM_seen d) (snd (run d value)))),
   snd (serialize (BOM_seen d) (snd (run d value)))).
Proof.
  unfold decode_stream. rewrite <- (run_BOM_seen d value).
  destruct (run d value) as [d' out]. cbn [fst snd].
  now destruct (serialize (BOM_seen d') out).
Qed.

(** Two reads decode to what one read of the same bytes decodes to, wherever
    the bytes are cut. *)
Lemma decode_stream_app (d : decoder) (a b : list byte) :
  decode_stream d (a ++ b) =
  (fst (decode_stream (fst (decode_stream d a)) b),
   snd (decode_stream d a) ++ snd (decode_stream (fst (decode_stream d a)) b)).
Proof.
  rewrite (decode_stream_eq d (a ++ b)), (decode_stream_eq d a).
  cbn [fst snd]. rewrite decode_stream_eq. cbn [fst snd BOM_seen with_bom].
  rewrite run_app, run_with_bom. cbn [fst snd].
  rewrite serialize_app, with_bom_twice. reflexivity.
Qed.

Lemma decode_stream_nil (d : decoder) : decode_stream d [] = (d, []).
Proof.
  unfold decode_stream. cbn [run serialize]. now rewrite with_bom_same.
Qed.

Lemma decoded_concat (d : decoder) (chunks : list (list byte)) :
  decoded d chunks = decode_stream d (List.concat chunks).
Proof.
  revert d; induction chunks as [|value chunks IH]; intros d;
    cbn [decoded List.concat].
  - now rewrite decode_stream_nil.
  - rewrite decode_stream_app.
    destruct (decode_stream d value) as [d1 s1]. cbn [fst snd].
    rewrite IH. now destruct (decode_stream d1 (List.concat chunks)).
Qed.

(** ** Encoding and decoding one scalar value *)

Lemma byte_of_to_N (z : Z) : 0 <= z < 256 -> Z.of_N (to_N (byte_of z)) = z.
Proof.
  intros Hz. unfold byte_of.
  destruct (Byte.of_N (Z.to_N z)) as [b|] eqn:E.
  - apply Byte.to_of_N in E. rewrite E. lia.
  - apply Byte.of_N_None_iff in E. lia.
Qed.

Lemma lor_high_low (h k x : Z) :
  0 <= k -> 0 <= x < 2 ^ k -> Z.lor (h * 2 ^ k) x = h * 2 ^ k + x.
Proof.
  intros Hk Hx.
  assert (Hland : Z.land (h * 2 ^ k) x = 0).
  { rewrite <- (Z.mod_small x (2 ^ k)) by lia.
    rewrite <- (Z.land_ones x k) by lia.
    rewrite (Z.land_comm x), Z.land_assoc, Z.land_ones by lia.
    rewrite Z.mod_mul by lia. apply Z.land_0_l. }
  pose proof (Z.add_lor_land (h * 2 ^ k) x) as H. lia.
Qed.

Lemma land_mask (b k : Z) : 0 <= k -> Z.land b (2 ^ k - 1) = b mod 2 ^ k.
Proof.
  intros Hk. rewrite <- Z.land_ones by exact Hk.
  now rewrite Z.ones_equiv, Z.sub_1_r.
Qed.

Lemma cont_value (z : Z) : 0 <= z -> Z.of_N (to_N (cont z)) = 128 + z mod 64.
Proof.
  intros Hz. unfold cont.
  change 63 with (2 ^ 6 - 1). rewrite land_mask by lia.
  change 128 with (2 * 2 ^ 6) at 1.
  rewrite lor_high_low by (try lia; apply Z.mod_pos_bound; lia).
  rewrite byte_of_to_N; [reflexivity|].
  pose proof (Z.mod_pos_bound z (2 ^ 6)). lia.
Qed.

Lemma handler_continue (d : decoder) (y : Z) :
  bytes_needed d <> 0 -> 0 <= code_point d -> 0 <= y < 64 ->
  lower_boundary d <= 128 + y <= upper_boundary d ->
  handler d (128 + y) =
  if bytes_seen d + 1 =? bytes_needed d
  then (idle (BOM_seen d), [code_point d * 64 + y])
  else (mkDecoder (code_point d * 64 + y) (bytes_seen d + 1) (bytes_needed d)
                  128 191 (BOM_seen d), []).
Proof.
  intros Hn Hcp Hy Hb. unfold handler, in_range.
  destruct (Z.eqb_spec (bytes_needed d) 0) as [E|_]; [contradiction|].
  destruct (Z.leb_spec (lower_boundary d) (128 + y)); [|lia].
  destruct (Z.leb_spec (128 + y) (upper_boundary d)); [|lia].
  cbn [andb negb].
  change 63 with (2 ^ 6 - 1). rewrite land_mask by lia.
  rewrite Z.shiftl_mul_pow2 by lia.
  rewrite lor_high_low by (try lia; apply Z.mod_pos_bound; lia).
  replace ((128 + y) mod 2 ^ 6) with y; [reflexivity|].
  change (2 ^ 6) with 64. 
  rewrite <- (Z.mod_small y 64) at 1 by lia.
  symmetry. change 128 with (2 * 64). rewrite Z.add_comm, Z.mod_add by lia. reflexivity. 
Qed.

Lemma lead_value_2 (c : Z) :
  128 <= c < 2048 ->
  Z.of_N (to_N (byte_of (Z.lor 192 (Z.shiftr c 6)))) = 192 + c / 64.
Proof.
  intros Hc. rewrite Z.shiftr_div_pow2 by lia. change (2 ^ 6) with 64.
  assert (0 <= c / 64 < 32) by (split; [apply Z.div_pos|apply Z.div_lt_upper_bound]; lia).
  change 192 with (6 * 2 ^ 5) at 1. rewrite lor_high_low by (change (2 ^ 5) with 32; lia).
  apply byte_of_to_N. change (2 ^ 5) with 32. lia.
Qed.

Lemma lead_value_3 (c : Z) :
  2048 <= c < 65536 ->
  Z.of_N (to_N (byte_of (Z.lor 224 (Z.shiftr c 12)))) = 224 + c / 4096.
Proof.
  intros Hc. rewrite Z.shiftr_div_pow2 by lia. change (2 ^ 12) with 4096.
  assert (0 <= c / 4096 < 16) by (split; [apply Z.div_pos|apply Z.div_lt_upper_bound]; lia).
  change 224 with (14 * 2 ^ 4) at 1. rewrite lor_high_low by (change (2 ^ 4) with 16; lia).
  apply byte_of_to_N. change (2 ^ 4) with 16. lia.
Qed.

Lemma lead_value_4 (c : Z) :
  65536 <= c < 1114112 ->
  Z.of_N (to_N (byte_of (Z.lor 240 (Z.shiftr c 18)))) = 240 + c / 262144.
Proof.
  intros Hc. rewrite Z.shiftr_div_pow2 by lia. change (2 ^ 18) with 262144.
  assert (0 <= c / 262144 < 8) by (split; [apply Z.div_pos|apply Z.div_lt_upper_bound]; lia).
  change 240 with (30 * 2 ^ 3) at 1. rewrite lor_high_low by (change (2 ^ 3) with 8; lia).
  apply byte_of_to_N. change (2 ^ 3) with 8. lia.
Qed.

Lemma mask_high (h k q : Z) : 0 <= k -> 0 <= q < 2 ^ k ->
  Z.land (h * 2 ^ k + q) (2 ^ k - 1) = q.
Proof.
  intros Hk Hq. rewrite land_mask by exact Hk.
  rewrite Z.add_comm, Z.mod_add by lia. apply Z.mod_small; exact Hq.
Qed.

Lemma lead_2 (bom : bool) (q : Z) :
  2 <= q < 32 -> lead bom (192 + q) = (mkDecoder q 0 1 128 191 bom, []).
Proof.
  intros Hq. unfold lead, in_range.
  destruct (Z.leb_spec (192 + q) 127); [lia|]. rewrite andb_false_r.
  destruct (Z.leb_spec 194 (192 + q)); [|lia].
  destruct (Z.leb_spec (192 + q) 223); [|lia]. cbn [andb].
  change 192 with (6 * 2 ^ 5). change 31 with (2 ^ 5 - 1).
  rewrite mask_high by (change (2 ^ 5) with 32; lia). reflexivity.
Qed.

Lemma lead_3 (bom : bool) (q : Z) :
  0 <= q < 16 ->
  lead bom (224 + q)
  = (mkDecoder q 0 2 (if q =? 0 then 160 else 128)
               (if q =? 13 then 159 else 191) bom, []).
Proof.
  intros Hq. unfold lead, in_range.
  destruct (Z.leb_spec (224 + q) 127); [lia|]. rewrite andb_false_r.
  destruct (Z.leb_spec (224 + q) 223); [lia|]. rewrite andb_false_r.
  destruct (Z.leb_spec 224 (224 + q)); [|lia].
  destruct (Z.leb_spec (224 + q) 239); [|lia]. cbn [andb].
  change 224 with (14 * 2 ^ 4) at 1. change 15 with (2 ^ 4 - 1).
  rewrite mask_high by (change (2 ^ 4) with 16; lia).
  replace (224 + q =? 224) with (q =? 0)
    by (destruct (Z.eqb_spec q 0), (Z.eqb_spec (224 + q) 224); lia || reflexivity).
  replace (224 + q =? 237) with (q =? 13)
    by (destruct (Z.eqb_spec q 13), (Z.eqb_spec (224 + q) 237); lia || reflexivity).
  reflexivity.
Qed.

Lemma lead_4 (bom : bool) (q : Z) :
  0 <= q <= 4 ->
  lead bom (240 + q)
  = (mkDecoder q 0 3 (if q =? 0 then 144 else 128)
               (if q =? 4 then 143 else 191) bom, []).
Proof.
  intros Hq. unfold lead, in_range.
  destruct (Z.leb_spec (240 + q) 127); [lia|]. rewrite andb_false_r.
  destruct (Z.leb_spec (240 + q) 223); [lia|]. rewrite andb_false_r.
  destruct (Z.leb_spec (240 + q) 239); [lia|]. rewrite andb_false_r.
  destruct (Z.leb_spec 240 (240 + q)); [|lia].
  destruct (Z.leb_spec (240 + q) 244); [|lia]. cbn [andb].
  change 240 with (30 * 2 ^ 3) at 1. change 7 with (2 ^ 3 - 1).
  rewrite mask_high by (change (2 ^ 3) with 8; lia).
  replace (240 + q =? 240) with (q =? 0)
    by (destruct (Z.eqb_spec q 0), (Z.eqb_spec (240 + q) 240); lia || reflexivity).
  replace (240 + q =? 244) with (q =? 4)
    by (destruct (Z.eqb_spec q 4), (Z.eqb_spec (240 + q) 244); lia || reflexivity).
  reflexivity.
Qed.

(** Division and remainder by constants, handed to [lia]. *)
Ltac arith := Z.div_mod_to_equations; lia.

Lemma handler_idle (bom : bool) (b : Z) : handler (idle bom) b = lead bom b.
Proof. reflexivity. Qed.

Lemma chain1 (bom : bool) (c : Z) :
  0 <= c < 128 ->
  exists b0, encode c = [b0]
    /\ handler (idle bom) (Z.of_N (to_N b0)) = (idle bom, [c]).
Proof.
  intros Hc. exists (byte_of c). split.
  - unfold encode. destruct (Z.ltb_spec c 128); [reflexivity|lia].
  - rewrite byte_of_to_N by lia. rewrite handler_idle. unfold lead, in_range.
    destruct (Z.leb_spec 0 c); [|lia]. destruct (Z.leb_spec c 127); [|lia].
    reflexivity.
Qed.

Lemma chain2 (bom : bool) (c : Z) :
  128 <= c < 2048 ->
  exists b0 b1 d1,
    encode c = [b0; b1]
    /\ handler (idle bom) (Z.of_N (to_N b0)) = (d1, [])
    /\ pending d1 = true
    /\ handler d1 (Z.of_N (to_N b1)) = (idle bom, [c]).
Proof.
  intros Hc.
  exists (byte_of (Z.lor 192 (Z.shiftr c 6))), (cont c),
         (mkDecoder (c / 64) 0 1 128 191 bom).
  split; [|split; [|split]].
  - unfold encode. destruct (Z.ltb_spec c 128); [lia|].
    destruct (Z.ltb_spec c 2048); [reflexivity|lia].
  - rewrite lead_value_2, handler_idle by lia. apply lead_2. arith.
  - reflexivity.
  - rewrite cont_value by lia.
    rewrite handler_continue;
      cbn [bytes_needed code_point bytes_seen lower_boundary upper_boundary
           BOM_seen]; try arith.
    cbn [Z.add Z.eqb Pos.eqb Pos.add]. do 3 f_equal. arith.
Qed.

Lemma chain3 (bom : bool) (c : Z) :
  2048 <= c < 65536 -> scalar c = true ->
  exists b0 b1 b2 d1 d2,
    encode c = [b0; b1; b2]
    /\ handler (idle bom) (Z.of_N (to_N b0)) = (d1, [])
    /\ pending d1 = true
    /\ handler d1 (Z.of_N (to_N b1)) = (d2, [])
    /\ pending d2 = true
    /\ handler d2 (Z.of_N (to_N b2)) = (idle bom, [c]).
Proof.
  intros Hc Hs.
  assert (Hsur : c < 55296 \/ 57344 <= c).
  { unfold scalar, in_range in Hs. apply orb_prop in Hs as [H|H];
      apply andb_prop in H as [H1 H2]; apply Z.leb_le in H1, H2; lia. }
  exists (byte_of (Z.lor 224 (Z.shiftr c 12))), (cont (Z.shiftr c 6)), (cont c),
         (mkDecoder (c / 4096) 0 2
                    (if c / 4096 =? 0 then 160 else 128)
                    (if c / 4096 =? 13 then 159 else 191) bom),
         (mkDecoder (c / 4096 * 64 + (c / 64) mod 64) 1 2 128 191 bom).
  split; [|split; [|split; [|split; [|split]]]].
  - unfold encode. destruct (Z.ltb_spec c 128); [lia|].
    destruct (Z.ltb_spec c 2048); [lia|].
    destruct (Z.ltb_spec c 65536); [reflexivity|lia].
  - rewrite lead_value_3, handler_idle by lia. apply lead_3. arith.
  - reflexivity.
  - rewrite cont_value by (apply Z.shiftr_nonneg; lia).
    rewrite Z.shiftr_div_pow2 by lia. change (2 ^ 6) with 64.
    rewrite handler_continue;
      cbn [bytes_needed code_point bytes_seen lower_boundary upper_boundary
           BOM_seen]; try arith.
    + reflexivity.
    + destruct (Z.eqb_spec (c / 4096) 0), (Z.eqb_spec (c / 4096) 13); arith.
  - reflexivity.
  - rewrite cont_value by lia.
    rewrite handler_continue;
      cbn [bytes_needed code_point bytes_seen lower_boundary upper_boundary
           BOM_seen]; try arith.
    cbn [Z.add Z.eqb Pos.eqb Pos.add]. do 3 f_equal. arith.
Qed.

Lemma chain4 (bom : bool) (c : Z) :
  65536 <= c < 1114112 ->
  exists b0 b1 b2 b3 d1 d2 d3,
    encode c = [b0; b1; b2; b3]
    /\ handler (idle bom) (Z.of_N (to_N b0)) = (d1, [])
    /\ pending d1 = true
    /\ handler d1 (Z.of_N (to_N b1)) = (d2, [])
    /\ pending d2 = true
    /\ handler d2 (Z.of_N (to_N b2)) = (d3, [])
    /\ pending d3 = true
    /\ handler d3 (Z.of_N (to_N b3)) = (idle bom, [c]).
Proof.
  intros Hc.
  exists (byte_of (Z.lor 240 (Z.shiftr c 18))), (cont (Z.shiftr c 12)),
         (cont (Z.shiftr c 6)), (cont c),
         (mkDecoder (c / 262144) 0 3
                    (if c / 262144 =? 0 then 144 else 128)
                    (if c / 262144 =? 4 then 143 else 191) bom),
         (mkDecoder (c / 262144 * 64 + (c / 4096) mod 64) 1 3 128 191 bom),
         (mkDecoder ((c / 262144 * 64 + (c / 4096) mod 64) * 64
                     + (c / 64) mod 64) 2 3 128 191 bom).
  split; [|split; [|split; [|split; [|split; [|split; [|split]]]]]].
  - unfold encode. destruct (Z.ltb_spec c 128); [lia|].
    destruct (Z.ltb_spec c 2048); [lia|].
    destruct (Z.ltb_spec c 65536); [lia|reflexivity].
  - rewrite lead_value_4, handler_idle by lia. apply lead_4. arith.
  - reflexivity.
  - rewrite cont_value by (apply Z.shiftr_nonneg; lia).
    rewrite Z.shiftr_div_pow2 by lia. change (2 ^ 12) with 4096.
    rewrite handler_continue;
      cbn [bytes_needed code_point bytes_seen lower_boundary upper_boundary
           BOM_seen]; try arith.
    + reflexivity.
    + destruct (Z.eqb_spec (c / 262144) 0), (Z.eqb_spec (c / 262144) 4); arith.
  - reflexivity.
  - rewrite cont_value by (apply Z.shiftr_nonneg; lia).
    rewrite Z.shiftr_div_pow2 by lia. change (2 ^ 6) with 64.
    rewrite handler_continue;
      cbn [bytes_needed code_point bytes_seen lower_boundary upper_boundary
           BOM_seen]; try arith.
    reflexivity.
  - reflexivity.
  - rewrite cont_value by lia.
    rewrite handler_continue;
      cbn [bytes_needed code_point bytes_seen lower_boundary upper_boundary
           BOM_seen]; try arith.
    cbn [Z.add Z.eqb Pos.eqb Pos.add]. do 3 f_equal. arith.
Qed.

Lemma scalar_range (c : Z) : scalar c = true -> 0 <= c < 1114112.
Proof.
  unfold scalar, in_range. intros Hs. apply orb_prop in Hs as [H|H];
    apply andb_prop in H as [H1 H2]; apply Z.leb_le in H1, H2; lia.
Qed.

Ltac finish_prefix :=
  cbn [run fst snd app];
  first [ reflexivity
        | split; [reflexivity
                 |split; [first [intros _; assumption | intros H; congruence]
                         |reflexivity]] ].

(** Reading a proper prefix of the encoding of a scalar value gives no
    output and leaves a partial character pending; reading all of it gives the
    scalar value and leaves nothing pending. *)
Lemma run_encode_prefix (bom : bool) (c : Z) (front back : list byte) :
  scalar c = true ->
  encode c = front ++ back ->
  match back with
  | [] => run (idle bom) front = (idle bom, [c])
  | _ :: _ =>
      snd (run (idle bom) front) = []
      /\ (front <> [] -> pending (fst (run (idle bom) front)) = true)
      /\ run (fst (run (idle bom) front)) back = (idle bom, [c])
  end.
Proof.
  intros Hs Henc. pose proof (scalar_range c Hs) as Hr.
  destruct (Z.ltb_spec c 128) as [H1|H1];
    [|destruct (Z.ltb_spec c 2048) as [H2|H2];
      [|destruct (Z.ltb_spec c 65536) as [H3|H3]]].
  - destruct (chain1 bom c) as (b0 & E & S0); [lia|].
    rewrite E in Henc.
    destruct front as [|f0 [|f1 front]]; cbn [app] in Henc;
      [subst back|injection Henc as <- <-|discriminate];
      cbn [run fst snd]; rewrite ?S0; finish_prefix.
  - destruct (chain2 bom c) as (b0 & b1 & d1 & E & S0 & P1 & S1); [lia|].
    rewrite E in Henc.
    destruct front as [|f0 [|f1 [|f2 front]]]; cbn [app] in Henc;
      [subst back|injection Henc as <- <-|injection Henc as <- <- <-
       |discriminate];
      cbn [run fst snd]; rewrite ?S0; cbn [run fst snd]; rewrite ?S1;
      finish_prefix.
  - destruct (chain3 bom c)
      as (b0 & b1 & b2 & d1 & d2 & E & S0 & P1 & S1 & P2 & S2);
      [lia|exact Hs|].
    rewrite E in Henc.
    destruct front as [|f0 [|f1 [|f2 [|f3 front]]]]; cbn [app] in Henc;
      [subst back|injection Henc as <- <-|injection Henc as <- <- <-
       |injection Henc as <- <- <- <-|discriminate];
      cbn [run fst snd]; rewrite ?S0; cbn [run fst snd]; rewrite ?S1;
      cbn [run fst snd]; rewrite ?S2; finish_prefix.
  - destruct (chain4 bom c)
      as (b0 & b1 & b2 & b3 & d1 & d2 & d3
          & E & S0 & P1 & S1 & P2 & S2 & P3 & S3); [lia|].
    rewrite E in Henc.
    destruct front as [|f0 [|f1 [|f2 [|f3 [|f4 front]]]]]; cbn [app] in Henc;
      [subst back|injection Henc as <- <-|injection Henc as <- <- <-
       |injection Henc as <- <- <- <-|injection Henc as <- <- <- <- <-
       |discriminate];
      cbn [run fst snd]; rewrite ?S0; cbn [run fst snd]; rewrite ?S1;
      cbn [run fst snd]; rewrite ?S2; cbn [run fst snd]; rewrite ?S3;
      finish_prefix.
Qed.

End DecoderFacts.

(* ================================================================== *)
(** * The read loop across reads *)

Module ReadFacts.
Import DecoderFacts.

Lemma last_default {A : Type} (l : list A) (d d' : A) :
  l <> [] -> last l d = last l d'.
Proof.
  induction l as [|x [|y l] IH]; intros H; [contradiction|reflexivity|].
  change (last (x :: y :: l) d) with (last (y :: l) d).
  change (last (x :: y :: l) d') with (last (y :: l) d').
  apply IH. discriminate.
Qed.

Lemma split_not_nil (s : text) : split s <> [].
Proof. destruct (split_cons s) as (l & ls & E). rewrite E. discriminate. Qed.

(** The unfinished line after two texts is the unfinished line after the
    unfinished line of the first and the second. *)
Lemma last_split_app (a b : text) :
  last (split (a ++ b)) [] = last (split (last (split a) [] ++ b)) [].
Proof.
  rewrite split_app, last_app_default.
  apply last_default, split_not_nil.
Qed.

(** And the complete lines are those of the first, then those of that
    unfinished line followed by the second. *)
Lemma removelast_split_app (a b : text) :
  removelast (split (a ++ b))
  = removelast (split a) ++ removelast (split (last (split a) [] ++ b)).
Proof.
  rewrite split_app. apply removelast_app, split_not_nil.
Qed.

Section Reads.
Variable Yield : Type.
Variable yield : text -> text -> Yield.

Lemma read_pass_eq (d : Utf8.decoder) (buffer : text) (value : list byte) :
  read_pass yield d buffer value =
  let s := snd (Utf8.decode_stream d value) in
  ((fst (Utf8.decode_stream d value), last (split (buffer ++ s)) []),
   snd (for_lines yield (txt "message", [])
                  (removelast (split (buffer ++ s))))).
Proof.
  unfold read_pass. now destruct (Utf8.decode_stream d value).
Qed.

Lemma read_loop_app (d : Utf8.decoder) (buffer : text)
      (c1 c2 : list (list byte)) :
  read_loop yield d buffer (c1 ++ c2) =
  let '((d1, b1), out1) := read_loop yield d buffer c1 in
  let '(final, out2) := read_loop yield d1 b1 c2 in
  (final, out1 ++ out2).
Proof.
  revert d buffer; induction c1 as [|value c1 IH]; intros d buffer;
    cbn [app read_loop].
  - now destruct (read_loop yield d buffer c2).
  - destruct (read_pass yield d buffer value) as [[d1 b1] out1].
    rewrite IH. destruct (read_loop yield d1 b1 c1) as [[d2 b2] out2].
    destruct (read_loop yield d2 b2 c2) as [final out3].
    now rewrite app_assoc.
Qed.

(** After the loop, the decoder is the decoder after all the reads and the
    buffer is the unfinished last line of the buffer followed by all the
    decoded text. *)
Lemma read_loop_state (d : Utf8.decoder) (buffer : text)
      (chunks : list (list byte)) :
  no_LF buffer = true ->
  fst (read_loop yield d buffer chunks)
  = (fst (decoded d chunks),
     last (split (buffer ++ snd (decoded d chunks))) []).
Proof.
  revert d buffer; induction chunks as [|value chunks IH]; intros d buffer Hb.
  - cbn [read_loop decoded fst snd]. rewrite app_nil_r.
    now rewrite (split_one_line buffer Hb).
  - cbn [read_loop decoded]. rewrite read_pass_eq. cbv zeta.
    destruct (Utf8.decode_stream d value) as [d1 s1]. cbn [fst snd].
    specialize (IH d1 (last (split (buffer ++ s1)) [])
                   (last_split_no_LF (buffer ++ s1))).
    destruct (read_loop yield d1 (last (split (buffer ++ s1)) []) chunks)
      as [final out2].
    destruct (decoded d1 chunks) as [d2 s2]. cbn [fst snd] in *.
    rewrite IH, app_assoc, <- last_split_app. reflexivity.
Qed.

(** The states of a pass do not depend on what is yielded. *)
Lemma for_lines_state (st : text * text) (lines : list text) :
  fst (for_lines yield st lines) = fst (for_lines pair st lines).
Proof. now rewrite for_lines_frames. Qed.

(** When every read ends between frames, the loop yields what one pass over
    all the complete lines yields. *)
Lemma read_loop_settled (d : Utf8.decoder) (buffer : text)
      (chunks : list (list byte)) :
  no_LF buffer = true ->
  settled d buffer chunks = true ->
  snd (read_loop yield d buffer chunks)
  = snd (for_lines yield (txt "message", [])
                   (removelast (split (buffer ++ snd (decoded d chunks))))).
Proof.
  revert d buffer; induction chunks as [|value chunks IH];
    intros d buffer Hb Hsettled.
  - cbn [read_loop decoded fst snd]. rewrite app_nil_r.
    now rewrite (split_one_line buffer Hb).
  - cbn [read_loop decoded settled] in *. rewrite read_pass_eq. cbv zeta.
    destruct (Utf8.decode_stream d value) as [d1 s1]. cbn [fst snd].
    pose proof (for_lines_state (txt "message", [])
                  (removelast (split (buffer ++ s1)))) as Hst.
    destruct (for_lines pair (txt "message", [])
                (removelast (split (buffer ++ s1)))) as [[e0 d0] out0].
    cbn [fst] in Hsettled, Hst.
    apply andb_prop in Hsettled as [Hinit Hrest].
    apply andb_prop in Hinit as [He Hd].
    apply eqb_eq in He, Hd. subst e0 d0.
    specialize (IH d1 (last (split (buffer ++ s1)) [])
                   (last_split_no_LF (buffer ++ s1)) Hrest).
    destruct (read_loop yield d1 (last (split (buffer ++ s1)) []) chunks)
      as [final out2].
    destruct (decoded d1 chunks) as [d2 s2]. cbn [fst snd] in *.
    destruct (for_lines yield (txt "message", [])
                (removelast (split (buffer ++ s1)))) as [st1 out1] eqn:E1.
    cbn [fst snd] in *. subst st1 out2.
    rewrite (app_assoc buffer s1 s2), (removelast_split_app (buffer ++ s1) s2).
    rewrite for_lines_app, E1.
    destruct (for_lines yield _ (removelast (split (_ ++ s2)))).
    reflexivity.
Qed.

(** A read that decodes to no text yields nothing and leaves the buffer as
    it is. *)
Lemma read_pass_no_text (d : Utf8.decoder) (buffer : text) (value : list byte) :
  no_LF buffer = true ->
  snd (Utf8.decode_stream d value) = [] ->
  read_pass yield d buffer value
  = ((fst (Utf8.decode_stream d value), buffer), []).
Proof.
  intros Hb Hs. rewrite read_pass_eq. cbv zeta.
  rewrite Hs, app_nil_r, (split_one_line buffer Hb). reflexivity.
Qed.

End Reads.
End ReadFacts.
Import DecoderFacts ReadFacts.

(* ================================================================== *)
(** * Properties across reads *)

(** X4: what the buffer carry-over does achieve: when every read ends between
    frames (no [event: ] or [data: ] line of an unfinished frame has been
    consumed), cutting the bytes into reads changes nothing, wherever the
    cuts fall inside a line or inside a character. *)
Lemma reads_between_frames_are_invariant :
  forall (Yield : Type) (yield : text -> text -> Yield)
         (chunks : list (list byte)),
    settled Utf8.fresh [] chunks = true ->
    stream yield chunks = stream yield [List.concat chunks].
Proof.
  intros Yield yield chunks Hsettled. unfold stream.
  pose proof (read_loop_state Yield yield Utf8.fresh [] chunks eq_refl) as Hst.
  pose proof (read_loop_settled Yield yield Utf8.fresh [] chunks eq_refl
                Hsettled) as Hout.
  destruct (read_loop yield Utf8.fresh [] chunks) as [[d b] out].
  cbn [fst snd] in Hst, Hout. injection Hst as Hd Hb.
  cbn [read_loop]. rewrite read_pass_eq. cbv zeta.
  rewrite <- decoded_concat. cbn [app] in *.
  rewrite Hout, Hb, app_nil_r. reflexivity.
Qed.

(** C1, on the code: the event kind and the payload in progress are declared
    inside the read loop, so they are lost at every read.  The same bytes
    give the frame [update]/[hi] in one read, the frame [message]/[hi] when
    the read ends after the [event: ] line or inside the [data: ] line, and
    no frame when it ends before the empty line.  A cut inside a line of
    a frame not yet begun, or inside a character, changes nothing. *)
Theorem frame_in_progress_is_lost_between_reads :
  stream_frames [Ref.bytes "event: update
data: hi

"] = [(txt "update", txt "hi")]
  /\ stream_frames [Ref.bytes "event: update
"; Ref.bytes "data: hi

"] = [(txt "message", txt "hi")]
  /\ stream_frames [Ref.bytes "event: update
da"; Ref.bytes "ta: hi

"] = [(txt "message", txt "hi")]
  /\ stream_frames [Ref.bytes "event: update
data: hi
"; Ref.bytes "
"] = []
  /\ stream_frames [Ref.bytes "event: up"; Ref.bytes "date
data: hi

"] = [(txt "update", txt "hi")]
  /\ stream_frames [Ref.bytes "data: " ++ [xe2; x82]; [xac] ++ Ref.bytes "

"] = [(txt "message", [8364])]
  /\ Ref.verifyClaimStream (Ref.ok_response [Ref.bytes "event: update
data: hi

"]) = mkOutcome [mkSSEEvent (txt "update") (JStr (txt "hi"))] None
  /\ Ref.verifyClaimStream (Ref.ok_response [Ref.bytes "event: update
"; Ref.bytes "data: hi

"]) = mkOutcome [mkSSEEvent (txt "message") (JStr (txt "hi"))] None.
Proof. repeat split; vm_compute; reflexivity. Qed.

(** C3, on the code: after the loop only the unfinished last line of the
    stream is left in the buffer, and the event kind and payload in progress
    are gone.  A [data: ] line that ends the stream with its line feed is
    not yielded at all; one that ends it without a line feed is yielded, with
    the kind [message] whatever [event: ] line came before. *)
Theorem final_frame_without_blank_line :
  stream_frames [Ref.bytes "event: update
data: hi

"] = [(txt "update", txt "hi")]
  /\ stream_frames [Ref.bytes "event: update
data: hi
"] = []
  /\ stream_frames [Ref.bytes "event: update
data: hi"] = [(txt "message", txt "hi")]
  /\ stream_frames [Ref.bytes "data: hi
"] = []
  /\ stream_frames [Ref.bytes "data: hi"] = [(txt "message", txt "hi")]
  /\ Ref.verifyClaimStream (Ref.ok_response [Ref.bytes "event: update
data: hi
"]) = mkOutcome [] None
  /\ Ref.verifyClaimStream (Ref.ok_response [Ref.bytes "event: update
data: hi"]) = mkOutcome [mkSSEEvent (txt "message") (JStr (txt "hi"))] None.
Proof. repeat split; vm_compute; reflexivity. Qed.

(** C8, on the code: the order of the [event: ] and [data: ] lines of a
    frame does not matter inside one read, but the payload and the event
    kind in progress are declared inside the read loop, so a read that ends
    between the two lines loses the first of them, and the two orders then
    differ.  The same bytes give the frame [update]/[hi] in one read, in
    either order; with the read ending after the first line, the order
    [data: ] then [event: ] gives no frame at all (the payload is gone when
    the empty line comes), and the canonical order gives the frame
    [message]/[hi].  The same happens to the later of two [data: ] lines
    when the read ends before the empty line. *)
Theorem out_of_order_frame_across_reads :
  stream_frames [Ref.bytes "data: hi
event: update

"] = [(txt "update", txt "hi")]
  /\ stream_frames [Ref.bytes "event: update
data: hi

"] = [(txt "update", txt "hi")]
  /\ stream_frames [Ref.bytes "data: hi
"; Ref.bytes "event: update

"] = []
  /\ stream_frames [Ref.bytes "event: update
"; Ref.bytes "data: hi

"] = [(txt "message", txt "hi")]
  /\ stream_frames [Ref.bytes "data: 1
data: 2

"] = [(txt "message", txt "2")]
  /\ stream_frames [Ref.bytes "data: 1
data: 2
"; Ref.bytes "
"] = []
  /\ Ref.verifyClaimStream (Ref.ok_response [Ref.bytes "data: hi
event: update

"]) = mkOutcome [mkSSEEvent (txt "update") (JStr (txt "hi"))] None
  /\ Ref.verifyClaimStream (Ref.ok_response [Ref.bytes "data: hi
"; Ref.bytes "event: update

"]) = mkOutcome [] None.
Proof. repeat split; vm_compute; reflexivity. Qed.

(** X5: what is left for the end of the stream is one line: it yields at
    most one frame, of kind [message], and only when it is a [data: ] line. *)
Lemma remaining_single_line :
  forall (Yield : Type) (yield : text -> text -> Yield) (buffer : text),
    no_LF buffer = true ->
    remaining yield buffer
    = if nonempty (trim buffer) && startsWith buffer (txt "data: ")
         && nonempty (slice buffer 6)
      then [yield (txt "message") (slice buffer 6)]
      else [].
Proof.
  intros Yield yield buffer Hb. unfold remaining.
  rewrite (split_one_line buffer Hb). cbn [fold_left rest_step].
  destruct (nonempty (trim buffer)); [|reflexivity]. cbn [andb].
  destruct (startsWith buffer (txt "event: ")) eqn:He.
  - assert (Hd : startsWith buffer (txt "data: ") = false).
    { destruct buffer as [|c buffer]; [discriminate|].
      cbn in He |- *. apply andb_prop in He as [Hc _].
      apply Z.eqb_eq in Hc. subst c. reflexivity. }
    rewrite Hd. reflexivity.
  - destruct (startsWith buffer (txt "data: ")); [|reflexivity].
    cbn [andb]. destruct (nonempty (slice buffer 6)); reflexivity.
Qed.

(** C7, as the code has it: a character whose encoding spans two reads is
    decoded intact.  The text of the reads, call after call, is the text of
    all the bytes in one read; the encoding of a scalar value cut anywhere
    gives that scalar value and nothing else (a byte order mark that is the
    first character of the stream is dropped, as in one read); and the first
    part alone gives no text and leaves the character pending.  A partial
    character still pending when the stream ends is not resolved: the
    decoder is never called without [stream: true], so the buffer after the
    loop is the last line of the text decoded in streaming mode, and a last
    read that decodes to no text changes nothing of what is yielded. *)
Theorem split_character_is_decoded_intact :
  (forall d chunks, decoded d chunks = Utf8.decode_stream d (List.concat chunks))
  /\ (forall c front back bom,
         Utf8.scalar c = true ->
         Utf8.encode c = front ++ back ->
         decoded (Utf8.idle bom) [front; back]
         = (Utf8.idle true,
            if negb bom && (c =? Utf8.BOM) then [] else [c]))
  /\ (forall c front back bom,
         Utf8.scalar c = true ->
         Utf8.encode c = front ++ back ->
         back <> [] ->
         snd (Utf8.decode_stream (Utf8.idle bom) front) = []
         /\ (front <> [] ->
             Utf8.pending (fst (Utf8.decode_stream (Utf8.idle bom) front))
             = true))
  /\ (forall (Yield : Type) (yield : text -> text -> Yield) chunks,
         fst (read_loop yield Utf8.fresh [] chunks)
         = (fst (Utf8.decode_stream Utf8.fresh (List.concat chunks)),
            last (split (snd (Utf8.decode_stream Utf8.fresh
                                (List.concat chunks)))) []))
  /\ (forall (Yield : Type) (yield : text -> text -> Yield) chunks value,
         snd (Utf8.decode_stream (fst (decoded Utf8.fresh chunks)) value) = [] ->
         stream yield (chunks ++ [value]) = stream yield chunks).
Proof.
  split; [|split; [|split; [|split]]].
  - exact decoded_concat.
  - intros c front back bom Hs Henc.
    rewrite decoded_concat. cbn [List.concat]. rewrite app_nil_r, <- Henc.
    pose proof (run_encode_prefix bom c (Utf8.encode c) [] Hs
                  (eq_sym (app_nil_r _))) as Hrun.
    cbv beta iota in Hrun. unfold Utf8.decode_stream. rewrite Hrun.
    cbn [Utf8.BOM_seen Utf8.idle Utf8.serialize].
    destruct bom; [reflexivity|]. cbn [negb andb].
    destruct (c =? Utf8.BOM); reflexivity.
  - intros c front back bom Hs Henc Hback.
    pose proof (run_encode_prefix bom c front back Hs Henc) as Hrun.
    destruct back as [|b back]; [contradiction|].
    destruct Hrun as (Hout & Hpending & _).
    rewrite decode_stream_eq. cbn [fst snd]. rewrite Hout.
    cbn [Utf8.serialize fst snd]. split; [reflexivity|].
    intros Hfront. specialize (Hpending Hfront).
    unfold Utf8.pending in *. exact Hpending.
  - intros Yield yield chunks.
    rewrite (read_loop_state Yield yield Utf8.fresh [] chunks eq_refl).
    now rewrite decoded_concat.
  - intros Yield yield chunks value Hs. unfold stream.
    rewrite read_loop_app.
    pose proof (read_loop_state Yield yield Utf8.fresh [] chunks eq_refl)
      as Hst.
    destruct (read_loop yield Utf8.fresh [] chunks) as [[d b] out].
    cbn [fst] in Hst. injection Hst as Hd Hb. cbn [read_loop].
    rewrite read_pass_no_text.
    + now rewrite !app_nil_r.
    + rewrite Hb. apply last_split_no_LF.
    + rewrite Hd. exact Hs.
Qed.

(** The euro sign, E2 82 AC, cut after its first byte. *)
Lemma split_character_is_decoded_intact_witness :
  decoded Utf8.fresh [[xe2]; [x82; xac]] = (Utf8.idle true, [8364])
  /\ Utf8.decode_stream Utf8.fresh [xe2]
     = (Utf8.mkDecoder 2 0 2 128 191 false, []).
Proof.
  destruct split_character_is_decoded_intact as (_ & Hwhole & Hpart & _ & _).
  split.
  - exact (Hwhole 8364 [xe2] [x82; xac] false eq_refl eq_refl).
  - destruct (Hpart 8364 [xe2] [x82; xac] false eq_refl eq_refl) as [_ _];
      [discriminate|]. reflexivity.
Defined.

(** C7 as stated fails on a stream that ends inside a character: [caf] and
    the first byte, C3, of a two-byte character.  The decoder ends with the
    character pending, the call that would resolve it into U+FFFD is never
    made, and the payload is yielded as if the byte had not been sent. *)
Lemma dangling_character_is_discarded :
  fst (read_loop pair Utf8.fresh [] [Ref.bytes "data: caf" ++ [xc3]])
  = (Utf8.mkDecoder 3 0 1 128 191 true, txt "data: caf")
  /\ Utf8.pending (Utf8.mkDecoder 3 0 1 128 191 true) = true
  /\ Utf8.decode_end (Utf8.mkDecoder 3 0 1 128 191 true)
     = (Utf8.idle true, [Utf8.REPLACEMENT])
  /\ stream_frames [Ref.bytes "data: caf" ++ [xc3]]
     = [(txt "message", txt "caf")]
  /\ stream_frames [Ref.bytes "data: caf"] = [(txt "message", txt "caf")].
Proof. repeat split; vm_compute; reflexivity. Qed.

(* ================================================================== *)
(** * The aggregator in full *)

Module ReconstructionFacts.

Lemma last_where_cons {A : Type} (p : A -> bool) (x : A) (l : list A) :
  last_where p (x :: l) =
  match last_where p l with
  | Some y => Some y
  | None => if p x then Some x else None
  end.
Proof.
  unfold last_where. cbn [filter]. destruct (p x); cbn [map].
  - rewrite last_cons. destruct (filter p l) as [|y f]; [reflexivity|].
    rewrite (last_default (map Some (y :: f)) (Some x) None) by discriminate.
    destruct (last (map Some (y :: f)) None) eqn:E; [reflexivity|].
    exfalso. revert E. generalize y. induction f as [|z f IH]; intros y0 E;
      [discriminate|].
    exact (IH z E).
  - now destruct (last (map Some (filter p l)) None).
Qed.

Lemma last_where_none {A : Type} (p : A -> bool) (l : list A) :
  last_where p l = None -> forall x, In x l -> p x = false.
Proof.
  induction l as [|y l IH]; intros H x Hin; [destruct Hin|].
  rewrite last_where_cons in H.
  destruct (last_where p l); [discriminate|].
  destruct (p y) eqn:Hy; [discriminate|].
  destruct Hin as [<-|Hin]; [exact Hy|now apply IH].
Qed.

Lemma last_where_some {A : Type} (p : A -> bool) (l : list A) (x : A) :
  last_where p l = Some x -> In x l /\ p x = true.
Proof.
  induction l as [|y l IH]; intros H; [discriminate|].
  rewrite last_where_cons in H.
  destruct (last_where p l) as [z|].
  - injection H as ->. destruct (IH eq_refl) as [Hin Hp].
    split; [now right|exact Hp].
  - destruct (p y) eqn:Hy; [|discriminate]. injection H as ->.
    split; [now left|exact Hy].
Qed.

Section Collect.
Variable number : Type.
Variable num_truthy : number -> bool.
Variable num_zero : number.
Variable num_add : number -> number -> number.
Variable add_coerced : JSValue number -> JSValue number -> JSValue number.

(** The first loop keeps the payload of the last qualifying event. *)
Lemma final_fold (evs : list (SSEEvent number)) (r : option (JSValue number)) :
  fold_left (final_step num_truthy) evs r =
  match last_where (terminal num_truthy) evs with
  | Some e => Some (data e)
  | None => r
  end.
Proof.
  revert r; induction evs as [|e evs IH]; intros r; [reflexivity|].
  cbn [fold_left]. rewrite IH, last_where_cons.
  destruct (last_where (terminal num_truthy) evs); [reflexivity|].
  destruct (terminal num_truthy e) eqn:He.
  - now apply final_step_terminal.
  - now apply final_step_other.
Qed.

(** The assembling pass in closed form, snapshots included. *)
Lemma assemble_fold_all (evs : list (SSEEvent number)) (a : Assembly number) :
  fold_left (assemble_step num_truthy) evs a =
  mkAssembly
    (claimGroups a ++ accumulated_groups num_truthy evs)
    (last (map data
               (filter (fun e => object_data num_truthy e
                                 && Text.eqb (event e) (txt "credit_usage"))
                       evs))
          (creditUsage a))
    (last (map (fun e => get (data e) (txt "thread_id"))
               (filter (fun e => object_data num_truthy e
                                 && truthy num_truthy
                                      (get (data e) (txt "thread_id")))
                       evs))
          (threadId a))
    (match last_where (snapshot num_truthy) evs with
     | Some e => Some (data e)
     | None => finalResult a
     end).
Proof.
  revert a; induction evs as [|e evs IH]; intros a.
  - cbn. rewrite app_nil_r. now destruct a.
  - cbn [fold_left]. rewrite IH, last_where_cons.
    unfold accumulated_groups. cbn [filter].
    unfold assemble_step, snapshot, object_data.
    destruct (truthy num_truthy (data e)) eqn:Ht;
      [destruct (typeof_object (data e)) eqn:Ho|];
      cbn [negb orb andb];
      try (destruct (last_where _ evs); reflexivity).
    cbn [claimGroups creditUsage threadId finalResult].
    rewrite ?andb_true_r.
    destruct (last_where
                (fun e0 => truthy num_truthy (data e0) && typeof_object (data e0)
                           && truthy num_truthy (get (data e0) (txt "claim_groups")))
                evs);
      destruct (Text.eqb (event e) (txt "claim_group"));
      destruct (Text.eqb (event e) (txt "credit_usage"));
      destruct (truthy num_truthy (get (data e) (txt "thread_id")));
      destruct (truthy num_truthy (get (data e) (txt "claim_groups")));
      cbn [map]; rewrite ?last_cons, <- ?app_assoc; reflexivity.
Qed.

End Collect.
End ReconstructionFacts.
Import ReconstructionFacts.



(* ================================================================== *)
(** * More on the read loop *)

Module PassFacts.

Section Pass.
Variable Yield : Type.
Variable yield : text -> text -> Yield.

(** Only the empty line yields. *)
Lemma line_step_silent (st : text * text) (line : text) :
  nonempty line = true -> snd (line_step yield st line) = [].
Proof.
  intros Hne. unfold line_step. destruct st as [e d].
  destruct (startsWith line (txt "event: ")); [reflexivity|].
  destruct (startsWith line (txt "data: ")); [reflexivity|].
  now rewrite eqb_nil, Hne.
Qed.

Lemma for_lines_silent (st : text * text) (lines : list text) :
  Forall (fun line => nonempty line = true) lines ->
  snd (for_lines yield st lines) = [].
Proof.
  intros H; revert st; induction H as [|line lines Hline _ IH]; intros st;
    cbn [for_lines]; [reflexivity|].
  pose proof (line_step_silent st line Hline) as H1.
  destruct (line_step yield st line) as [st1 out1]. cbn [snd] in H1.
  specialize (IH st1). destruct (for_lines yield st1 lines) as [st2 out2].
  cbn [snd] in *. now rewrite H1, IH.
Qed.

Lemma read_loop_silent (d : Utf8.decoder) (buffer : text)
      (chunks : list (list byte)) :
  no_LF buffer = true ->
  Forall (fun line => nonempty line = true)
         (removelast (split (buffer ++ snd (decoded d chunks)))) ->
  snd (read_loop yield d buffer chunks) = [].
Proof.
  revert d buffer; induction chunks as [|value chunks IH];
    intros d buffer Hb Hall; [reflexivity|].
  cbn [read_loop decoded] in *. rewrite read_pass_eq. cbv zeta.
  destruct (Utf8.decode_stream d value) as [d1 s1]. cbn [fst snd].
  specialize (IH d1 (last (split (buffer ++ s1)) [])
                 (last_split_no_LF (buffer ++ s1))).
  destruct (read_loop yield d1 (last (split (buffer ++ s1)) []) chunks)
    as [final out2].
  destruct (decoded d1 chunks) as [d2 s2]. cbn [fst snd] in *.
  rewrite (app_assoc buffer s1 s2), (removelast_split_app (buffer ++ s1) s2)
    in Hall.
  apply Forall_app in Hall as [H1 H2].
  rewrite (for_lines_silent _ _ H1), (IH H2). reflexivity.
Qed.

End Pass.
End PassFacts.
Import PassFacts.

(** X2: a frame is finalized only by a line that is exactly empty.  When no
    complete line of the body is empty (as in a body whose lines end in
    CR LF, where the line between frames is a lone carriage return), the
    read loop yields nothing, and all the generator can yield is what the
    end-of-stream block makes of the last unfinished line. *)
Theorem no_empty_line_no_frame :
  forall (Yield : Type) (yield : text -> text -> Yield)
         (chunks : list (list byte)),
    Forall (fun line => nonempty line = true)
           (removelast
              (split (snd (Utf8.decode_stream Utf8.fresh (List.concat chunks))))) ->
    stream yield chunks
    = remaining yield
        (last (split (snd (Utf8.decode_stream Utf8.fresh (List.concat chunks))))
              []).
Proof.
  intros Yield yield chunks Hall. unfold stream.
  rewrite <- decoded_concat in *.
  pose proof (read_loop_state Yield yield Utf8.fresh [] chunks eq_refl) as Hst.
  pose proof (read_loop_silent Yield yield Utf8.fresh [] chunks eq_refl Hall)
    as Hout.
  destruct (read_loop yield Utf8.fresh [] chunks) as [[d b] out].
  cbn [fst snd app] in *. injection Hst as _ Hb. now rewrite Hout, Hb.
Qed.

(** Two frames with CR LF line endings: nothing is yielded. *)
Lemma no_empty_line_no_frame_witness :
  stream_frames
    [Ref.bytes ("event: a" ++ Samples.CR ++ Samples.NL
                ++ "data: 1" ++ Samples.CR ++ Samples.NL
                ++ Samples.CR ++ Samples.NL
                ++ "data: 2" ++ Samples.CR ++ Samples.NL
                ++ Samples.CR ++ Samples.NL)]
  = [].
Proof.
  unfold stream_frames. rewrite no_empty_line_no_frame.
  - vm_compute. reflexivity.
  - vm_compute. repeat constructor.
Defined.

(** X3: the empty line that finalizes a frame puts the parser back in its
    initial state: the lines after it are read as at the start of a pass,
    so the event kind of a frame never carries over to the next one. *)
Theorem finalized_frame_resets_the_parser :
  forall (Yield : Type) (yield : text -> text -> Yield)
         (st : text * text) (pre post : list text)
         (currentEvent currentData : text),
    fst (for_lines yield st pre) = (currentEvent, currentData) ->
    nonempty currentData = true ->
    for_lines yield st (pre ++ [] :: post)
    = (fst (for_lines yield (txt "message", []) post),
       snd (for_lines yield st pre)
       ++ yield currentEvent currentData
       :: snd (for_lines yield (txt "message", []) post)).
Proof.
  intros Yield yield st pre post e d Hst Hd.
  rewrite for_lines_app. destruct (for_lines yield st pre) as [st1 out1].
  cbn [fst snd] in *. subst st1. cbn [for_lines].
  rewrite line_step_blank, Hd.
  destruct (for_lines yield (txt "message", []) post) as [st2 out2].
  reflexivity.
Qed.

Lemma finalized_frame_resets_the_parser_witness :
  for_lines pair (txt "message", [])
            [txt "event: update"; txt "data: 1"; []; txt "data: 2"; []]
  = ((txt "message", []),
     [(txt "update", txt "1"); (txt "message", txt "2")]).
Proof.
  exact (finalized_frame_resets_the_parser _ pair (txt "message", [])
           [txt "event: update"; txt "data: 1"] [txt "data: 2"; []]
           (txt "update") (txt "1") eq_refl eq_refl).
Defined.

(** Reads that end between frames, inside a line and inside a frame not yet
    begun. *)
Lemma reads_between_frames_are_invariant_witness :
  stream_frames
    [Ref.bytes "event: up"; Ref.bytes "date
data: hi

da"; Ref.bytes "ta: 2

"]
  = stream_frames
      [List.concat [Ref.bytes "event: up"; Ref.bytes "date
data: hi

da"; Ref.bytes "ta: 2

"]].
Proof.
  exact (reads_between_frames_are_invariant _ pair
           [Ref.bytes "event: up"; Ref.bytes "date
data: hi

da"; Ref.bytes "ta: 2

"] eq_refl).
Defined.

Lemma remaining_single_line_witness :
  remaining pair (txt "data: hi") = [(txt "message", txt "hi")]
  /\ remaining pair (txt "event: update") = [].
Proof.
  split.
  - exact (remaining_single_line _ pair (txt "data: hi") eq_refl).
  - exact (remaining_single_line _ pair (txt "event: update") eq_refl).
Defined.

(* ================================================================== *)
(** * Percent-encoding *)

Module UriFacts.

Lemma percent_safe (b : byte) :
  Forall (fun c => Uri.escaped_char c = true) (Uri.percent b).
Proof. destruct b; repeat constructor. Qed.

Lemma percents_safe (bytes : list byte) :
  Forall (fun c => Uri.escaped_char c = true) (flat_map Uri.percent bytes).
Proof.
  induction bytes as [|b bytes IH]; cbn [flat_map]; [constructor|].
  apply Forall_app; split; [apply percent_safe|exact IH].
Qed.

Lemma encodeURIComponent_safe (s e : text) :
  Uri.encodeURIComponent s = Some e ->
  Forall (fun c => Uri.escaped_char c = true) e.
Proof.
  revert e; induction s as [|c s IH]; intros e H; cbn [Uri.encodeURIComponent] in H.
  - injection H as <-. constructor.
  - destruct (Uri.unreserved c) eqn:Hc.
    + destruct (Uri.encodeURIComponent s) as [e'|]; [|discriminate].
      injection H as <-. constructor; [|now apply IH].
      unfold Uri.escaped_char. now rewrite Hc.
    + destruct (Utf8.scalar c); [|discriminate].
      destruct (Uri.encodeURIComponent s) as [e'|]; [|discriminate].
      injection H as <-. apply Forall_app; split;
        [apply percents_safe|now apply IH].
Qed.

Lemma unescape_percent (b : byte) (r : text) :
  Uri.unescape (Uri.percent b ++ r) = b :: Uri.unescape r.
Proof. destruct b; reflexivity. Qed.

Lemma unescape_percents (bytes : list byte) (r : text) :
  Uri.unescape (flat_map Uri.percent bytes ++ r) = bytes ++ Uri.unescape r.
Proof.
  induction bytes as [|b bytes IH]; cbn [flat_map app]; [reflexivity|].
  rewrite <- app_assoc, unescape_percent, IH. reflexivity.
Qed.

Lemma unreserved_ascii (c : Z) : Uri.unreserved c = true -> 0 <= c < 128 /\ c <> 37.
Proof.
  unfold Uri.unreserved, Uri.alphanumeric. intros H.
  repeat match type of H with
         | (_ || _) = true => apply orb_prop in H as [H|H]
         | (_ && _) = true => apply andb_prop in H as [? ?]
         end;
    repeat match goal with
           | H : (_ <=? _) = true |- _ => apply Z.leb_le in H
           | H : (_ =? _) = true |- _ => apply Z.eqb_eq in H
           end; lia.
Qed.

Lemma unescape_plain (c : Z) (r : text) :
  c <> 37 -> Uri.unescape (c :: r) = Utf8.byte_of c :: Uri.unescape r.
Proof.
  intros Hc. cbn [Uri.unescape].
  destruct r as [|h [|l r]]; try reflexivity.
  destruct (Z.eqb_spec c 37); [contradiction|reflexivity].
Qed.

Lemma encode_ascii (c : Z) : c < 128 -> Utf8.encode c = [Utf8.byte_of c].
Proof. intros Hc. unfold Utf8.encode. destruct (Z.ltb_spec c 128); [reflexivity|lia]. Qed.

(** The bytes behind the result are the UTF-8 encoding of the string. *)
Lemma unescape_encodeURIComponent (s e : text) :
  Uri.encodeURIComponent s = Some e ->
  Uri.unescape e = flat_map Utf8.encode s
  /\ Forall (fun c => Utf8.scalar c = true) s.
Proof.
  revert e; induction s as [|c s IH]; intros e H; cbn [Uri.encodeURIComponent] in H.
  - injection H as <-. split; [reflexivity|constructor].
  - destruct (Uri.unreserved c) eqn:Hc.
    + destruct (Uri.encodeURIComponent s) as [e'|]; [|discriminate].
      injection H as <-. destruct (IH e' eq_refl) as [IH1 IH2].
      destruct (unreserved_ascii c Hc) as [Hr H37].
      cbn [flat_map option_map]. rewrite unescape_plain, encode_ascii, IH1 by lia.
      split; [reflexivity|]. constructor; [|exact IH2].
      unfold Utf8.scalar, Utf8.in_range.
      destruct (Z.leb_spec 0 c); [|lia]. destruct (Z.leb_spec c 55295); [|lia].
      reflexivity.
    + destruct (Utf8.scalar c) eqn:Hs; [|discriminate].
      destruct (Uri.encodeURIComponent s) as [e'|]; [|discriminate].
      injection H as <-. destruct (IH e' eq_refl) as [IH1 IH2].
      cbn [flat_map]. rewrite unescape_percents, IH1.
      split; [reflexivity|]. constructor; assumption.
Qed.

(** Decoding the UTF-8 encoding of scalar values gives them back. *)
Lemma run_encoded (bom : bool) (s : text) :
  Forall (fun c => Utf8.scalar c = true) s ->
  Utf8.run (Utf8.idle bom) (flat_map Utf8.encode s) = (Utf8.idle bom, s).
Proof.
  induction 1 as [|c s Hc _ IH]; [reflexivity|].
  cbn [flat_map]. rewrite run_app.
  pose proof (run_encode_prefix bom c (Utf8.encode c) [] Hc
                (eq_sym (app_nil_r _))) as Hrun.
  cbv beta iota in Hrun. rewrite Hrun. cbn [fst snd]. rewrite IH. reflexivity.
Qed.

Lemma encodeURIComponent_scalars (s : text) :
  Forall (fun c => Utf8.scalar c = true) s ->
  exists e, Uri.encodeURIComponent s = Some e.
Proof.
  induction 1 as [|c s Hc _ (e & IH)]; [now exists []|].
  cbn [Uri.encodeURIComponent]. rewrite IH, Hc.
  destruct (Uri.unreserved c); eexists; reflexivity.
Qed.

End UriFacts.
Import UriFacts.

Lemma encodeURIComponent_unreserved (s : text) :
  forallb Uri.unreserved s = true -> Uri.encodeURIComponent s = Some s.
Proof.
  induction s as [|c s IH]; [reflexivity|]. cbn [forallb].
  intros H. apply andb_prop in H as [Hc Hs].
  cbn [Uri.encodeURIComponent]. now rewrite Hc, (IH Hs).
Qed.

(** X6: the citation id in the URL of [getCitation].  For an id that is
    well-formed text (no surrogate that is not part of a pair),
    [encodeURIComponent] does not throw and [getCitation] is the GET of
    [/api/v1/citations/] followed by the encoded id.  The encoded id is made
    of unreserved characters and [%] only (no [/], [?], [#] or [&] is
    written into the URL); the bytes behind it decode back to the id; two
    ids with the same encoding are the same id.  An id made of unreserved
    characters is written as it is: the code escapes nothing of it, the ids
    [.] and [..] included. *)
Theorem citation_id_is_percent_encoded :
  forall (number : Type) (num_text : number -> text)
         (URIError_message : text)
         (fetch : Client.Request number -> text + Response)
         (response_json : Response -> text + JSValue number)
         (this : Client.WebCiteApiClient) (s : text),
    Forall (fun c => Utf8.scalar c = true) s ->
    exists e,
      Uri.encodeURIComponent s = Some e
      /\ Client.getCitation num_text URIError_message fetch response_json
                            this (JStr s)
         = Client.request fetch response_json this
                          (txt "/api/v1/citations/" ++ e) (txt "GET") None
      /\ Forall (fun c => Uri.escaped_char c = true) e
      /\ Utf8.run (Utf8.idle false) (Uri.unescape e) = (Utf8.idle false, s)
      /\ (forall s', Uri.encodeURIComponent s' = Some e -> s' = s)
      /\ (forallb Uri.unreserved s = true -> e = s).
Proof.
  intros number num_text URIError_message fetch response_json this s Hs.
  destruct (encodeURIComponent_scalars s Hs) as [e He].
  exists e. split; [exact He|].
  split; [unfold Client.getCitation; cbn [Client.to_text]; now rewrite He|].
  split; [now apply encodeURIComponent_safe with s|].
  destruct (unescape_encodeURIComponent s e He) as [Hu _].
  split; [rewrite Hu; now apply run_encoded|].
  split.
  - intros s' He'. destruct (unescape_encodeURIComponent s' e He') as [Hu' Hs'].
    pose proof (run_encoded false s Hs) as R.
    pose proof (run_encoded false s' Hs') as R'.
    rewrite <- Hu in R. rewrite <- Hu' in R'. congruence.
  - intros Hun. rewrite (encodeURIComponent_unreserved s Hun) in He.
    now injection He.
Qed.

(** An id with a slash, a space and a character of three bytes. *)
Lemma citation_id_is_percent_encoded_witness :
  exists e,
    Uri.encodeURIComponent (txt "a/b c" ++ [8364]) = Some e
    /\ Client.getCitation Samples.num_text (txt "URI malformed")
                          Samples.down (fun _ => inr JNull) Samples.client
                          (JStr (txt "a/b c" ++ [8364]))
       = Client.request Samples.down (fun _ => inr JNull) Samples.client
                        (txt "/api/v1/citations/" ++ e) (txt "GET") None
    /\ Forall (fun c => Uri.escaped_char c = true) e
    /\ Utf8.run (Utf8.idle false) (Uri.unescape e)
       = (Utf8.idle false, txt "a/b c" ++ [8364])
    /\ (forall s', Uri.encodeURIComponent s' = Some e
                   -> s' = txt "a/b c" ++ [8364])
    /\ (forallb Uri.unreserved (txt "a/b c" ++ [8364]) = true
        -> e = txt "a/b c" ++ [8364]).
Proof.
  apply (citation_id_is_percent_encoded
           JSNumber.Num Samples.num_text (txt "URI malformed") Samples.down
           (fun _ => inr JNull) Samples.client (txt "a/b c" ++ [8364])).
  repeat constructor.
Defined.

(* ================================================================== *)
(** * The query string of [listCitations] *)

Module QueryFacts.

Lemma form_byte_clean (b : byte) :
  Forall (fun c => Uri.delimiter c = false) (Uri.form_byte b).
Proof. destruct b; repeat constructor. Qed.

Lemma form_encode_clean (s : text) :
  Forall (fun c => Uri.delimiter c = false) (Uri.form_encode s).
Proof.
  unfold Uri.form_encode. induction s as [|c s IH]; cbn [flat_map];
    [constructor|].
  apply Forall_app; split; [|exact IH].
  induction (Utf8.encode (if Utf8.scalar c then c else Utf8.REPLACEMENT))
    as [|b bs IHb]; cbn [flat_map]; [constructor|].
  apply Forall_app; split; [apply form_byte_clean|exact IHb].
Qed.

Lemma count_clean (c : Z) (s : text) :
  Uri.delimiter c = true ->
  Forall (fun x => Uri.delimiter x = false) s ->
  count_occ Z.eq_dec s c = 0%nat.
Proof.
  intros Hc Hs. apply count_occ_not_In. intros Hin.
  rewrite Forall_forall in Hs. specialize (Hs c Hin). congruence.
Qed.

Lemma count_form_encode (c : Z) (s : text) :
  Uri.delimiter c = true -> count_occ Z.eq_dec (Uri.form_encode s) c = 0%nat.
Proof. intros Hc. apply count_clean; [exact Hc|apply form_encode_clean]. Qed.

(** One pair [name=value]. *)
Lemma count_pair (c : Z) (p : text * text) :
  Uri.delimiter c = true ->
  count_occ Z.eq_dec
            (Uri.form_encode (fst p) ++ txt "=" ++ Uri.form_encode (snd p)) c
  = if c =? 61 then 1%nat else 0%nat.
Proof.
  intros Hc. rewrite !count_occ_app, !count_form_encode by exact Hc.
  change (txt "=") with [61]. cbn [count_occ Nat.add].
  destruct (Z.eq_dec 61 c) as [<-|Hne]; [reflexivity|].
  destruct (Z.eqb_spec c 61); [congruence|reflexivity].
Qed.

(** The pairs joined: one [=] for each pair, one [&] between two pairs. *)
Lemma count_toString (c : Z) (params : list (text * text)) :
  Uri.delimiter c = true ->
  count_occ Z.eq_dec (Uri.URLSearchParams_toString params) c
  = if c =? 61 then List.length params
    else if c =? 38 then pred (List.length params)
    else 0%nat.
Proof.
  intros Hc. unfold Uri.URLSearchParams_toString.
  induction params as [|p params IH]; [now destruct (c =? 61), (c =? 38)|].
  cbn [map Uri.join List.length pred].
  destruct params as [|q params].
  - cbn [map]. rewrite count_pair by exact Hc.
    now destruct (c =? 61), (c =? 38).
  - cbn [map] in *. rewrite count_occ_app, count_pair by exact Hc.
    rewrite count_occ_app, IH. cbn [List.length pred].
    change (txt "&") with [38]. cbn [count_occ].
    destruct (Z.eq_dec 38 c) as [<-|Hne]; [reflexivity|].
    destruct (Z.eqb_spec c 38); [congruence|].
    destruct (c =? 61); lia.
Qed.

Lemma toString_nonempty (params : list (text * text)) :
  nonempty (Uri.URLSearchParams_toString params)
  = match params with [] => false | _ :: _ => true end.
Proof.
  destruct params as [|p params]; [reflexivity|].
  pose proof (count_toString 61 (p :: params) eq_refl) as H.
  destruct (Uri.URLSearchParams_toString (p :: params)); [discriminate H|].
  reflexivity.
Qed.

End QueryFacts.
Import QueryFacts.

(** X7: the query string of [listCitations] has the separators the client
    puts there and no others, whatever the options hold.  The endpoint
    has one [=] for each parameter appended, one [&] between two
    parameters, one [?] when there is a parameter and none otherwise, and
    no [#]: a [thread_id] cannot add a parameter or end the query.  With
    no truthy option the endpoint is the bare path. *)
Theorem query_string_keeps_its_shape :
  forall (number : Type) (num_truthy : number -> bool)
         (num_text : number -> text)
         (options : Client.ListCitationsOptions.t number),
    let params := Client.listCitations_params num_truthy num_text options in
    let endpoint :=
      Client.listCitations_endpoint num_truthy num_text options in
    count_occ Z.eq_dec endpoint 61 = List.length params
    /\ count_occ Z.eq_dec endpoint 38 = pred (List.length params)
    /\ count_occ Z.eq_dec endpoint 63
       = match params with [] => 0%nat | _ :: _ => 1%nat end
    /\ count_occ Z.eq_dec endpoint 35 = 0%nat
    /\ (List.length params <= 3)%nat
    /\ match params with
       | [] => endpoint = txt "/api/v1/citations"
       | _ :: _ => startsWith endpoint (txt "/api/v1/citations?") = true
       end.
Proof.
  intros number num_truthy num_text options params endpoint.
  assert (Hlen : (List.length params <= 3)%nat).
  { subst params. unfold Client.listCitations_params.
    rewrite !length_app.
    destruct (truthy num_truthy (Client.ListCitationsOptions.page options)),
      (truthy num_truthy (Client.ListCitationsOptions.limit options)),
      (truthy num_truthy (Client.ListCitationsOptions.thread_id options));
      cbn; lia. }
  subst endpoint. unfold Client.listCitations_endpoint. fold params.
  rewrite toString_nonempty. clearbody params.
  destruct params as [|p rest].
  - repeat split; try reflexivity. exact Hlen.
  - rewrite !count_occ_app, !count_toString by reflexivity.
    repeat split; try reflexivity. exact Hlen.
Qed.

(* ================================================================== *)
(** * The client *)

(** X8: the constructor removes one trailing slash from the base URL, and
    only one: a base URL written with a slash at its end gives the URL
    without it, whatever comes before (another slash included), and a base
    URL that ends in another character, or is empty, is kept as it is. *)
Theorem constructor_strips_one_slash :
  forall (apiKey url : text),
    Client.baseUrl (Client.constructor apiKey (Some (url ++ txt "/"))) = url
    /\ (forall c, c <> 47 ->
          Client.baseUrl (Client.constructor apiKey (Some (url ++ [c])))
          = url ++ [c])
    /\ Client.baseUrl (Client.constructor apiKey (Some [])) = []
    /\ Client.baseUrl (Client.constructor apiKey None)
       = txt "https://api.webcite.co"
    /\ Client.apiKey (Client.constructor apiKey (Some url)) = apiKey.
Proof.
  intros apiKey url. unfold Client.constructor, Client.replace_trailing_slash.
  cbn [Client.baseUrl Client.apiKey]. repeat split.
  - change (txt "/") with [47]. rewrite last_last, removelast_last. reflexivity.
  - intros c Hc. rewrite last_last.
    destruct (Z.eqb_spec c 47); [contradiction|reflexivity].
Qed.

(* ================================================================== *)
(** * Clamped numbers *)

Module NumberFacts.

Lemma leb_of_Z (a b : Z) :
  JSNumber.leb (JSNumber.of_Z a) (JSNumber.of_Z b) = (a <=? b).
Proof.
  unfold JSNumber.leb, JSNumber.of_Z, QArith_base.Qle_bool,
    QArith_base.inject_Z. cbn [QArith_base.Qnum QArith_base.Qden].
  now rewrite !Z.mul_1_r.
Qed.

Lemma max_of_Z (a b : Z) :
  JSNumber.max (JSNumber.of_Z a) (JSNumber.of_Z b) = JSNumber.of_Z (Z.max a b).
Proof.
  unfold JSNumber.max. change (JSNumber.of_Z a) with
    (JSNumber.Real (QArith_base.inject_Z a)) at 1.
  change (JSNumber.of_Z b) with (JSNumber.Real (QArith_base.inject_Z b)) at 1.
  cbv iota beta.
  change (JSNumber.Real (QArith_base.inject_Z a)) with (JSNumber.of_Z a).
  change (JSNumber.Real (QArith_base.inject_Z b)) with (JSNumber.of_Z b).
  rewrite leb_of_Z. destruct (Z.leb_spec a b).
  - now rewrite Z.max_r.
  - now rewrite Z.max_l by lia.
Qed.

Lemma min_of_Z (a b : Z) :
  JSNumber.min (JSNumber.of_Z a) (JSNumber.of_Z b) = JSNumber.of_Z (Z.min a b).
Proof.
  unfold JSNumber.min. change (JSNumber.of_Z a) with
    (JSNumber.Real (QArith_base.inject_Z a)) at 1.
  change (JSNumber.of_Z b) with (JSNumber.Real (QArith_base.inject_Z b)) at 1.
  cbv iota beta.
  change (JSNumber.Real (QArith_base.inject_Z a)) with (JSNumber.of_Z a).
  change (JSNumber.Real (QArith_base.inject_Z b)) with (JSNumber.of_Z b).
  rewrite leb_of_Z. destruct (Z.leb_spec a b).
  - now rewrite Z.min_l.
  - now rewrite Z.min_r by lia.
Qed.

Lemma truthy_of_Z (z : Z) : JSNumber.num_truthy (JSNumber.of_Z z) = negb (z =? 0).
Proof. reflexivity. Qed.

(** [Math.max(n, lo)] is at least [lo] when [n] is not NaN. *)
Lemma max_lower (n : JSNumber.Num) (lo : Z) :
  n <> JSNumber.NaN ->
  JSNumber.leb (JSNumber.of_Z lo) (JSNumber.max n (JSNumber.of_Z lo)) = true.
Proof.
  intros Hn. destruct n as [|[|]|q]; [contradiction| |reflexivity|].
  - change (JSNumber.max (JSNumber.Inf true) (JSNumber.of_Z lo))
      with (JSNumber.of_Z lo).
    rewrite leb_of_Z. apply Z.leb_refl.
  - unfold JSNumber.max, JSNumber.of_Z. cbv iota beta.
    destruct (JSNumber.leb (JSNumber.Real q)
                           (JSNumber.Real (QArith_base.inject_Z lo))) eqn:E.
    + cbn. unfold QArith_base.Qle_bool. apply Z.leb_le. lia.
    + cbn in E |- *. unfold QArith_base.Qle_bool in *. cbn in E |- *.
      apply Z.leb_gt in E. apply Z.leb_le. lia.
Qed.

(** [Math.min(m, hi)] lies between [lo] and [hi] when [m] is at least
    [lo] and [lo <= hi]. *)
Lemma min_range (m : JSNumber.Num) (lo hi : Z) :
  lo <= hi ->
  JSNumber.leb (JSNumber.of_Z lo) m = true ->
  JSNumber.leb (JSNumber.of_Z lo) (JSNumber.min m (JSNumber.of_Z hi)) = true
  /\ JSNumber.leb (JSNumber.min m (JSNumber.of_Z hi)) (JSNumber.of_Z hi) = true.
Proof.
  intros Hlh Hm. destruct m as [|[|]|q]; try discriminate.
  - cbn. unfold QArith_base.Qle_bool. cbn. split; apply Z.leb_le; lia.
  - unfold JSNumber.min, JSNumber.of_Z. cbv iota beta.
    destruct (JSNumber.leb (JSNumber.Real q)
                           (JSNumber.Real (QArith_base.inject_Z hi))) eqn:E.
    + split; assumption.
    + cbn. unfold QArith_base.Qle_bool. cbn. split; apply Z.leb_le; lia.
Qed.

(** The integer part of a number between two integers lies between them. *)
Lemma trunc_range (q : QArith_base.Q) (lo hi : Z) :
  0 <= lo ->
  JSNumber.leb (JSNumber.of_Z lo) (JSNumber.Real q) = true ->
  JSNumber.leb (JSNumber.Real q) (JSNumber.of_Z hi) = true ->
  lo <= JSNumber.trunc q <= hi.
Proof.
  intros Hlo H1 H2. destruct q as [n d].
  cbn in H1, H2. unfold QArith_base.Qle_bool in *. cbn in H1, H2.
  apply Z.leb_le in H1, H2. unfold JSNumber.trunc. cbn.
  assert (Hd : 0 < Z.pos d) by lia.
  rewrite Z.quot_div_nonneg by nia.
  split.
  - apply Z.div_le_lower_bound; lia.
  - apply Z.div_le_upper_bound; lia.
Qed.

End NumberFacts.
Import NumberFacts.

Module ClampFacts.

Section Clamp.
Variable coerce_number : Server.value -> JSNumber.Num.

(** [v || d] is a number that is not NaN. *)
Lemma or_else_number (v : Server.value) (d : Z) :
  Server.number_or_absent v = true ->
  Server.ToNumber coerce_number (Server.or_else v (Server.number d))
  <> JSNumber.NaN.
Proof.
  intros Hv. unfold Server.or_else, Server.truthy.
  destruct v as [| | |n| | |]; try discriminate Hv; cbn [truthy].
  - cbn. discriminate.
  - destruct (JSNumber.num_truthy n) eqn:Hn; cbn; [|discriminate].
    intros ->. discriminate Hn.
Qed.

(** [Math.min(Math.max(v || d, lo), hi)]. *)
Lemma clamp_range (v : Server.value) (d lo hi : Z) :
  Server.number_or_absent v = true -> lo <= hi ->
  exists l,
    Server.Math_min coerce_number
      (Server.Math_max coerce_number (Server.or_else v (Server.number d))
                       (Server.number lo))
      (Server.number hi) = JNum l
    /\ JSNumber.leb (JSNumber.of_Z lo) l = true
    /\ JSNumber.leb l (JSNumber.of_Z hi) = true.
Proof.
  intros Hv Hlh. unfold Server.Math_min, Server.Math_max.
  eexists; split; [reflexivity|].
  cbn [Server.ToNumber Server.number]. apply min_range; [exact Hlh|].
  apply max_lower. now apply or_else_number.
Qed.

Lemma lower_range (v : Server.value) (d lo : Z) :
  Server.number_or_absent v = true ->
  exists p,
    Server.Math_max coerce_number (Server.or_else v (Server.number d))
                    (Server.number lo) = JNum p
    /\ JSNumber.leb (JSNumber.of_Z lo) p = true.
Proof.
  intros Hv. unfold Server.Math_max.
  eexists; split; [reflexivity|].
  cbn [Server.ToNumber Server.number]. apply max_lower.
  now apply or_else_number.
Qed.

Lemma or_else_integer (z d : Z) :
  Server.or_else (Server.number z) (Server.number d)
  = Server.number (if z =? 0 then d else z).
Proof.
  unfold Server.or_else, Server.truthy, Server.number. cbn [truthy].
  rewrite truthy_of_Z. now destruct (z =? 0).
Qed.

Lemma max_integer (a b : Z) :
  Server.Math_max coerce_number (Server.number a) (Server.number b)
  = Server.number (Z.max a b).
Proof.
  unfold Server.Math_max, Server.number. cbn [Server.ToNumber].
  now rewrite max_of_Z.
Qed.

Lemma min_integer (a b : Z) :
  Server.Math_min coerce_number (Server.number a) (Server.number b)
  = Server.number (Z.min a b).
Proof.
  unfold Server.Math_min, Server.number. cbn [Server.ToNumber].
  now rewrite min_of_Z.
Qed.

End Clamp.

(** A number that is at least 1 is truthy. *)
Lemma positive_truthy (n : JSNumber.Num) :
  JSNumber.leb (JSNumber.of_Z 1) n = true -> JSNumber.num_truthy n = true.
Proof.
  destruct n as [|[|]|[m d]]; try discriminate; [reflexivity|].
  cbn. unfold QArith_base.Qle_bool. cbn. intros H. apply Z.leb_le in H.
  destruct (Z.eqb_spec m 0); [lia|reflexivity].
Qed.

(** [slice(0, n)] for a number between 1 and [hi] keeps the first [k]
    elements, for a [k] between 1 and [hi]. *)
Lemma slice0_range (n : JSNumber.Num) (hi : Z) :
  JSNumber.leb (JSNumber.of_Z 1) n = true ->
  JSNumber.leb n (JSNumber.of_Z hi) = true ->
  exists k : nat,
    (1 <= k)%nat /\ Z.of_nat k <= hi
    /\ forall (A : Type) (l : list A), JSNumber.slice0 l n = firstn k l.
Proof.
  intros H1 H2. destruct n as [|[|]|q]; try discriminate.
  pose proof (trunc_range q 1 hi ltac:(lia) H1 H2) as Hq.
  exists (Z.to_nat (JSNumber.trunc q)). split; [lia|]. split; [lia|].
  intros A l. unfold JSNumber.slice0.
  destruct (Z.ltb_spec (JSNumber.trunc q) 0); [lia|reflexivity].
Qed.

End ClampFacts.
Import ClampFacts.

(** X9: the limit of [search_sources] is clamped.  For a limit that is a
    number (NaN and the infinities included) or is left out, the limit the
    handler goes on with is a number between 1 and 20; on an integer it is
    10 for zero and the integer brought into the range otherwise; left out,
    it is 10.  The sources listed are then the first [k] citations, for a
    [k] between 1 and 20. *)
Theorem search_limit_is_clamped :
  forall (coerce_number : Server.value -> JSNumber.Num) (args : Server.value),
    Server.number_or_absent (get args (txt "limit")) = true ->
    let limit := Server.search_limit coerce_number args in
    (exists l,
        limit = JNum l
        /\ JSNumber.leb (JSNumber.of_Z 1) l = true
        /\ JSNumber.leb l (JSNumber.of_Z 20) = true)
    /\ (forall z, get args (txt "limit") = Server.number z ->
          limit = Server.number (if z =? 0 then 10
                                 else Z.min (Z.max z 1) 20))
    /\ (get args (txt "limit") = JUndefined -> limit = Server.number 10)
    /\ (exists k : nat,
          (1 <= k <= 20)%nat
          /\ forall (A : Type) (citations : list A),
               JSNumber.slice0 citations (Server.ToNumber coerce_number limit)
               = firstn k citations).
Proof.
  intros coerce_number args Hv limit. subst limit. unfold Server.search_limit.
  destruct (clamp_range coerce_number (get args (txt "limit")) 10 1 20 Hv
              ltac:(lia)) as (l & Hl & H1 & H2).
  split; [now exists l|]. split; [|split].
  - intros z Hz. rewrite Hz, or_else_integer, max_integer, min_integer.
    now destruct (z =? 0).
  - intros Hu. rewrite Hu. reflexivity.
  - rewrite Hl. cbn [Server.ToNumber].
    destruct (slice0_range l 20 H1 H2) as (k & Hk1 & Hk2 & Hk).
    exists k. split; [lia|exact Hk].
Qed.

Lemma search_limit_is_clamped_witness :
  Server.search_limit (fun _ => JSNumber.NaN)
                      (Samples.arg "limit" (Server.number 500))
  = Server.number 20
  /\ Server.search_limit (fun _ => JSNumber.NaN)
                         (Samples.arg "limit" (Server.number (-3)))
     = Server.number 1
  /\ Server.search_limit (fun _ => JSNumber.NaN)
                         (Samples.arg "limit" (Server.number 0))
     = Server.number 10.
Proof.
  split; [|split].
  - exact (proj1 (proj2 (search_limit_is_clamped
                           (fun _ => JSNumber.NaN)
                           (Samples.arg "limit" (Server.number 500)) eq_refl))
                 500 eq_refl).
  - exact (proj1 (proj2 (search_limit_is_clamped
                           (fun _ => JSNumber.NaN)
                           (Samples.arg "limit" (Server.number (-3))) eq_refl))
                 (-3) eq_refl).
  - exact (proj1 (proj2 (search_limit_is_clamped
                           (fun _ => JSNumber.NaN)
                           (Samples.arg "limit" (Server.number 0)) eq_refl))
                 0 eq_refl).
Defined.

(** X10: the options of [list_citations] are clamped, and both are always
    sent.  For a page and a limit that are numbers or are left out, the
    page the handler passes on is a number that is at least 1 and the
    limit a number between 1 and 50; on integers they are 1 and 10 for
    zero, and the integer brought into the range otherwise.  Both are then
    truthy for the client, so, for a [thread_id] that is a string or is left
    out, the parameters are [page], then [limit], then [thread_id] when it
    is a string that is not empty. *)
Theorem list_options_are_clamped :
  forall (coerce_number : Server.value -> JSNumber.Num)
         (num_text : JSNumber.Num -> text) (args : Server.value),
    Server.number_or_absent (get args (txt "page")) = true ->
    Server.number_or_absent (get args (txt "limit")) = true ->
    let options := Server.list_options coerce_number args in
    exists page limit,
      Client.ListCitationsOptions.page options = JNum page
      /\ Client.ListCitationsOptions.limit options = JNum limit
      /\ JSNumber.leb (JSNumber.of_Z 1) page = true
      /\ JSNumber.leb (JSNumber.of_Z 1) limit = true
      /\ JSNumber.leb limit (JSNumber.of_Z 50) = true
      /\ (forall z, get args (txt "page") = Server.number z ->
            page = JSNumber.of_Z (if z =? 0 then 1 else Z.max z 1))
      /\ (forall z, get args (txt "limit") = Server.number z ->
            limit = JSNumber.of_Z (if z =? 0 then 10
                                   else Z.min (Z.max z 1) 50))
      /\ (Server.string_or_absent (get args (txt "thread_id")) = true ->
          Client.listCitations_params JSNumber.num_truthy num_text options
          = (txt "page", num_text page) :: (txt "limit", num_text limit)
            :: match get args (txt "thread_id") with
               | JStr (c :: id) => [(txt "thread_id", c :: id)]
               | _ => []
               end).
Proof.
  intros coerce_number num_text args Hp Hl options. subst options.
  unfold Server.list_options.
  cbn [Client.ListCitationsOptions.page Client.ListCitationsOptions.limit].
  destruct (lower_range coerce_number (get args (txt "page")) 1 1 Hp)
    as (page & Epage & Hpage).
  destruct (clamp_range coerce_number (get args (txt "limit")) 10 1 50 Hl
              ltac:(lia)) as (limit & Elimit & Hlo & Hhi).
  exists page, limit. repeat split; try assumption.
  - intros z Hz. rewrite Hz, or_else_integer, max_integer in Epage.
    injection Epage as <-. now destruct (z =? 0).
  - intros z Hz.
    rewrite Hz, or_else_integer, max_integer, min_integer in Elimit.
    injection Elimit as <-. now destruct (z =? 0).
  - intros Ht. unfold Client.listCitations_params.
    cbn [Client.ListCitationsOptions.page Client.ListCitationsOptions.limit
         Client.ListCitationsOptions.thread_id].
    rewrite Epage, Elimit. cbn [truthy Client.to_text].
    rewrite (positive_truthy page Hpage), (positive_truthy limit Hlo).
    destruct (get args (txt "thread_id")) as [| | | |[|c id]| |];
      try discriminate Ht; reflexivity.
Qed.

Lemma list_options_are_clamped_witness :
  exists page limit,
    Client.ListCitationsOptions.page
      (Server.list_options (fun _ => JSNumber.NaN)
                           (Samples.arg "limit" (Server.number 80)))
    = JNum page
    /\ limit = JSNumber.of_Z 50
    /\ Client.listCitations_endpoint
         JSNumber.num_truthy Samples.num_text
         (Server.list_options (fun _ => JSNumber.NaN)
                              (Samples.arg "limit" (Server.number 80)))
       = txt "/api/v1/citations?page=1&limit=50".
Proof.
  destruct (list_options_are_clamped
              (fun _ => JSNumber.NaN) Samples.num_text
              (Samples.arg "limit" (Server.number 80)) eq_refl eq_refl)
    as (page & limit & Hpage & _ & _ & _ & _ & _ & Hlimit & _).
  exists page, limit. split; [exact Hpage|]. split.
  - exact (Hlimit 80 eq_refl).
  - vm_compute. reflexivity.
Defined.

(* ================================================================== *)
(** * The tool handler *)

Module HandlerFacts.

Section Handle.
Variable P : Server.Platform.t.
Variable fetch : Client.Request JSNumber.Num -> text + Response.
Variable client : Client.WebCiteApiClient.
Variable args : Server.value.

Lemma handle_verify_claim :
  Server.handle P fetch client (txt "verify_claim") args
  = Server.caught (Server.verify_claim
              (Server.Platform.num_text P) fetch
              (Server.Platform.response_json P)
              (Server.Platform.as_VerifyClaimResponse P) client args).
Proof. reflexivity. Qed.

Lemma handle_verify_claim_stream :
  Server.handle P fetch client (txt "verify_claim_stream") args
  = Server.caught (Server.verify_claim_stream
              (Server.Platform.num_text P) (Server.Platform.num_add P)
              (Server.Platform.add_coerced P) (Server.Platform.JSON_parse P)
              (Server.Platform.JSON_stringify P) fetch
              (Server.Platform.as_VerifyClaimResponse P) client args).
Proof. reflexivity. Qed.

Lemma handle_search_sources :
  Server.handle P fetch client (txt "search_sources") args
  = Server.caught (Server.search_sources
              (Server.Platform.num_text P) (Server.Platform.coerce_number P)
              fetch (Server.Platform.response_json P)
              (Server.Platform.as_VerifyClaimResponse P) client args).
Proof. reflexivity. Qed.

Lemma handle_list_citations :
  Server.handle P fetch client (txt "list_citations") args
  = Server.caught (Server.list_citations
              (Server.Platform.num_text P) (Server.Platform.coerce_number P)
              (Server.Platform.toLocaleString P) fetch
              (Server.Platform.response_json P)
              (Server.Platform.as_ListCitationsResponse P) client args).
Proof. reflexivity. Qed.

Lemma handle_get_citation :
  Server.handle P fetch client (txt "get_citation") args
  = Server.caught (Server.get_citation
              (Server.Platform.num_text P) (Server.Platform.JSON_parse P)
              (Server.Platform.URIError_message P) fetch
              (Server.Platform.response_json P)
              (Server.Platform.as_CitationDetails P)
              (Server.Platform.as_Citations P) client args).
Proof. reflexivity. Qed.

(** [request] when the call fails. *)
Lemma request_failure (endpoint method : text)
      (body : option Server.value) (message : text) :
  (forall request, Client.failure (fetch request) = Some message) ->
  Client.request fetch (Server.Platform.response_json P) client endpoint
                 method body
  = inl message.
Proof.
  intros H. unfold Client.request.
  match goal with |- context [fetch ?r] => specialize (H r); destruct (fetch r) end.
  - cbn in H. congruence.
  - cbn [Client.failure] in H. cbv zeta.
    destruct (negb (ok r)); [injection H as <-; reflexivity|discriminate].
Qed.

(** [request] depends on [fetch] through the one request it sends. *)
Lemma request_once (fetch' : Client.Request JSNumber.Num -> text + Response)
      (endpoint method : text) (body : option Server.value) :
  fetch (Client.mkRequest (Client.baseUrl client ++ endpoint) method
           [ (txt "Content-Type", txt "application/json");
             (txt "x-api-key", Client.apiKey client) ] body)
  = fetch' (Client.mkRequest (Client.baseUrl client ++ endpoint) method
              [ (txt "Content-Type", txt "application/json");
                (txt "x-api-key", Client.apiKey client) ] body) ->
  Client.request fetch (Server.Platform.response_json P) client endpoint
                 method body
  = Client.request fetch' (Server.Platform.response_json P) client endpoint
                   method body.
Proof. intros H. unfold Client.request. now rewrite H. Qed.

End Handle.

(** A name that is none of the tools' differs from each of them. *)
Lemma eqb_neq (a b : text) : a <> b -> Text.eqb a b = false.
Proof.
  intros H. destruct (Text.eqb a b) eqn:E; [|reflexivity].
  apply eqb_eq in E. contradiction.
Qed.

(** The result of the aggregator is never falsy. *)
Lemma collected_result_truthy (number : Type) (num_truthy : number -> bool)
      (num_zero : number) (num_add : number -> number -> number)
      (add_coerced : JSValue number -> JSValue number -> JSValue number)
      (evs : list (SSEEvent number)) (r : JSValue number) :
  result (collectStreamEvents num_truthy num_zero num_add add_coerced evs)
  = Some r ->
  truthy num_truthy r = true.
Proof.
  unfold collectStreamEvents. cbn [result]. rewrite final_fold.
  destruct (last_where (terminal num_truthy) evs) as [e|] eqn:Et.
  - apply last_where_some in Et as [_ Ht].
    rewrite (terminal_result number num_truthy e Ht).
    intros H; injection H as <-.
    unfold terminal, object_data in Ht.
    apply andb_prop in Ht as [_ Ht]. now apply andb_prop in Ht as [Ht _].
  - cbn [not_result]. unfold assemble. rewrite assemble_fold_all.
    cbn [finalResult claimGroups creditUsage threadId app].
    destruct (last_where (snapshot num_truthy) evs) as [e|] eqn:Es.
    + apply last_where_some in Es as [_ Hs].
      unfold snapshot, object_data in Hs.
      apply andb_prop in Hs as [Hs _]. apply andb_prop in Hs as [Hs _].
      cbn [not_result]. rewrite Hs. cbn [negb andb].
      intros H; injection H as <-. exact Hs.
    + cbn [not_result andb].
      destruct (accumulated_groups num_truthy evs); cbn; [discriminate|].
      intros H; injection H as <-. reflexivity.
Qed.

End HandlerFacts.
Import HandlerFacts.

(** X11: a required argument is checked before anything is sent.  When
    [claim], [query] or [citation_id] is missing or falsy (the empty string
    included), the tool returns its own error result, [isError] set,
    whatever the network would answer.  In [search_sources] the limit is
    clamped before the query is tested (line 546 comes before line 548), so
    this is stated for a limit that is not an array or an object, on which
    the clamp does not throw. *)
Theorem required_argument_is_checked_first :
  forall (P : Server.Platform.t)
         (fetch : Client.Request JSNumber.Num -> text + Response)
         (client : Client.WebCiteApiClient) (args : Server.value),
    (Server.truthy (get args (txt "claim")) = false ->
       Server.handle P fetch client (txt "verify_claim") args
       = Server.error_result (txt "Error: claim is required")
       /\ Server.handle P fetch client (txt "verify_claim_stream") args
          = Server.error_result (txt "Error: claim is required"))
    /\ (Server.truthy (get args (txt "query")) = false ->
        Server.primitive (get args (txt "limit")) = true ->
          Server.handle P fetch client (txt "search_sources") args
          = Server.error_result (txt "Error: query is required"))
    /\ (Server.truthy (get args (txt "citation_id")) = false ->
          Server.handle P fetch client (txt "get_citation") args
          = Server.error_result (txt "Error: citation_id is required")).
Proof.
  intros P fetch client args. split; [|split]; intros H.
  - rewrite handle_verify_claim, handle_verify_claim_stream.
    unfold Server.verify_claim, Server.verify_claim_stream.
    cbv zeta. rewrite H. split; reflexivity.
  - intros _. rewrite handle_search_sources. unfold Server.search_sources.
    cbv zeta. rewrite H. reflexivity.
  - rewrite handle_get_citation. unfold Server.get_citation.
    cbv zeta. rewrite H. reflexivity.
Qed.

(** No arguments at all, and an empty claim. *)
Lemma required_argument_is_checked_first_witness :
  Server.handle Samples.platform Samples.down Samples.client
                (txt "verify_claim") JUndefined
  = Server.error_result (txt "Error: claim is required")
  /\ Server.handle Samples.platform Samples.down Samples.client
                   (txt "verify_claim_stream") (Samples.arg "claim" (JStr []))
     = Server.error_result (txt "Error: claim is required")
  /\ Server.handle Samples.platform Samples.down Samples.client
                   (txt "search_sources") (Samples.arg "limit" (Server.number 5))
     = Server.error_result (txt "Error: query is required")
  /\ Server.handle Samples.platform Samples.down Samples.client
                   (txt "get_citation") JNull
     = Server.error_result (txt "Error: citation_id is required").
Proof.
  split; [|split; [|split]].
  - exact (proj1 (proj1 (required_argument_is_checked_first
                           Samples.platform Samples.down Samples.client
                           JUndefined) eq_refl)).
  - exact (proj2 (proj1 (required_argument_is_checked_first
                           Samples.platform Samples.down Samples.client
                           (Samples.arg "claim" (JStr []))) eq_refl)).
  - exact (proj1 (proj2 (required_argument_is_checked_first
                           Samples.platform Samples.down Samples.client
                           (Samples.arg "limit" (Server.number 5))))
                 eq_refl eq_refl).
  - exact (proj2 (proj2 (required_argument_is_checked_first
                           Samples.platform Samples.down Samples.client
                           JNull)) eq_refl).
Defined.

(** X12: a name that is none of the six tools' gives the error result
    [Unknown tool: <name>], and nothing is sent. *)
Theorem unknown_tool_is_an_error :
  forall (P : Server.Platform.t)
         (fetch : Client.Request JSNumber.Num -> text + Response)
         (client : Client.WebCiteApiClient) (name : text)
         (args : Server.value),
    ~ In name Server.tool_names ->
    Server.handle P fetch client name args
    = Server.error_result (txt "Unknown tool: " ++ name).
Proof.
  intros P fetch client name args Hname.
  unfold Server.handle, Server.CallTool, Server.dispatch.
  unfold Server.tool_names in Hname. cbn [In] in Hname.
  rewrite !eqb_neq by (intros ->; tauto). reflexivity.
Qed.

Lemma unknown_tool_is_an_error_witness :
  Server.handle Samples.platform Samples.down Samples.client
                (txt "Verify_Claim") JUndefined
  = Server.error_result (txt "Unknown tool: Verify_Claim").
Proof.
  apply (unknown_tool_is_an_error Samples.platform Samples.down Samples.client
           (txt "Verify_Claim") JUndefined).
  unfold Server.tool_names. cbn [In].
  intros [H|[H|[H|[H|[H|[H|[]]]]]]]; discriminate H.
Defined.

(** X13: a call that fails is reported as a tool error with the message of
    the failure.  When [fetch] rejects, or answers with a response that is
    not ok, every tool that goes through the client and has its required
    argument returns [Error: <message>] with [isError] set, the message
    being the one [fetch] rejected with or [WebCite API error (<status>):
    <body>].  For [get_citation] an id that [encodeURIComponent] rejects
    gives the message of its [URIError] instead, the network left alone.
    The arguments a tool turns into a number or a string before it calls
    [fetch] ([limit], [page], [thread_id], [citation_id]) are taken not to
    be arrays or objects: on those the conversion itself can throw. *)
Theorem failed_call_is_a_tool_error :
  forall (P : Server.Platform.t)
         (fetch : Client.Request JSNumber.Num -> text + Response)
         (client : Client.WebCiteApiClient) (message : text),
    (forall request, Client.failure (fetch request) = Some message) ->
    forall args : Server.value,
      (Server.truthy (get args (txt "claim")) = true ->
         Server.handle P fetch client (txt "verify_claim") args
         = Server.error_result (txt "Error: " ++ message)
         /\ Server.handle P fetch client (txt "verify_claim_stream") args
            = Server.error_result (txt "Error: " ++ message))
      /\ (Server.truthy (get args (txt "query")) = true ->
          Server.primitive (get args (txt "limit")) = true ->
            Server.handle P fetch client (txt "search_sources") args
            = Server.error_result (txt "Error: " ++ message))
      /\ (Server.primitive (get args (txt "page")) = true ->
          Server.primitive (get args (txt "limit")) = true ->
          Server.primitive (get args (txt "thread_id")) = true ->
            Server.handle P fetch client (txt "list_citations") args
            = Server.error_result (txt "Error: " ++ message))
      /\ (Server.truthy (get args (txt "citation_id")) = true ->
          Server.primitive (get args (txt "citation_id")) = true ->
            Server.handle P fetch client (txt "get_citation") args
            = Server.error_result
                (txt "Error: "
                 ++ match Uri.encodeURIComponent
                            (Client.to_text (Server.Platform.num_text P)
                                            (get args (txt "citation_id")))
                    with
                    | Some _ => message
                    | None => Server.Platform.URIError_message P
                    end)).
Proof.
  intros P fetch client message Hfail args. split; [|split; [|split]].
  - intros H. rewrite handle_verify_claim, handle_verify_claim_stream.
    unfold Server.verify_claim, Server.verify_claim_stream,
      Client.verifyClaim, Client.verifyClaimStream.
    cbv zeta. rewrite H, (request_failure P fetch client _ _ _ message Hfail).
    cbn [negb Server.caught]. split; [reflexivity|].
    match goal with
    | |- context [fetch ?r] =>
        pose proof (Hfail r) as Hr; destruct (fetch r) as [error|response]
    end.
    + cbn in Hr. injection Hr as ->. reflexivity.
    + cbn [Client.failure] in Hr. unfold ApiClient.verifyClaimStream.
      cbv zeta. destruct (negb (ok response)); [|discriminate Hr].
      injection Hr as <-. reflexivity.
  - intros H _. rewrite handle_search_sources.
    unfold Server.search_sources, Client.searchSources.
    cbv zeta. rewrite H, (request_failure P fetch client _ _ _ message Hfail).
    reflexivity.
  - intros _ _ _. rewrite handle_list_citations.
    unfold Server.list_citations, Client.listCitations.
    rewrite (request_failure P fetch client _ _ _ message Hfail).
    reflexivity.
  - intros H _. rewrite handle_get_citation.
    unfold Server.get_citation, Client.getCitation.
    cbv zeta. rewrite H. cbn [negb].
    destruct (Uri.encodeURIComponent _); [|reflexivity].
    rewrite (request_failure P fetch client _ _ _ message Hfail).
    reflexivity.
Qed.

(** The network down, and a response with status 402. *)
Lemma failed_call_is_a_tool_error_witness :
  Server.handle Samples.platform Samples.down Samples.client
                (txt "list_citations") JUndefined
  = Server.error_result (txt "Error: fetch failed")
  /\ Server.handle Samples.platform
                   (Samples.answers (mkResponse 402 (txt "no credits") None))
                   Samples.client (txt "verify_claim_stream")
                   (Samples.arg "claim" (JStr (txt "x")))
     = Server.error_result
         (txt "Error: WebCite API error (402): no credits").
Proof.
  split.
  - exact (proj1 (proj2 (proj2 (failed_call_is_a_tool_error
                                  Samples.platform Samples.down Samples.client
                                  (txt "fetch failed") (fun _ => eq_refl)
                                  JUndefined)))
                 eq_refl eq_refl eq_refl).
  - exact (proj2 (proj1 (failed_call_is_a_tool_error
                           Samples.platform
                           (Samples.answers
                              (mkResponse 402 (txt "no credits") None))
                           Samples.client
                           (txt "WebCite API error (402): no credits")
                           (fun _ => eq_refl)
                           (Samples.arg "claim" (JStr (txt "x"))))
                        eq_refl)).
Defined.


(** X15: each verify tool sends one request, and this is it.  The result
    of [verify_claim] depends on the network only through the answer to a
    POST to [/api/v1/verify], and that of [verify_claim_stream] through the
    answer to a POST to [/api/v1/verify/stream] that also accepts
    [text/event-stream]; both carry the API key and the same body:
    [include_stance] and [include_verdict] are false only when the argument
    is exactly [false], [decompose_claim] is true only when the argument is
    exactly [true], and [claim] and [thread_id] go as they came. *)
Theorem verify_tools_send_one_request :
  forall (P : Server.Platform.t) (client : Client.WebCiteApiClient)
         (args : Server.value)
         (fetch fetch' : Client.Request JSNumber.Num -> text + Response),
    let body :=
      JObj [ (txt "claim", get args (txt "claim"));
             (txt "thread_id", get args (txt "thread_id"));
             (txt "include_stance",
              JBool (Client.not_false (get args (txt "include_stance"))));
             (txt "include_verdict",
              JBool (Client.not_false (get args (txt "include_verdict"))));
             (txt "decompose_claim",
              JBool (Client.is_true (get args (txt "decompose_claim")))) ] in
    let verify :=
      Client.mkRequest
        (Client.baseUrl client ++ txt "/api/v1/verify") (txt "POST")
        [ (txt "Content-Type", txt "application/json");
          (txt "x-api-key", Client.apiKey client) ]
        (Some body) in
    let verify_stream :=
      Client.mkRequest
        (Client.baseUrl client ++ txt "/api/v1/verify/stream") (txt "POST")
        [ (txt "Content-Type", txt "application/json");
          (txt "x-api-key", Client.apiKey client);
          (txt "Accept", txt "text/event-stream") ]
        (Some body) in
    (fetch verify = fetch' verify ->
       Server.handle P fetch client (txt "verify_claim") args
       = Server.handle P fetch' client (txt "verify_claim") args)
    /\ (fetch verify_stream = fetch' verify_stream ->
          Server.handle P fetch client (txt "verify_claim_stream") args
          = Server.handle P fetch' client (txt "verify_claim_stream") args).
Proof.
  intros P client args fetch fetch' body verify verify_stream.
  assert (Hbody : Client.verify_body (Server.verify_options args) = body).
  { subst body. unfold Client.verify_body, Server.verify_options.
    cbn [Client.VerifyClaimOptions.claim Client.VerifyClaimOptions.thread_id
         Client.VerifyClaimOptions.include_stance
         Client.VerifyClaimOptions.include_verdict
         Client.VerifyClaimOptions.decompose_claim
         Client.VerifyClaimOptions.use_claim_decomposition Client.nullish].
    destruct (Client.not_false (get args (txt "include_stance"))),
      (Client.not_false (get args (txt "include_verdict"))); reflexivity. }
  split; intros H.
  - rewrite !handle_verify_claim. unfold Server.verify_claim. cbv zeta.
    destruct (negb (Server.truthy (get args (txt "claim")))); [reflexivity|].
    unfold Client.verifyClaim. rewrite Hbody.
    now rewrite (request_once P fetch client fetch' _ _ _ H).
  - rewrite !handle_verify_claim_stream. unfold Server.verify_claim_stream.
    cbv zeta.
    destruct (negb (Server.truthy (get args (txt "claim")))); [reflexivity|].
    unfold Client.verifyClaimStream. rewrite Hbody.
    fold verify_stream. now rewrite H.
Qed.

(** A network that answers the request of [verify_claim] and no other. *)
Lemma verify_tools_send_one_request_witness :
  Server.handle Samples.platform
                (Samples.answers (mkResponse 200 [] None))
                Samples.client (txt "verify_claim")
                (JObj [ (txt "claim", JStr (txt "x"));
                        (txt "include_stance", JStr (txt "false")) ])
  = Server.handle Samples.platform
      (fun request =>
         match Client.json_body request with
         | Some body =>
             if Text.eqb (Client.url request)
                         (txt "https://api.webcite.co/api/v1/verify")
                && Client.is_true (get body (txt "include_stance"))
             then inr (mkResponse 200 [] None)
             else inl (txt "another request")
         | None => inl (txt "no body")
         end)
      Samples.client (txt "verify_claim")
      (JObj [ (txt "claim", JStr (txt "x"));
              (txt "include_stance", JStr (txt "false")) ]).
Proof.
  exact (proj1 (verify_tools_send_one_request
                  Samples.platform Samples.client
                  (JObj [ (txt "claim", JStr (txt "x"));
                          (txt "include_stance", JStr (txt "false")) ])
                  (Samples.answers (mkResponse 200 [] None)) _)
               eq_refl).
Defined.

(** X16: the other tools that go through the client send one request
    each.  [search_sources] depends on the network only through the answer
    to a POST to [/api/v1/sources/search] whose body holds the query and
    the clamped limit (the default of the client never applies);
    [list_citations] through the answer to a GET of the citations path with
    the query string of the clamped options; [get_citation] through the
    answer to a GET of the citations path followed by the encoded id, and
    not at all when the id cannot be encoded. *)
Theorem other_tools_send_one_request :
  forall (P : Server.Platform.t) (client : Client.WebCiteApiClient)
         (args : Server.value)
         (fetch fetch' : Client.Request JSNumber.Num -> text + Response),
    let headers :=
      [ (txt "Content-Type", txt "application/json");
        (txt "x-api-key", Client.apiKey client) ] in
    let search :=
      Client.mkRequest
        (Client.baseUrl client ++ txt "/api/v1/sources/search") (txt "POST")
        headers
        (Some (JObj [ (txt "query", get args (txt "query"));
                      (txt "limit",
                       Server.search_limit (Server.Platform.coerce_number P)
                                           args) ])) in
    let list :=
      Client.mkRequest
        (Client.baseUrl client
         ++ Client.listCitations_endpoint
              JSNumber.num_truthy (Server.Platform.num_text P)
              (Server.list_options (Server.Platform.coerce_number P) args))
        (txt "GET") headers None in
    let details (encoded : text) :=
      Client.mkRequest
        (Client.baseUrl client ++ txt "/api/v1/citations/" ++ encoded)
        (txt "GET") headers None in
    let id :=
      Client.to_text (Server.Platform.num_text P)
                     (get args (txt "citation_id")) in
    (fetch search = fetch' search ->
       Server.handle P fetch client (txt "search_sources") args
       = Server.handle P fetch' client (txt "search_sources") args)
    /\ (fetch list = fetch' list ->
          Server.handle P fetch client (txt "list_citations") args
          = Server.handle P fetch' client (txt "list_citations") args)
    /\ (forall encoded,
          Uri.encodeURIComponent id = Some encoded ->
          fetch (details encoded) = fetch' (details encoded) ->
          Server.handle P fetch client (txt "get_citation") args
          = Server.handle P fetch' client (txt "get_citation") args)
    /\ (Uri.encodeURIComponent id = None ->
          Server.handle P fetch client (txt "get_citation") args
          = Server.handle P fetch' client (txt "get_citation") args).
Proof.
  intros P client args fetch fetch' headers search list details id.
  split; [|split; [|split]].
  - intros H. rewrite !handle_search_sources. unfold Server.search_sources.
    cbv zeta.
    destruct (negb (Server.truthy (get args (txt "query")))); [reflexivity|].
    unfold Client.searchSources, Client.request. cbv zeta.
    match goal with
    | |- context [fetch ?r] => change (fetch r) with (fetch search)
    end.
    match goal with
    | |- context [fetch' ?r] => change (fetch' r) with (fetch' search)
    end.
    now rewrite H.
  - intros H. rewrite !handle_list_citations. unfold Server.list_citations.
    unfold Client.listCitations.
    now rewrite (request_once P fetch client fetch' _ _ _ H).
  - intros encoded He H. rewrite !handle_get_citation.
    unfold Server.get_citation. cbv zeta.
    destruct (negb (Server.truthy (get args (txt "citation_id"))));
      [reflexivity|].
    unfold Client.getCitation. fold id. rewrite He.
    now rewrite (request_once P fetch client fetch' _ _ _ H).
  - intros He. rewrite !handle_get_citation.
    unfold Server.get_citation. cbv zeta.
    destruct (negb (Server.truthy (get args (txt "citation_id"))));
      [reflexivity|].
    unfold Client.getCitation. fold id. rewrite He. reflexivity.
Qed.

(** A network that answers the request for the citation [a/b] and no
    other. *)
Lemma other_tools_send_one_request_witness :
  Server.handle Samples.platform
                (Samples.answers (mkResponse 200 [] None))
                Samples.client (txt "get_citation")
                (Samples.arg "citation_id" (JStr (txt "a/b")))
  = Server.handle Samples.platform
      (fun request =>
         if Text.eqb (Client.url request)
                     (txt "https://api.webcite.co/api/v1/citations/a%2Fb")
         then inr (mkResponse 200 [] None)
         else inl (txt "another request"))
      Samples.client (txt "get_citation")
      (Samples.arg "citation_id" (JStr (txt "a/b"))).
Proof.
  exact (proj1 (proj2 (proj2 (other_tools_send_one_request
                                Samples.platform Samples.client
                                (Samples.arg "citation_id" (JStr (txt "a/b")))
                                (Samples.answers (mkResponse 200 [] None)) _)))
               (txt "a%2Fb") eq_refl eq_refl).
Defined.

(* ================================================================== *)
(** * The shape of the frames *)

Module ShapeFacts.

(** A text that does not begin with white space. *)
Lemma trimStart_head (s : text) :
  match trimStart s with [] => True | c :: _ => is_space c = false end.
Proof.
  induction s as [|c s IH]; cbn [trimStart]; [exact I|].
  destruct (is_space c) eqn:Hc; [exact IH|exact Hc].
Qed.

Lemma trimStart_fixed (s : text) :
  match s with [] => True | c :: _ => is_space c = false end ->
  trimStart s = s.
Proof. destruct s as [|c s]; [reflexivity|]. cbn. now intros ->. Qed.

(** [trimStart] keeps a suffix. *)
Lemma trimStart_suffix (s : text) : exists p, s = p ++ trimStart s.
Proof.
  induction s as [|c s [p IH]]; [now exists []|]. cbn [trimStart].
  destruct (is_space c).
  - exists (c :: p). cbn. now rewrite <- IH.
  - now exists [].
Qed.

(** [trimEnd] keeps a prefix. *)
Lemma trimEnd_prefix (s : text) : exists p, s = trimEnd s ++ p.
Proof.
  unfold trimEnd. destruct (trimStart_suffix (rev s)) as [p Hp].
  exists (rev p). rewrite <- rev_app_distr, <- Hp. now rewrite rev_involutive.
Qed.

Lemma trim_idempotent (s : text) : trim (trim s) = trim s.
Proof.
  unfold trim at 1. set (u := trim s).
  assert (Hhead : match u with [] => True | c :: _ => is_space c = false end).
  { subst u. unfold trim. pose proof (trimStart_head s) as Ht.
    destruct (trimEnd_prefix (trimStart s)) as [p Hp].
    destruct (trimEnd (trimStart s)) as [|c u]; [exact I|].
    rewrite Hp in Ht. exact Ht. }
  rewrite (trimStart_fixed u Hhead). unfold trimEnd.
  assert (Hlast : trimStart (rev u) = rev u).
  { subst u. unfold trim, trimEnd. rewrite rev_involutive.
    apply trimStart_fixed, trimStart_head. }
  rewrite Hlast. apply rev_involutive.
Qed.

Lemma no_LF_app (a b : text) : no_LF (a ++ b) = no_LF a && no_LF b.
Proof. apply forallb_app. Qed.

Lemma no_LF_rev (s : text) : no_LF (rev s) = no_LF s.
Proof.
  induction s as [|c s IH]; [reflexivity|]. cbn [rev].
  rewrite no_LF_app, IH. cbn. rewrite andb_true_r. apply andb_comm.
Qed.

Lemma no_LF_trimStart (s : text) : no_LF s = true -> no_LF (trimStart s) = true.
Proof.
  destruct (trimStart_suffix s) as [p Hp]. intros H.
  rewrite Hp, no_LF_app in H. now apply andb_prop in H as [_ H].
Qed.

Lemma no_LF_trim (s : text) : no_LF s = true -> no_LF (trim s) = true.
Proof.
  intros H. unfold trim, trimEnd. rewrite no_LF_rev.
  apply no_LF_trimStart. rewrite no_LF_rev. now apply no_LF_trimStart.
Qed.

Lemma no_LF_slice (s : text) (n : nat) :
  no_LF s = true -> no_LF (slice s n) = true.
Proof.
  intros H. unfold slice. rewrite <- (firstn_skipn n s), no_LF_app in H.
  now apply andb_prop in H as [_ H].
Qed.

(** The lines of [split] hold no line feed. *)
Lemma split_lines (s : text) : Forall (fun l => no_LF l = true) (split s).
Proof.
  induction s as [|c s IH]; cbn [split]; [repeat constructor|].
  destruct (Z.eqb_spec c LF) as [->|Hc]; [constructor; [reflexivity|exact IH]|].
  destruct (split s) as [|l ls]; [repeat constructor; cbn|].
  - destruct (Z.eqb_spec c LF); [contradiction|reflexivity].
  - inversion IH as [|? ? Hl Hls]; subst. constructor; [|exact Hls].
    cbn. destruct (Z.eqb_spec c LF); [contradiction|exact Hl].
Qed.

Lemma Forall_removelast {A : Type} (Q : A -> Prop) (l : list A) :
  Forall Q l -> Forall Q (removelast l).
Proof.
  induction 1 as [|x l Hx Hl IH]; [constructor|]. cbn [removelast].
  destruct l; [constructor|]. constructor; assumption.
Qed.

Lemma shaped_initial : shaped (txt "message", []).
Proof. repeat split. Qed.

Lemma line_step_shaped (st : text * text) (line : text) :
  shaped st -> no_LF line = true ->
  shaped (fst (line_step pair st line))
  /\ Forall shaped (snd (line_step pair st line)).
Proof.
  intros Hst Hline. unfold line_step. destruct st as [e d].
  destruct Hst as (He1 & He2 & Hd). cbn [fst snd] in *.
  destruct (startsWith line (txt "event: ")).
  - split; [|constructor]. repeat split; cbn [fst snd].
    + apply trim_idempotent.
    + now apply no_LF_trim, no_LF_slice.
    + exact Hd.
  - destruct (startsWith line (txt "data: ")).
    + split; [|constructor]. repeat split; cbn [fst snd]; try assumption.
      now apply no_LF_slice.
    + destruct (Text.eqb line [] && nonempty d).
      * split; [apply shaped_initial|]. constructor; [|constructor].
        repeat split; assumption.
      * split; [|constructor]. repeat split; assumption.
Qed.

Lemma for_lines_shaped (st : text * text) (lines : list text) :
  shaped st -> Forall (fun l => no_LF l = true) lines ->
  shaped (fst (for_lines pair st lines))
  /\ Forall shaped (snd (for_lines pair st lines)).
Proof.
  intros Hst Hlines; revert st Hst.
  induction Hlines as [|line lines Hline _ IH]; intros st Hst;
    cbn [for_lines]; [split; [exact Hst|constructor]|].
  destruct (line_step_shaped st line Hst Hline) as [H1 H2].
  destruct (line_step pair st line) as [st1 out1]. cbn [fst snd] in *.
  destruct (IH st1 H1) as [H3 H4].
  destruct (for_lines pair st1 lines) as [st2 out2]. cbn [fst snd] in *.
  split; [exact H3|]. apply Forall_app; split; assumption.
Qed.

Lemma read_loop_shaped (d : Utf8.decoder) (buffer : text)
      (chunks : list (list byte)) :
  Forall shaped (snd (read_loop pair d buffer chunks)).
Proof.
  revert d buffer; induction chunks as [|value chunks IH]; intros d buffer;
    cbn [read_loop]; [constructor|].
  assert (H1 : Forall shaped (snd (read_pass pair d buffer value))).
  { unfold read_pass. destruct (Utf8.decode_stream d value) as [d' s].
    cbn [snd]. apply for_lines_shaped; [apply shaped_initial|].
    apply Forall_removelast, split_lines. }
  destruct (read_pass pair d buffer value) as [[d1 b1] out1].
  specialize (IH d1 b1).
  destruct (read_loop pair d1 b1 chunks) as [final out2].
  cbn [snd] in *. apply Forall_app; split; assumption.
Qed.

Lemma rest_fold_shaped (lines : list text) (st : text * text) :
  shaped st -> Forall (fun l => no_LF l = true) lines ->
  shaped (fold_left rest_step lines st).
Proof.
  intros Hst Hlines; revert st Hst.
  induction Hlines as [|line lines Hline _ IH]; intros st Hst;
    cbn [fold_left]; [exact Hst|].
  apply IH. unfold rest_step. destruct st as [e d].
  destruct Hst as (He1 & He2 & Hd). cbn [fst snd] in *.
  destruct (startsWith line (txt "event: ")).
  - repeat split; cbn [fst snd].
    + apply trim_idempotent.
    + now apply no_LF_trim, no_LF_slice.
    + exact Hd.
  - destruct (startsWith line (txt "data: ")).
    + repeat split; cbn [fst snd]; try assumption. now apply no_LF_slice.
    + repeat split; assumption.
Qed.

Lemma remaining_shaped (buffer : text) :
  Forall shaped (remaining pair buffer).
Proof.
  unfold remaining. destruct (nonempty (trim buffer)); [|constructor].
  pose proof (rest_fold_shaped (split buffer) (txt "message", [])
                shaped_initial (split_lines buffer)) as H.
  destruct (fold_left rest_step (split buffer) (txt "message", [])) as [e d].
  destruct (nonempty d); [|constructor]. constructor; [exact H|constructor].
Qed.

End ShapeFacts.
Import ShapeFacts.

(** X17: the shape of every frame the generator yields, whatever the body
    and however it is cut into reads.  The event kind has no white space
    at either end and no line feed in it, and the payload has no line feed
    in it: a frame is one kind and one line of payload. *)
Theorem frames_are_single_lines :
  forall chunks : list (list byte),
    Forall (fun f : Frame =>
              trim (fst f) = fst f
              /\ no_LF (fst f) = true
              /\ no_LF (snd f) = true)
           (stream_frames chunks).
Proof.
  intros chunks. unfold stream_frames, stream.
  pose proof (read_loop_shaped Utf8.fresh [] chunks) as H.
  destruct (read_loop pair Utf8.fresh [] chunks) as [[d b] out].
  cbn [snd] in H. apply Forall_app; split; [exact H|apply remaining_shaped].
Qed.

(* ================================================================== *)
(** * Payloads that are not objects *)

Module InertFacts.

Lemma filter_implied {A : Type} (p q : A -> bool) (l : list A) :
  (forall x, p x = true -> q x = true) ->
  filter p (filter q l) = filter p l.
Proof.
  intros H. induction l as [|x l IH]; [reflexivity|]. cbn [filter].
  destruct (q x) eqn:Hq; cbn [filter].
  - now rewrite IH.
  - destruct (p x) eqn:Hp; [|exact IH]. apply H in Hp. congruence.
Qed.

Section Collect.
Variable number : Type.
Variable num_truthy : number -> bool.
Variable num_zero : number.
Variable num_add : number -> number -> number.
Variable add_coerced : JSValue number -> JSValue number -> JSValue number.

(** The aggregator computes the three tiers. *)
Lemma result_tiers (evs : list (SSEEvent number)) :
  result (collectStreamEvents num_truthy num_zero num_add add_coerced evs)
  = tiers num_truthy num_zero num_add add_coerced evs.
Proof.
  unfold collectStreamEvents, tiers. cbn [result]. rewrite final_fold.
  change (last_event (terminal num_truthy) evs)
    with (last_where (terminal num_truthy) evs).
  change (last_event (snapshot num_truthy) evs)
    with (last_where (snapshot num_truthy) evs).
  destruct (last_where (terminal num_truthy) evs) as [e|] eqn:Et.
  - apply last_where_some in Et as [_ Ht].
    now rewrite (terminal_result number num_truthy e Ht).
  - cbn [not_result]. unfold assemble. rewrite assemble_fold_all.
    cbn [finalResult claimGroups creditUsage threadId app].
    destruct (last_where (snapshot num_truthy) evs) as [e|] eqn:Es.
    + apply last_where_some in Es as [_ Hs].
      unfold snapshot, object_data in Hs.
      apply andb_prop in Hs as [Hs _]. apply andb_prop in Hs as [Hs _].
      cbn [not_result]. rewrite Hs. reflexivity.
    + cbn [not_result andb].
      now destruct (accumulated_groups num_truthy evs).
Qed.

(** Every test of the tiers asks for an object payload first. *)
Lemma tiers_objects (evs : list (SSEEvent number)) :
  tiers num_truthy num_zero num_add add_coerced
        (filter (object_data num_truthy) evs)
  = tiers num_truthy num_zero num_add add_coerced evs.
Proof.
  unfold tiers, last_event, accumulated_groups, last_thread_id,
    last_credit_usage.
  rewrite !filter_implied; [reflexivity|..]; intros e H.
  - now apply andb_prop in H as [H _].
  - now apply andb_prop in H as [H _].
  - now apply andb_prop in H as [H _].
  - unfold snapshot in H. now apply andb_prop in H as [H _].
  - unfold terminal in H. now apply andb_prop in H as [_ H].
Qed.

End Collect.
End InertFacts.
Import InertFacts.

(** X18: payloads that are not objects play no part in the result.  The
    result of [collectStreamEvents] is the one it gives for the events
    whose payload is an object (an array counts as one): events that carry
    a string (a payload that was not valid JSON included), a number, a
    boolean or [null] can be added or removed anywhere in the stream
    without changing it, whatever their kind; they are still handed back
    among the events. *)
Theorem payloads_that_are_not_objects_are_inert :
  forall (number : Type) (num_truthy : number -> bool) (num_zero : number)
         (num_add : number -> number -> number)
         (add_coerced : JSValue number -> JSValue number -> JSValue number)
         (evs : list (SSEEvent number)),
    result (collectStreamEvents num_truthy num_zero num_add add_coerced evs)
    = result (collectStreamEvents
                num_truthy num_zero num_add add_coerced
                (filter (fun e => truthy num_truthy (data e)
                                  && typeof_object (data e)) evs))
    /\ events (collectStreamEvents num_truthy num_zero num_add add_coerced evs)
       = evs.
Proof.
  intros number num_truthy num_zero num_add add_coerced evs.
  split; [|reflexivity].
  rewrite !result_tiers. symmetry.
  exact (tiers_objects number num_truthy num_zero num_add add_coerced evs).
Qed.

(** A [thread_id] with separators in it, and a base URL with two slashes
    at its end. *)
Lemma query_string_keeps_its_shape_witness :
  Client.listCitations_endpoint
    JSNumber.num_truthy Samples.num_text
    (Client.ListCitationsOptions.make
       JUndefined JUndefined (JStr (txt "a&b=c #1")))
  = txt "/api/v1/citations?thread_id=a%26b%3Dc+%231"
  /\ count_occ Z.eq_dec
       (Client.listCitations_endpoint
          JSNumber.num_truthy Samples.num_text
          (Client.ListCitationsOptions.make
             JUndefined JUndefined (JStr (txt "a&b=c #1"))))
       38
     = 0%nat.
Proof.
  split; [reflexivity|].
  exact (proj1 (proj2 (query_string_keeps_its_shape
                         JSNumber.Num JSNumber.num_truthy Samples.num_text
                         (Client.ListCitationsOptions.make
                            JUndefined JUndefined
                            (JStr (txt "a&b=c #1")))))).
Defined.

Lemma constructor_strips_one_slash_witness :
  Client.baseUrl (Client.constructor (txt "key") (Some (txt "https://x//")))
  = txt "https://x/".
Proof.
  exact (proj1 (constructor_strips_one_slash (txt "key") (txt "https://x/"))).
Defined.

(** X19: the two verify tools agree.  When the stream carries a terminal
    event (kind [complete], [result] or [done], object payload) and the
    payload of the last one is the value the plain endpoint answers with,
    [verify_claim_stream] returns what [verify_claim] returns, whatever
    else the stream carries and whatever the arguments are. *)
Theorem streaming_and_plain_tools_agree :
  forall (P : Server.Platform.t) (client : Client.WebCiteApiClient)
         (args : Server.value)
         (fetch fetch' : Client.Request JSNumber.Num -> text + Response)
         (response response' : Response) (chunks : list (list byte))
         (e : SSEEvent JSNumber.Num),
    (forall request, fetch request = inr response) ->
    ok response = true ->
    Server.Platform.response_json P response = inr (data e) ->
    (forall request, fetch' request = inr response') ->
    ok response' = true ->
    body response' = Some chunks ->
    last_event (terminal JSNumber.num_truthy)
               (stream_events (Server.Platform.JSON_parse P) chunks)
    = Some e ->
    Server.handle P fetch' client (txt "verify_claim_stream") args
    = Server.handle P fetch client (txt "verify_claim") args.
Proof.
  intros P client args fetch fetch' response response' chunks e
         Hfetch Hok Hjson Hfetch' Hok' Hbody Hlast.
  rewrite handle_verify_claim, handle_verify_claim_stream.
  unfold Server.verify_claim, Server.verify_claim_stream. cbv zeta.
  destruct (negb (Server.truthy (get args (txt "claim")))); [reflexivity|].
  unfold Client.verifyClaim, Client.request, Client.verifyClaimStream.
  cbv zeta. rewrite Hfetch, Hfetch', Hok, Hjson.
  unfold ApiClient.verifyClaimStream. rewrite Hok', Hbody.
  cbn [negb thrown yielded].
  pose proof (result_tiers _ JSNumber.num_truthy (JSNumber.of_Z 0)
                (Server.Platform.num_add P) (Server.Platform.add_coerced P)
                (stream_events (Server.Platform.JSON_parse P) chunks)) as Hr.
  unfold tiers in Hr. rewrite Hlast in Hr.
  pose proof (collected_result_truthy _ _ _ _ _ _ _ Hr) as Ht.
  rewrite Hr. fold (Server.truthy (data e)) in Ht. rewrite Ht. reflexivity.
Qed.

(** A stream of a progress event and a terminal event, and the plain
    endpoint answering with the payload of the latter. *)
Lemma streaming_and_plain_tools_agree_witness :
  Server.handle
    (Samples.replying (JObj [(txt "thread_id", JStr (txt "t"))]))
    (Samples.answers
       (Ref.ok_response
          [Ref.bytes ("data: 1" ++ Samples.NL ++ Samples.NL
                      ++ "event: complete" ++ Samples.NL
                      ++ "data: {" ++ Ref.quoted "thread_id" ++ ":"
                      ++ Ref.quoted "t" ++ "}" ++ Samples.NL ++ Samples.NL)]))
    Samples.client (txt "verify_claim_stream")
    (Samples.arg "claim" (JStr (txt "x")))
  = Server.handle
      (Samples.replying (JObj [(txt "thread_id", JStr (txt "t"))]))
      (Samples.answers (mkResponse 200 [] None))
      Samples.client (txt "verify_claim")
      (Samples.arg "claim" (JStr (txt "x"))).
Proof.
  exact (streaming_and_plain_tools_agree
           (Samples.replying (JObj [(txt "thread_id", JStr (txt "t"))]))
           Samples.client (Samples.arg "claim" (JStr (txt "x")))
           (Samples.answers (mkResponse 200 [] None))
           (Samples.answers
              (Ref.ok_response
                 [Ref.bytes ("data: 1" ++ Samples.NL ++ Samples.NL
                             ++ "event: complete" ++ Samples.NL
                             ++ "data: {" ++ Ref.quoted "thread_id" ++ ":"
                             ++ Ref.quoted "t" ++ "}" ++ Samples.NL
                             ++ Samples.NL)]))
           (mkResponse 200 [] None)
           (Ref.ok_response
              [Ref.bytes ("data: 1" ++ Samples.NL ++ Samples.NL
                          ++ "event: complete" ++ Samples.NL
                          ++ "data: {" ++ Ref.quoted "thread_id" ++ ":"
                          ++ Ref.quoted "t" ++ "}" ++ Samples.NL
                          ++ Samples.NL)])
           [Ref.bytes ("data: 1" ++ Samples.NL ++ Samples.NL
                       ++ "event: complete" ++ Samples.NL
                       ++ "data: {" ++ Ref.quoted "thread_id" ++ ":"
                       ++ Ref.quoted "t" ++ "}" ++ Samples.NL ++ Samples.NL)]
           (mkSSEEvent (txt "complete")
                       (JObj [(txt "thread_id", JStr (txt "t"))]))
           (fun _ => eq_refl) eq_refl eq_refl (fun _ => eq_refl) eq_refl
           eq_refl eq_refl).
Defined.


